(** * gh-repo-stats UI service: job orchestration core

    A shallow embedding of [src/ui/services/github_stats.py] and of the
    routes of [src/ui/routes.py] that start and cancel a job, and the
    properties of the job registry, stream reader, orchestrator, results
    ingestion and summary.

    Conventions of the embedding.
    - Python [int] is [Z]; Python [str] is [string], read as a sequence of
      code points below 256 (text with other code points is outside the
      model).
    - Python [float] is IEEE-754 binary64, computed with the executable
      specification [SpecFloat] (precision 53, [emax] 1024).
    - A raised exception is a value of [exn]; a function that may raise
      returns [exn + A].  Only subclasses of [Exception] are modelled.
    - A job is a mutable object shared through the registry: the registry
      is the store, and every operation returns the store it leaves.
    - What the environment decides (the clock, the child process, the file
      system) is an explicit argument of the operation that consults it.
    - Interpreter limits that are configuration rather than semantics
      (the integer/string conversion digit limit, the csv field size limit)
      are not modelled. *)

From Stdlib Require Import ZArith List String Ascii Bool Lia.
From Stdlib Require Import SpecFloat DecimalString Decimal DecimalZ DecimalPos.
From Stdlib Require Import Sorted Permutation.
Import ListNotations.

Open Scope string_scope.
Open Scope Z_scope.

(** ** Exceptions *)

Inductive exn : Type :=
| OverflowError (msg : string)
| ValueError (msg : string)
| ZeroDivisionError (msg : string)
| AttributeError (msg : string)
| OSError (msg : string)
| CsvError (msg : string)
| TypeError (msg : string)
| UnicodeDecodeError (msg : string).

(** [str(e)] *)
Definition str_exn (e : exn) : string :=
  match e with
  | OverflowError m | ValueError m | ZeroDivisionError m
  | AttributeError m | OSError m | CsvError m | TypeError m
  | UnicodeDecodeError m => m
  end.

(** ** Python text primitives *)

Module PyText.

Definition code (c : ascii) : N := N_of_ascii c.

(** [str.isspace] on one character, which is also [\s] of [re]. *)
Definition is_space (c : ascii) : bool :=
  let n := code c in
  ((9 <=? n) && (n <=? 13) || (28 <=? n) && (n <=? 32)
   || (n =? 133) || (n =? 160))%N.

(** [\d] of [re]. *)
Definition is_digit (c : ascii) : bool :=
  let n := code c in ((48 <=? n) && (n <=? 57))%N.

Definition digit_value (c : ascii) : N := (code c - 48)%N.

(** [str.lower] on one character. *)
Definition lower_char (c : ascii) : ascii :=
  let n := code c in
  if ((65 <=? n) && (n <=? 90)
      || (192 <=? n) && (n <=? 222) && negb (n =? 215))%N
  then ascii_of_N (n + 32) else c.

Fixpoint lower (s : string) : string :=
  match s with
  | EmptyString => EmptyString
  | String c s' => String (lower_char c) (lower s')
  end.

Fixpoint lstrip (s : string) : string :=
  match s with
  | EmptyString => EmptyString
  | String c s' => if is_space c then lstrip s' else s
  end.

(** [rstrip] keeps a character when it is not a space or when something
    is kept after it. *)
Fixpoint rstrip (s : string) : string :=
  match s with
  | EmptyString => EmptyString
  | String c s' =>
      match rstrip s' with
      | EmptyString => if is_space c then EmptyString else String c EmptyString
      | r => String c r
      end
  end.

Definition strip (s : string) : string := rstrip (lstrip s).

(** [str(n)] for an [int]. *)
Definition str_int (n : Z) : string := NilZero.string_of_int (Z.to_int n).

(** The natural number a string of decimal digits denotes. *)
Fixpoint digits_acc (s : string) (acc : N) : N :=
  match s with
  | EmptyString => acc
  | String c s' => digits_acc s' (10 * acc + digit_value c)%N
  end.

(** [int(s)] for a string of decimal digits, as captured by [(\d+)]. *)
Definition int_of_digits (s : string) : Z := Z.of_N (digits_acc s 0).

(** [sep.join(l)] *)
Fixpoint join (sep : string) (l : list string) : string :=
  match l with
  | [] => ""
  | [x] => x
  | x :: l' => x ++ sep ++ join sep l'
  end.

(** Truthiness of a [str]. *)
Definition nonempty (s : string) : bool :=
  match s with EmptyString => false | _ => true end.

End PyText.

(** ** Python floating point *)

Module PyFloat.

Definition prec : Z := 53.
Definition emax : Z := 1024.

(** The integer [n] as an exact (not normalised) binary number. *)
Definition exact (n : Z) : spec_float :=
  match n with
  | Z0 => S754_zero false
  | Zpos p => S754_finite false p 0
  | Zneg p => S754_finite true p 0
  end.

(** [a / b] on two [int]s: the correctly rounded quotient. *)
Definition int_truediv (a b : Z) : exn + spec_float :=
  if b =? 0 then inl (ZeroDivisionError "division by zero")
  else match SFdiv prec emax (exact a) (exact b) with
       | S754_infinity _ =>
           inl (OverflowError "integer division result too large for a float")
       | q => inr q
       end.

(** [x * n] for a float [x] and a small [int] [n] (exactly representable). *)
Definition mul_int (x : spec_float) (n : Z) : spec_float :=
  SFmul prec emax x (exact n).

(** [int(x)]: truncation toward zero. *)
Definition to_int (x : spec_float) : exn + Z :=
  match x with
  | S754_zero _ => inr 0
  | S754_infinity _ => inl (OverflowError "cannot convert float infinity to integer")
  | S754_nan => inl (ValueError "cannot convert float NaN to integer")
  | S754_finite s m e =>
      let a := Z.shiftl (Zpos m) e in
      inr (if s then - a else a)
  end.

End PyFloat.

(** [int((processed / total) * 100)], the expression of lines 349 and 366. *)
Definition percent (processed total : Z) : exn + Z :=
  match PyFloat.int_truediv processed total with
  | inl e => inl e
  | inr q => PyFloat.to_int (PyFloat.mul_int q 100)
  end.

(** ** Regular expressions

    The fragment of [re] that the three patterns of [read_stderr] use,
    with the backtracking order of [re]: greedy repetition and greedy
    option, leftmost match for [search].  Repetition is only applied to
    character classes, as in the patterns. *)

Module Re.

Inductive cls : Type :=
| Space                      (* \s *)
| Digit                      (* \d *)
| Dot                        (* .  *)
| NoneOf (l : list ascii).   (* [^...] *)

Inductive regex : Type :=
| Eps
| Chr (c : ascii)            (* a literal character, under IGNORECASE *)
| Any (k : cls)
| OneOf (l : list ascii)     (* [...] *)
| Seq (r1 r2 : regex)
| Opt (r : regex)            (* r?  *)
| Star (k : cls)             (* k*  *)
| Plus (k : cls)             (* k+  *)
| Group (n : nat) (r : regex).

Definition mem (c : ascii) (l : list ascii) : bool :=
  existsb (Ascii.eqb c) l.

Definition in_cls (k : cls) (c : ascii) : bool :=
  match k with
  | Space => PyText.is_space c
  | Digit => PyText.is_digit c
  | Dot => negb (Ascii.eqb c "010")
  | NoneOf l => negb (mem c l)
  end.

Definition same_letter (a b : ascii) : bool :=
  Ascii.eqb (PyText.lower_char a) (PyText.lower_char b).

(** The literal text [s]. *)
Fixpoint lit (s : string) : regex :=
  match s with
  | EmptyString => Eps
  | String c s' => Seq (Chr c) (lit s')
  end.

(** Captured groups: number and text. *)
Definition captures := list (nat * string).

Fixpoint group (n : nat) (cs : captures) : option string :=
  match cs with
  | [] => None
  | (m, s) :: cs' => if Nat.eqb n m then Some s else group n cs'
  end.

(** The part of [s] consumed when [rest] is what remains of it. *)
Definition consumed (s rest : string) : string :=
  substring 0 (String.length s - String.length rest) s.

Section Match.
Context {R : Type}.

(** Greedy [k*]: the longest run first, then shorter ones. *)
Fixpoint star (k : cls) (s : string) (cont : string -> option R)
  : option R :=
  match s with
  | EmptyString => cont s
  | String c s' =>
      if in_cls k c then
        match star k s' cont with
        | Some r => Some r
        | None => cont s
        end
      else cont s
  end.

Fixpoint run (r : regex) (s : string) (cs : captures)
  (cont : string -> captures -> option R) : option R :=
  match r with
  | Eps => cont s cs
  | Chr c =>
      match s with
      | String x s' => if same_letter c x then cont s' cs else None
      | EmptyString => None
      end
  | Any k =>
      match s with
      | String x s' => if in_cls k x then cont s' cs else None
      | EmptyString => None
      end
  | OneOf l =>
      match s with
      | String x s' => if mem x l then cont s' cs else None
      | EmptyString => None
      end
  | Seq r1 r2 => run r1 s cs (fun s' cs' => run r2 s' cs' cont)
  | Opt r' =>
      match run r' s cs cont with
      | Some x => Some x
      | None => cont s cs
      end
  | Star k => star k s (fun s' => cont s' cs)
  | Plus k =>
      match s with
      | String x s' =>
          if in_cls k x then star k s' (fun s'' => cont s'' cs) else None
      | EmptyString => None
      end
  | Group n r' =>
      run r' s cs (fun s' cs' => cont s' ((n, consumed s s') :: cs'))
  end.
End Match.

(** [pattern.match(s)]: the groups of the match anchored at the start. *)
Definition match_here (r : regex) (s : string) : option captures :=
  run r s [] (fun _ cs => Some cs).

(** [pattern.search(s)]: the leftmost match. *)
Fixpoint search (r : regex) (s : string) : option captures :=
  match match_here r s with
  | Some cs => Some cs
  | None =>
      match s with
      | EmptyString => None
      | String _ s' => search r s'
      end
  end.

Fixpoint seq (l : list regex) : regex :=
  match l with
  | [] => Eps
  | [r] => r
  | r :: l' => Seq r (seq l')
  end.

End Re.

Import Re.

Definition quote_chars : list ascii := ["034"%char; "039"%char].

(** [Processing\s+(?:repo\s+)?(\d+)\s*/\s*(\d+)(?:\s*:\s*(.+))?] *)
Definition repo_pattern : regex :=
  seq [ lit "Processing"; Plus Space;
        Opt (Seq (lit "repo") (Plus Space));
        Group 1 (Plus Digit); Star Space; Chr "/"; Star Space;
        Group 2 (Plus Digit);
        Opt (seq [Star Space; Chr ":"; Star Space; Group 3 (Plus Dot)]) ].

(** [Analyzing\s+(?:repository\s+)?[q]?([^q]+)[q]?], where [q] stands for
    the two quote characters of [quote_chars]. *)
Definition repo_name_pattern : regex :=
  seq [ lit "Analyzing"; Plus Space;
        Opt (Seq (lit "repository") (Plus Space));
        Opt (OneOf quote_chars);
        Group 1 (Plus (NoneOf quote_chars));
        Opt (OneOf quote_chars) ].

(** [Found\s+(\d+)\s+repositor] *)
Definition total_pattern : regex :=
  seq [ lit "Found"; Plus Space; Group 1 (Plus Digit); Plus Space;
        lit "repositor" ].

(** ** Values and dictionaries

    The objects stored in a result row: [None], [str], [int], [bool] and
    the list of surplus cells that [csv.DictReader] files under the key
    [None].  A [dict] keeps its insertion order. *)

Inductive value : Type :=
| VNone
| VStr (s : string)
| VInt (n : Z)
| VBool (b : bool)
| VList (l : list string).

(** A key is a [str] or [None] (the [restkey] of [csv.DictReader]). *)
Definition key : Type := option string.

Definition dict : Type := list (key * value).

Definition key_eqb (a b : key) : bool :=
  match a, b with
  | None, None => true
  | Some x, Some y => String.eqb x y
  | _, _ => false
  end.

Fixpoint dict_get (k : key) (d : dict) : option value :=
  match d with
  | [] => None
  | (k', v) :: d' => if key_eqb k k' then Some v else dict_get k d'
  end.

(** [d[k] = v]: an existing key keeps its place. *)
Fixpoint dict_set (k : key) (v : value) (d : dict) : dict :=
  match d with
  | [] => [(k, v)]
  | (k', v') :: d' =>
      if key_eqb k k' then (k', v) :: d' else (k', v') :: dict_set k v d'
  end.

Definition dict_keys (d : dict) : list key := map fst d.

Definition key_in (k : key) (ks : list key) : bool := existsb (key_eqb k) ks.

(** Truthiness. *)
Definition truthy (v : value) : bool :=
  match v with
  | VNone => false
  | VStr s => PyText.nonempty s
  | VInt n => negb (n =? 0)
  | VBool b => b
  | VList l => match l with [] => false | _ => true end
  end.

(** ** The csv module, excel dialect *)

Module Csv.

Definition delimiter : ascii := ",".
Definition quotechar : ascii := "034".
Definition CR : ascii := "013".
Definition LF : ascii := "010".

Definition snoc (s : string) (c : ascii) : string := s ++ String c "".

(** Iterating over a text file opened with [newline='']: a line ends
    after LF, CR LF or a lone CR, and keeps its ending. *)
Fixpoint split_lines (s : string) (cur : string) : list string :=
  match s with
  | EmptyString => if PyText.nonempty cur then [cur] else []
  | String c s' =>
      if Ascii.eqb c LF then snoc cur c :: split_lines s' ""
      else if Ascii.eqb c CR then
        match s' with
        | String c' s'' =>
            if Ascii.eqb c' LF
            then snoc (snoc cur c) c' :: split_lines s'' ""
            else snoc cur c :: split_lines s' ""
        | EmptyString => snoc cur c :: split_lines s' ""
        end
      else split_lines s' (snoc cur c)
  end.

(** A file being read: the lines it delivers, then the end of the file
    ([None]) or the error the next read raises. *)
Record file : Type := { flines : list string; ftail : option exn }.

Definition file_of_text (s : string) : file :=
  {| flines := split_lines s ""; ftail := None |}.

(** *** Reader *)

Inductive state : Type :=
| START_RECORD | START_FIELD | IN_FIELD | IN_QUOTED_FIELD
| QUOTE_IN_QUOTED_FIELD | EAT_CRNL.

Record parser : Type :=
  { st : state; fields : list string; field : string }.

Definition parse_reset : parser :=
  {| st := START_RECORD; fields := []; field := "" |}.

Definition parse_save_field (p : parser) (s : state) : parser :=
  {| st := s; fields := (fields p ++ [field p])%list; field := "" |}.

Definition parse_add_char (p : parser) (c : ascii) (s : state) : parser :=
  {| st := s; fields := fields p; field := snoc (field p) c |}.

Definition goto (p : parser) (s : state) : parser :=
  {| st := s; fields := fields p; field := field p |}.

Definition is_newline (c : ascii) : bool := Ascii.eqb c LF || Ascii.eqb c CR.

(** One character in state [START_FIELD]. *)
Definition start_field (p : parser) (c : ascii) : parser :=
  if is_newline c then parse_save_field p EAT_CRNL
  else if Ascii.eqb c quotechar then goto p IN_QUOTED_FIELD
  else if Ascii.eqb c delimiter then parse_save_field p START_FIELD
  else parse_add_char p c IN_FIELD.

(** [parse_process_char] on a character of the line. *)
Definition process_char (p : parser) (c : ascii) : exn + parser :=
  match st p with
  | START_RECORD =>
      if is_newline c then inr (goto p EAT_CRNL)
      else inr (start_field p c)
  | START_FIELD => inr (start_field p c)
  | IN_FIELD =>
      if is_newline c then inr (parse_save_field p EAT_CRNL)
      else if Ascii.eqb c delimiter then inr (parse_save_field p START_FIELD)
      else inr (parse_add_char p c IN_FIELD)
  | IN_QUOTED_FIELD =>
      if Ascii.eqb c quotechar then inr (goto p QUOTE_IN_QUOTED_FIELD)
      else inr (parse_add_char p c IN_QUOTED_FIELD)
  | QUOTE_IN_QUOTED_FIELD =>
      if Ascii.eqb c quotechar then inr (parse_add_char p c IN_QUOTED_FIELD)
      else if Ascii.eqb c delimiter then inr (parse_save_field p START_FIELD)
      else if is_newline c then inr (parse_save_field p EAT_CRNL)
      else inr (parse_add_char p c IN_FIELD)
  | EAT_CRNL =>
      if is_newline c then inr p
      else inl (CsvError "new-line character seen in unquoted field - do you need to open the file with newline=''?")
  end.

(** [parse_process_char] on the end-of-line mark. *)
Definition process_eol (p : parser) : parser :=
  match st p with
  | START_RECORD => p
  | START_FIELD | IN_FIELD | QUOTE_IN_QUOTED_FIELD =>
      parse_save_field p START_RECORD
  | IN_QUOTED_FIELD => p
  | EAT_CRNL => goto p START_RECORD
  end.

Fixpoint process_line (line : string) (p : parser) : exn + parser :=
  match line with
  | EmptyString => inr (process_eol p)
  | String c line' =>
      match process_char p c with
      | inl e => inl e
      | inr p' => process_line line' p'
      end
  end.

Definition at_start (p : parser) : bool :=
  match st p with START_RECORD => true | _ => false end.

Definition in_quoted (p : parser) : bool :=
  match st p with IN_QUOTED_FIELD => true | _ => false end.

(** Every record [csv.reader] yields, in order, and how the iteration
    ends: [None] for the end of the input, [Some e] for a raised error. *)
Fixpoint read_records (p : parser) (lines : list string) (tail : option exn)
  : list (list string) * option exn :=
  match lines with
  | [] =>
      match tail with
      | Some e => ([], Some e)
      | None =>
          if PyText.nonempty (field p) || in_quoted p
          then ([(fields p ++ [field p])%list], None)
          else ([], None)
      end
  | line :: rest =>
      match process_line line p with
      | inl e => ([], Some e)
      | inr p' =>
          if at_start p' then
            let (rs, e) := read_records parse_reset rest tail in
            (fields p' :: rs, e)
          else read_records p' rest tail
      end
  end.

Definition reader (f : file) : list (list string) * option exn :=
  read_records parse_reset (flines f) (ftail f).

(** *** DictReader *)

(** [dict(zip(fieldnames, row))] *)
Fixpoint zip_dict (fieldnames : list string) (row : list string) (d : dict)
  : dict :=
  match fieldnames, row with
  | k :: ks, c :: cs => zip_dict ks cs (dict_set (Some k) (VStr c) d)
  | _, _ => d
  end.

Definition fill_missing (ks : list string) (d : dict) : dict :=
  fold_left (fun d k => dict_set (Some k) VNone d) ks d.

(** One row of [DictReader.__next__], with [restkey] and [restval] both
    [None]. *)
Definition row_dict (fieldnames row : list string) : dict :=
  let d := zip_dict fieldnames row [] in
  let lf := List.length fieldnames in
  let lr := List.length row in
  if (lf <? lr)%nat then dict_set None (VList (skipn lf row)) d
  else if (lr <? lf)%nat then fill_missing (skipn lr fieldnames) d
  else d.

Definition is_blank (row : list string) : bool :=
  match row with [] => true | _ => false end.

(** The rows [csv.DictReader(f)] yields: the first record gives the
    field names, blank records after it are skipped. *)
Definition dict_reader (f : file) : list dict * option exn :=
  match reader f with
  | ([], e) => ([], e)
  | (fieldnames :: rows, e) =>
      (map (row_dict fieldnames) (filter (fun r => negb (is_blank r)) rows), e)
  end.

(** *** Writer *)

Definition special (c : ascii) : bool :=
  Ascii.eqb c delimiter || Ascii.eqb c quotechar || is_newline c.

Fixpoint needs_quotes (s : string) : bool :=
  match s with
  | EmptyString => false
  | String c s' => special c || needs_quotes s'
  end.

Fixpoint double_quotes (s : string) : string :=
  match s with
  | EmptyString => EmptyString
  | String c s' =>
      if Ascii.eqb c quotechar
      then String c (String c (double_quotes s'))
      else String c (double_quotes s')
  end.

Definition quoted (s : string) : string :=
  String quotechar (snoc (double_quotes s) quotechar).

(** QUOTE_MINIMAL *)
Definition write_field (s : string) : string :=
  if needs_quotes s then quoted s else s.

Definition lineterminator : string := String CR (String LF "").

(** [writer.writerow(cells)]: a record made of one empty cell is written
    quoted. *)
Definition writerow (cells : list string) : string :=
  match cells with
  | [EmptyString] => quoted "" ++ lineterminator
  | _ => PyText.join (String delimiter "") (map write_field cells)
         ++ lineterminator
  end.

End Csv.

(** *** [str] and [repr] of the objects written *)

Definition hex_digit (n : N) : ascii :=
  if (n <? 10)%N then ascii_of_N (48 + n) else ascii_of_N (87 + n).

Definition backslash : ascii := "092".
Definition apostrophe : ascii := "039".

Fixpoint contains (c : ascii) (s : string) : bool :=
  match s with
  | EmptyString => false
  | String x s' => Ascii.eqb c x || contains c s'
  end.

Definition repr_char (q c : ascii) : string :=
  let n := PyText.code c in
  if Ascii.eqb c q || Ascii.eqb c backslash then String backslash (String c "")
  else if (n =? 9)%N then String backslash "t"
  else if (n =? 10)%N then String backslash "n"
  else if (n =? 13)%N then String backslash "r"
  else if ((n <? 32) || (n =? 127)
           || (128 <=? n) && (n <=? 160) || (n =? 173))%N
  then String backslash (String "x" (String (hex_digit (n / 16))
                                       (String (hex_digit (n mod 16)) "")))
  else String c "".

Fixpoint repr_body (q : ascii) (s : string) : string :=
  match s with
  | EmptyString => EmptyString
  | String c s' => repr_char q c ++ repr_body q s'
  end.

(** [repr(s)] for a [str]. *)
Definition repr_str (s : string) : string :=
  let q := if contains apostrophe s && negb (contains Csv.quotechar s)
           then Csv.quotechar else apostrophe in
  String q (Csv.snoc (repr_body q s) q).

(** The text the csv writer puts in a cell: [None] is empty, a [str] is
    itself, anything else is its [str()]. *)
Definition cell_text (v : value) : string :=
  match v with
  | VNone => ""
  | VStr s => s
  | VInt n => PyText.str_int n
  | VBool b => if b then "True" else "False"
  | VList l => "[" ++ PyText.join ", " (map repr_str l) ++ "]"
  end.

Definition key_value (k : key) : value :=
  match k with None => VNone | Some s => VStr s end.

(** ** Results ingestion *)

Definition numeric_fields : list string :=
  [ "Repo_Size(mb)"; "Record_Count"; "Collaborator_Count";
    "Protected_Branch_Count"; "PR_Review_Count"; "Milestone_Count";
    "Issue_Count"; "PR_Count"; "PR_Review_Comment_Count";
    "Commit_Comment_Count"; "Issue_Comment_Count"; "Issue_Event_Count";
    "Release_Count"; "Project_Count"; "Branch_Count"; "Tag_Count";
    "Discussion_Count" ].

Definition bool_fields : list string :=
  [ "Is_Empty"; "isFork"; "isArchived"; "Has_Wiki" ].

(** Decimal digits with single underscores between them. *)
Fixpoint digits_value (s : string) (acc : Z) (after_digit : bool) : option Z :=
  match s with
  | EmptyString => if after_digit then Some acc else None
  | String c s' =>
      if PyText.is_digit c
      then digits_value s' (10 * acc + Z.of_N (PyText.digit_value c)) true
      else if Ascii.eqb c "_" && after_digit then digits_value s' acc false
      else None
  end.

(** [int(s)] for a [str]; [None] stands for [ValueError]. *)
Definition int_of_str (s : string) : option Z :=
  match PyText.strip s with
  | String "-" s' => option_map Z.opp (digits_value s' 0 false)
  | String "+" s' => digits_value s' 0 false
  | s' => digits_value s' 0 false
  end.

Inductive int_result : Type :=
| IntOk (n : Z)
| IntValueError
| IntTypeError.

(** [int(v)] *)
Definition int_of_value (v : value) : int_result :=
  match v with
  | VStr s => match int_of_str s with Some n => IntOk n | None => IntValueError end
  | VInt n => IntOk n
  | VBool b => IntOk (if b then 1 else 0)
  | VNone | VList _ => IntTypeError
  end.

(** Lines 450-455 for one field. *)
Definition convert_numeric (row : dict) (f : string) : exn + dict :=
  match dict_get (Some f) row with
  | Some v =>
      if truthy v then
        match int_of_value v with
        | IntOk n => inr (dict_set (Some f) (VInt n) row)
        | IntValueError => inr row
        | IntTypeError =>
            inl (TypeError "int() argument must be a string, a bytes-like object or a real number")
        end
      else inr row
  | None => inr row
  end.

Definition type_name (v : value) : string :=
  match v with
  | VNone => "NoneType"
  | VStr _ => "str"
  | VInt _ => "int"
  | VBool _ => "bool"
  | VList _ => "list"
  end.

(** Lines 459-461 for one field. *)
Definition convert_bool (row : dict) (f : string) : exn + dict :=
  match dict_get (Some f) row with
  | Some (VStr s) =>
      inr (dict_set (Some f) (VBool (String.eqb (PyText.lower s) "true")) row)
  | Some v =>
      inl (AttributeError ("'" ++ type_name v ++ "' object has no attribute 'lower'"))
  | None => inr row
  end.

Fixpoint for_each (step : dict -> string -> exn + dict) (fs : list string)
  (row : dict) : exn + dict :=
  match fs with
  | [] => inr row
  | f :: fs' =>
      match step row f with
      | inl e => inl e
      | inr row' => for_each step fs' row'
      end
  end.

(** The body of the loop over the rows, lines 441-461. *)
Definition convert_row (row : dict) : exn + dict :=
  match for_each convert_numeric numeric_fields row with
  | inl e => inl e
  | inr row' => for_each convert_bool bool_fields row'
  end.

(** The loop of line 440 over the rows still to come: the rows appended to
    [results], and the error that stopped the loop if one did. *)
Fixpoint convert_rows (rows : list dict) (tail : option exn)
  : list dict * option exn :=
  match rows with
  | [] => ([], tail)
  | row :: rows' =>
      match convert_row row with
      | inl e => ([], Some e)
      | inr row' =>
          let (rs, e) := convert_rows rows' tail in (row' :: rs, e)
      end
  end.

(** What [open(csv_path, ...)] gives: an error or the file. *)
Definition artifact : Type := exn + Csv.file.

(** [parse_csv_results] with the error its [except] clause swallowed. *)
Definition parse_csv_run (a : artifact) : list dict * option exn :=
  match a with
  | inl e => ([], Some e)
  | inr f =>
      let (rows, tail) := Csv.dict_reader f in
      convert_rows rows tail
  end.

Definition parse_csv_results (a : artifact) : list dict :=
  fst (parse_csv_run a).

(** [DictWriter._dict_to_list] with [extrasaction='raise'] and
    [restval='']. *)
Definition dict_to_list (fieldnames : list key) (row : dict)
  : exn + list string :=
  if forallb (fun k => key_in k fieldnames) (dict_keys row)
  then inr (map (fun k => match dict_get k row with
                          | Some v => cell_text v
                          | None => ""
                          end) fieldnames)
  else inl (ValueError "dict contains fields not in fieldnames").

Fixpoint writerows (fieldnames : list key) (rows : list dict) : exn + string :=
  match rows with
  | [] => inr ""
  | row :: rows' =>
      match dict_to_list fieldnames row with
      | inl e => inl e
      | inr cells =>
          match writerows fieldnames rows' with
          | inl e => inl e
          | inr text => inr (Csv.writerow cells ++ text)
          end
      end
  end.

Definition results_to_csv (results : list dict) : exn + string :=
  match results with
  | [] => inr ""
  | first :: _ =>
      let fieldnames := dict_keys first in
      let header := Csv.writerow (map (fun k => cell_text (key_value k)) fieldnames) in
      match writerows fieldnames results with
      | inl e => inl e
      | inr body => inr (header ++ body)
      end
  end.

(** ** Jobs *)

Inductive JobStatus : Type := PENDING | RUNNING | COMPLETED | FAILED.

(** [status.value] *)
Definition status_value (s : JobStatus) : string :=
  match s with
  | PENDING => "pending"
  | RUNNING => "running"
  | COMPLETED => "completed"
  | FAILED => "failed"
  end.

Definition status_eqb (a b : JobStatus) : bool :=
  match a, b with
  | PENDING, PENDING | RUNNING, RUNNING
  | COMPLETED, COMPLETED | FAILED, FAILED => true
  | _, _ => false
  end.

Record AnalysisConfig : Type := {
  organizations : list string;
  repo_list : list string;
  hostname : string;
  output_format : string;
  repo_page_size : Z;
  extra_page_size : Z;
  token_type : string;
  analyze_repo_conflicts : bool;
  analyze_team_conflicts : bool;
  token : option string
}.

Definition default_config : AnalysisConfig := {|
  organizations := [];
  repo_list := [];
  hostname := "github.com";
  output_format := "CSV";
  repo_page_size := 10;
  extra_page_size := 50;
  token_type := "user";
  analyze_repo_conflicts := false;
  analyze_team_conflicts := false;
  token := None
|}.

(** A point in time, counted from [datetime.min]. *)
Definition datetime : Type := N.

(** The handle of a child process. *)
Definition Process : Type := positive.

Record AnalysisJob : Type := {
  job_id : string;
  status : JobStatus;
  config : AnalysisConfig;
  progress : Z;
  message : string;
  results : list dict;
  errors : list string;
  started_at : option datetime;
  completed_at : option datetime;
  output_file : option string;
  current_repo : option string;
  total_repos : Z;
  processed_repos : Z;
  output_lines : list string;
  _process : option Process;
  cancelled : bool
}.

(** [AnalysisJob(job_id=job_id, config=config, status=JobStatus.PENDING)] *)
Definition new_job (id : string) (c : AnalysisConfig) : AnalysisJob := {|
  job_id := id;
  status := PENDING;
  config := c;
  progress := 0;
  message := "";
  results := [];
  errors := [];
  started_at := None;
  completed_at := None;
  output_file := None;
  current_repo := None;
  total_repos := 0;
  processed_repos := 0;
  output_lines := [];
  _process := None;
  cancelled := false
|}.

(** Attribute assignments. *)
Section Setters.
Variable j : AnalysisJob.

Definition set_status (v : JobStatus) : AnalysisJob :=
  Build_AnalysisJob (job_id j) v (config j) (progress j) (message j)
    (results j) (errors j) (started_at j) (completed_at j) (output_file j)
    (current_repo j) (total_repos j) (processed_repos j) (output_lines j)
    (_process j) (cancelled j).

Definition set_progress (v : Z) : AnalysisJob :=
  Build_AnalysisJob (job_id j) (status j) (config j) v (message j)
    (results j) (errors j) (started_at j) (completed_at j) (output_file j)
    (current_repo j) (total_repos j) (processed_repos j) (output_lines j)
    (_process j) (cancelled j).

Definition set_message (v : string) : AnalysisJob :=
  Build_AnalysisJob (job_id j) (status j) (config j) (progress j) v
    (results j) (errors j) (started_at j) (completed_at j) (output_file j)
    (current_repo j) (total_repos j) (processed_repos j) (output_lines j)
    (_process j) (cancelled j).

Definition set_results (v : list dict) : AnalysisJob :=
  Build_AnalysisJob (job_id j) (status j) (config j) (progress j) (message j)
    v (errors j) (started_at j) (completed_at j) (output_file j)
    (current_repo j) (total_repos j) (processed_repos j) (output_lines j)
    (_process j) (cancelled j).

Definition set_errors (v : list string) : AnalysisJob :=
  Build_AnalysisJob (job_id j) (status j) (config j) (progress j) (message j)
    (results j) v (started_at j) (completed_at j) (output_file j)
    (current_repo j) (total_repos j) (processed_repos j) (output_lines j)
    (_process j) (cancelled j).

Definition set_started_at (v : option datetime) : AnalysisJob :=
  Build_AnalysisJob (job_id j) (status j) (config j) (progress j) (message j)
    (results j) (errors j) v (completed_at j) (output_file j)
    (current_repo j) (total_repos j) (processed_repos j) (output_lines j)
    (_process j) (cancelled j).

Definition set_completed_at (v : option datetime) : AnalysisJob :=
  Build_AnalysisJob (job_id j) (status j) (config j) (progress j) (message j)
    (results j) (errors j) (started_at j) v (output_file j)
    (current_repo j) (total_repos j) (processed_repos j) (output_lines j)
    (_process j) (cancelled j).

Definition set_output_file (v : option string) : AnalysisJob :=
  Build_AnalysisJob (job_id j) (status j) (config j) (progress j) (message j)
    (results j) (errors j) (started_at j) (completed_at j) v
    (current_repo j) (total_repos j) (processed_repos j) (output_lines j)
    (_process j) (cancelled j).

Definition set_current_repo (v : option string) : AnalysisJob :=
  Build_AnalysisJob (job_id j) (status j) (config j) (progress j) (message j)
    (results j) (errors j) (started_at j) (completed_at j) (output_file j)
    v (total_repos j) (processed_repos j) (output_lines j)
    (_process j) (cancelled j).

Definition set_total_repos (v : Z) : AnalysisJob :=
  Build_AnalysisJob (job_id j) (status j) (config j) (progress j) (message j)
    (results j) (errors j) (started_at j) (completed_at j) (output_file j)
    (current_repo j) v (processed_repos j) (output_lines j)
    (_process j) (cancelled j).

Definition set_processed_repos (v : Z) : AnalysisJob :=
  Build_AnalysisJob (job_id j) (status j) (config j) (progress j) (message j)
    (results j) (errors j) (started_at j) (completed_at j) (output_file j)
    (current_repo j) (total_repos j) v (output_lines j)
    (_process j) (cancelled j).

Definition set_output_lines (v : list string) : AnalysisJob :=
  Build_AnalysisJob (job_id j) (status j) (config j) (progress j) (message j)
    (results j) (errors j) (started_at j) (completed_at j) (output_file j)
    (current_repo j) (total_repos j) (processed_repos j) v
    (_process j) (cancelled j).

Definition set__process (v : option Process) : AnalysisJob :=
  Build_AnalysisJob (job_id j) (status j) (config j) (progress j) (message j)
    (results j) (errors j) (started_at j) (completed_at j) (output_file j)
    (current_repo j) (total_repos j) (processed_repos j) (output_lines j)
    v (cancelled j).

Definition set_cancelled (v : bool) : AnalysisJob :=
  Build_AnalysisJob (job_id j) (status j) (config j) (progress j) (message j)
    (results j) (errors j) (started_at j) (completed_at j) (output_file j)
    (current_repo j) (total_repos j) (processed_repos j) (output_lines j)
    (_process j) v.
End Setters.

(** ** The registry [_jobs]

    A [dict] from identifier to job, in insertion order. *)

Definition registry : Type := list (string * AnalysisJob).

(** [_jobs[id] = job] *)
Fixpoint store (id : string) (job : AnalysisJob) (reg : registry) : registry :=
  match reg with
  | [] => [(id, job)]
  | (id', job') :: reg' =>
      if String.eqb id id' then (id', job) :: reg'
      else (id', job') :: store id job reg'
  end.

(** [secrets.token_urlsafe(16)] is the argument [fresh]. *)
Definition create_job (fresh : string) (c : AnalysisConfig) (reg : registry)
  : AnalysisJob * registry :=
  let job := new_job fresh c in
  (job, store fresh job reg).

(** [_jobs.get(job_id)] *)
Fixpoint get_job (reg : registry) (id : string) : option AnalysisJob :=
  match reg with
  | [] => None
  | (id', job) :: reg' => if String.eqb id id' then Some job else get_job reg' id
  end.







(** ** Cancellation *)

(** What the calls on the child process do in [cancel_job], lines 211-223. *)
Inductive terminate_outcome : Type :=
| Exited                        (* terminate(), then wait() returns in time *)
| Killed                        (* wait() times out, kill() *)
| AlreadyEnded                  (* ProcessLookupError *)
| TerminateRaised (e : exn).    (* any other exception *)

(** Lines 206-207. *)
Definition request_cancel (j : AnalysisJob) : AnalysisJob :=
  set_message (set_cancelled j true) "Cancelling...".

Definition cancel_job (reg : registry) (id : string) (o : terminate_outcome)
  : (bool * string) * registry :=
  match get_job reg id with
  | None => ((false, "Job not found"), reg)
  | Some job =>
      if negb (status_eqb (status job) RUNNING)
      then ((false, "Job is not running (current status: "
                      ++ status_value (status job) ++ ")"), reg)
      else
        let reg' := store id (request_cancel job) reg in
        match _process job, o with
        | Some _, TerminateRaised e =>
            ((false, "Error terminating process: " ++ str_exn e), reg')
        | _, _ => ((true, "Job cancellation requested"), reg')
        end
  end.

(** ** The stream readers of [run_analysis] *)

(** A block of statements on a job either completes or raises; the job
    object keeps what was assigned before the exception. *)
Inductive outcome : Type :=
| Normal (j : AnalysisJob)
| Raised (e : exn) (j : AnalysisJob).

Definition job_of (o : outcome) : AnalysisJob :=
  match o with Normal j | Raised _ j => j end.

(** [l[-n:]] for a positive [n] *)
Definition last_n {A : Type} (n : nat) (l : list A) : list A :=
  skipn (List.length l - n) l.

(** Lines 335-338 and 377-380: append to the output buffer and keep its
    last 500 lines. *)
Definition append_output (line : string) (j : AnalysisJob) : AnalysisJob :=
  let l := (output_lines j ++ [line])%list in
  set_output_lines j (if (500 <? List.length l)%nat then last_n 500 l else l).

(** [match.group(n)] of a group that took part in the match. *)
Definition group_text (n : nat) (m : captures) : string :=
  match group n m with Some s => s | None => "" end.

(** Lines 348-349 and 365-366. *)
Definition update_progress (j : AnalysisJob) : outcome :=
  if total_repos j >? 0 then
    match percent (processed_repos j) (total_repos j) with
    | inl e => Raised e j
    | inr p => Normal (set_progress j p)
    end
  else Normal j.

(** [job.current_repo or 'fetching...'] *)
Definition repo_or_fetching (j : AnalysisJob) : string :=
  match current_repo j with
  | Some r => if PyText.nonempty r then r else "fetching..."
  | None => "fetching..."
  end.

(** Lines 344-351: the indexed-progress recognizer matched with [m]. *)
Definition on_indexed (m : captures) (j : AnalysisJob) : outcome :=
  let j := set_processed_repos j (PyText.int_of_digits (group_text 1 m)) in
  let j := set_total_repos j (PyText.int_of_digits (group_text 2 m)) in
  let j := match group 3 m with
           | Some g => if PyText.nonempty g
                       then set_current_repo j (Some (PyText.strip g)) else j
           | None => j
           end in
  match update_progress j with
  | Raised e j' => Raised e j'
  | Normal j' =>
      Normal (set_message j'
                ("Processing " ++ PyText.str_int (processed_repos j') ++ "/"
                 ++ PyText.str_int (total_repos j') ++ ": "
                 ++ repo_or_fetching j'))
  end.

(** Lines 356-358: the total-discovery recognizer matched with [m]. *)
Definition on_total (m : captures) (j : AnalysisJob) : outcome :=
  let j := set_total_repos j (PyText.int_of_digits (group_text 1 m)) in
  Normal (set_message j ("Found " ++ PyText.str_int (total_repos j)
                          ++ " repositories to analyze...")).

(** Lines 363-367: the named-item recognizer matched with [m]. *)
Definition on_named (m : captures) (j : AnalysisJob) : outcome :=
  let j := set_current_repo j (Some (group_text 1 m)) in
  let j := set_processed_repos j (processed_repos j + 1) in
  match update_progress j with
  | Raised e j' => Raised e j'
  | Normal j' => Normal (set_message j' ("Analyzing: " ++ group_text 1 m))
  end.

(** Lines 342-367: the progress parsing of one decoded line. *)
Definition parse_progress (decoded : string) (j : AnalysisJob) : outcome :=
  match search repo_pattern decoded with
  | Some m => on_indexed m j
  | None =>
      match search total_pattern decoded with
      | Some m => on_total m j
      | None =>
          match search repo_name_pattern decoded with
          | Some m => on_named m j
          | None => Normal j
          end
      end
  end.

(** Lines 331-367: one turn of the loop of [read_stderr] on the text [raw]
    that decoding the line gave. *)
Definition stderr_line (raw : string) (j : AnalysisJob) : outcome :=
  let decoded := PyText.strip raw in
  let j := if PyText.nonempty decoded then append_output decoded j else j in
  parse_progress decoded j.

(** Lines 375-380: one turn of the loop of [read_stdout]. *)
Definition stdout_line (raw : string) (j : AnalysisJob) : AnalysisJob :=
  let decoded := PyText.strip raw in
  if PyText.nonempty decoded then append_output ("[stdout] " ++ decoded) j
  else j.

(** The diagnostic lines read one after the other, without interruption. *)
Fixpoint read_stderr (lines : list string) (j : AnalysisJob) : outcome :=
  match lines with
  | [] => Normal j
  | raw :: rest =>
      if cancelled j then Normal j
      else match stderr_line raw j with
           | Raised e j' => Raised e j'
           | Normal j' => read_stderr rest j'
           end
  end.

(** What happens while the two readers run and the orchestrator waits
    for the child: a line arrives on one of the two streams, a read
    raises, or a request handler calls [cancel_job] on this job. *)
Inductive event : Type :=
| StderrLine (raw : string)
| StderrRaise (e : exn)
| StdoutLine (raw : string)
| StdoutRaise (e : exn)
| CancelRequest.

(** The local state of the readers: the list [stderr_output] and whether
    [read_stderr] is still in its loop.  The loop tests [job.cancelled]
    before it waits for a line, so a cancellation takes effect after the
    line being waited for. *)
Record readers : Type := { stderr_output : list string; stderr_open : bool }.

Fixpoint run_events (evs : list event) (r : readers) (j : AnalysisJob)
  : outcome * readers :=
  match evs with
  | [] => (Normal j, r)
  | ev :: rest =>
      match ev with
      | StderrLine raw =>
          if stderr_open r then
            let out := (stderr_output r ++ [PyText.strip raw])%list in
            match stderr_line raw j with
            | Raised e j' =>
                (Raised e j', {| stderr_output := out; stderr_open := false |})
            | Normal j' =>
                run_events rest
                  {| stderr_output := out; stderr_open := negb (cancelled j') |}
                  j'
            end
          else run_events rest r j
      | StderrRaise e =>
          if stderr_open r then (Raised e j, r) else run_events rest r j
      | StdoutLine raw => run_events rest r (stdout_line raw j)
      | StdoutRaise e => (Raised e j, r)
      | CancelRequest => run_events rest r (request_cancel j)
      end
  end.

(** ** The orchestrator *)

(** What the environment does during one run. *)
Record run_env : Type := {
  clock_start : datetime;               (* datetime.now() of line 240 *)
  prepare : option exn;                 (* lines 245-256 raise *)
  spawn : exn + Process;                (* create_subprocess_exec *)
  events : list event;                  (* up to the exit of the child *)
  returncode : Z;
  csv_files : list (string * artifact); (* the glob of line 411 *)
  cleanup : option exn;                 (* leaving the with block raises *)
  clock_end : datetime                  (* the last datetime.now() *)
}.

Definition newline : string := String Csv.LF "".

(** Lines 392-398. *)
Definition finish_cancelled (t : datetime) (j : AnalysisJob) : AnalysisJob :=
  let j := set_status j FAILED in
  let j := set_message j "Analysis cancelled by user" in
  let j := set_output_lines j
             (output_lines j ++ [">>> Analysis cancelled by user <<<"])%list in
  let j := set_current_repo j None in
  set_completed_at j (Some t).

(** Lines 400-408. *)
Definition finish_failed (rc : Z) (stderr_output : list string) (t : datetime)
  (j : AnalysisJob) : AnalysisJob :=
  let j := set_status j FAILED in
  let j := set_errors j
             (errors j
              ++ [("Script failed with code " ++ PyText.str_int rc)%string])%list in
  let j := match stderr_output with
           | [] => j
           | _ => set_errors j
                    (errors j ++ [PyText.join newline (last_n 10 stderr_output)])%list
           end in
  let j := set_message j "Analysis failed" in
  let j := set_current_repo j None in
  set_completed_at j (Some t).

(** Lines 411-424. *)
Definition finish_completed (files : list (string * artifact)) (t : datetime)
  (j : AnalysisJob) : AnalysisJob :=
  let j := match files with
           | (path, a) :: _ =>
               let j := set_output_file j (Some path) in
               let j := set_results j (parse_csv_results a) in
               let n := Z.of_nat (List.length (results j)) in
               let j := set_message j
                          ("Analysis complete. Found " ++ PyText.str_int n
                           ++ " repositories.") in
               let j := set_processed_repos j n in
               set_total_repos j n
           | [] => set_message j "Analysis complete but no output file found."
           end in
  let j := set_status j COMPLETED in
  let j := set_progress j 100 in
  let j := set_current_repo j None in
  set_completed_at j (Some t).

(** Lines 386-424, once both readers have returned. *)
Definition finish (env : run_env) (r : readers) (j : AnalysisJob)
  : AnalysisJob :=
  let j := set__process j None in
  if cancelled j then finish_cancelled (clock_end env) j
  else if negb (returncode env =? 0)
       then finish_failed (returncode env) (stderr_output r) (clock_end env) j
       else finish_completed (csv_files env) (clock_end env) j.

(** Lines 245-424, the body of the [try]. *)
Definition supervise (env : run_env) (j : AnalysisJob) : outcome :=
  let body :=
    match prepare env with
    | Some e => Raised e j
    | None =>
        let j := match repo_list (config j) with
                 | [] => j
                 | l => set_total_repos j (Z.of_nat (List.length l))
                 end in
        let j := set_message j
                   ("Running analysis on "
                    ++ PyText.join ", " (organizations (config j)) ++ "...") in
        match spawn env with
        | inl e => Raised e j
        | inr p =>
            let j := set__process j (Some p) in
            let r := {| stderr_output := [];
                        stderr_open := negb (cancelled j) |} in
            match run_events (events env) r j with
            | (Raised e j', _) => Raised e j'
            | (Normal j', r') => Normal (finish env r' j')
            end
        end
    end in
  match cleanup env with
  | Some e => Raised e (job_of body)
  | None => body
  end.

(** Lines 426-431, the [except Exception] clause. *)
Definition on_exception (e : exn) (t : datetime) (j : AnalysisJob)
  : AnalysisJob :=
  let j := set_status j FAILED in
  let j := set_errors j (errors j ++ [str_exn e])%list in
  let j := set_message j ("Analysis failed: " ++ str_exn e) in
  let j := set_current_repo j None in
  set_completed_at j (Some t).

(** Lines 239-431 on the job object. *)
Definition run_job (env : run_env) (j : AnalysisJob) : AnalysisJob :=
  let j := set_status j RUNNING in
  let j := set_started_at j (Some (clock_start env)) in
  let j := set_message j "Starting analysis..." in
  match supervise env j with
  | Normal j' => j'
  | Raised e j' => on_exception e (clock_end env) j'
  end.

Definition run_analysis (env : run_env) (id : string) (reg : registry)
  : registry :=
  match get_job reg id with
  | None => reg
  | Some job => store id (run_job env job) reg
  end.

(** ** Rounding to nearest, ties to even, specified on integers

    Every finite binary64 number is a multiple of 2^-1074: scaled by
    2^1074 it is an integer, its fixed-point image.  The functions below
    state on integers what the floating-point operations compute on these
    images. *)

(** The scale of the fixed-point image. *)
Definition fix_scale : Z := 1074.

(** The integer nearest to [a / d], the even one when two are as near. *)
Definition rne (a d : Z) : Z :=
  let q := a / d in
  match 2 * (a mod d) ?= d with
  | Lt => q
  | Eq => if Z.even q then q else q + 1
  | Gt => q + 1
  end.

(** The exponent, counted from -1074, of the last bit kept when [a / b]
    (a fixed-point image) is rounded to 53 bits. *)
Definition grid (a b : Z) : Z := Z.max (Zdigits2 (a / b) - 53) 0.

(** The fixed-point image of the binary64 number nearest to the number
    whose fixed-point image is [a / b]. *)
Definition rnd (a b : Z) : Z :=
  rne a (b * 2 ^ grid a b) * 2 ^ grid a b.

(** The fixed-point image of a non-negative finite float. *)
Definition fix_value (f : spec_float) : option Z :=
  match f with
  | S754_zero _ => Some 0
  | S754_finite false m e =>
      if -1074 <=? e then Some (Zpos m * 2 ^ (e + fix_scale)) else None
  | _ => None
  end.

(** Where the remainder [r] of a division by [d] lies in its unit
    interval. *)
Definition loc_of (r d : Z) : location :=
  if r =? 0 then loc_Exact else loc_Inexact (2 * r ?= d).

(** The quotient of [a] by [d] together with the place of the remainder. *)
Definition rec_of (a d : Z) : shr_record :=
  shr_record_of_loc (a / d) (loc_of (a mod d) d).

(** The percentage as the integer arithmetic it amounts to: the quotient
    rounded to binary64, its product by 100 rounded again, truncated. *)
Definition percent_spec (processed total : Z) : Z :=
  rnd (100 * rnd (processed * 2 ^ fix_scale) total) 1 / 2 ^ fix_scale.

(** ** Notions used to state the course of the progress field *)

(** Whether the progress parsing of a line reaches one of the two places
    where the percentage is recomputed (lines 348 and 365). *)
Definition recomputes (decoded : string) : bool :=
  match search repo_pattern decoded with
  | Some _ => true
  | None =>
      match search total_pattern decoded with
      | Some _ => false
      | None =>
          match search repo_name_pattern decoded with
          | Some _ => true
          | None => false
          end
      end
  end.

(** The values the progress field takes, line after line, while
    [read_stderr] runs. *)
Fixpoint progress_trace (lines : list string) (j : AnalysisJob) : list Z :=
  match lines with
  | [] => []
  | raw :: rest =>
      if cancelled j then []
      else match stderr_line raw j with
           | Raised _ j' => [progress j']
           | Normal j' => progress j' :: progress_trace rest j'
           end
  end.

(** Each time the percentage is recomputed, the processed count does not
    exceed the total. *)
Fixpoint within_total (lines : list string) (j : AnalysisJob) : Prop :=
  match lines with
  | [] => True
  | raw :: rest =>
      cancelled j = false ->
      let j' := job_of (stderr_line raw j) in
      (recomputes (PyText.strip raw) = true -> 0 < total_repos j' ->
       processed_repos j' <= total_repos j')
      /\ within_total rest j'
  end.

(** Each time the percentage is recomputed, the ratio of the processed
    count to the total is at least the ratio [n0 / m0] of the previous
    time. *)
Fixpoint ratio_nondecreasing (lines : list string) (j : AnalysisJob)
  (n0 m0 : Z) : Prop :=
  match lines with
  | [] => True
  | raw :: rest =>
      cancelled j = false ->
      let j' := job_of (stderr_line raw j) in
      if recomputes (PyText.strip raw) && (0 <? total_repos j')
      then n0 * total_repos j' <= processed_repos j' * m0
           /\ ratio_nondecreasing rest j' (processed_repos j') (total_repos j')
      else ratio_nondecreasing rest j' n0 m0
  end.

(** ** Notions used to state the round trip of the result table *)


Definition is_numeric_field (f : string) : bool :=
  existsb (String.eqb f) numeric_fields.

Definition is_bool_field (f : string) : bool :=
  existsb (String.eqb f) bool_fields.










(** Whether every character of a text passes a test. *)
Fixpoint string_forall (test : ascii -> bool) (s : string) : bool :=
  match s with
  | EmptyString => true
  | String c s' => test c && string_forall test s'
  end.



(** ** Notions used to state what a run leaves alone *)

(** The fields that neither reader nor [cancel_job] assigns. *)
Definition reader_frame (a b : AnalysisJob) : Prop :=
  job_id a = job_id b /\ status a = status b /\ config a = config b
  /\ results a = results b /\ errors a = errors b
  /\ started_at a = started_at b /\ completed_at a = completed_at b
  /\ output_file a = output_file b /\ _process a = _process b.

(** The fields that follow the progress of the child. *)
Definition tracking (j : AnalysisJob) : Z * Z * Z * option string :=
  (progress j, processed_repos j, total_repos j, current_repo j).

(** ** Notions used to state the types of the ingested rows *)

(** Every value filed under a [str] key passes the test. *)
Definition entries (test : value -> bool) (d : dict) : Prop :=
  forall k v, In (Some k, v) d -> test v = true.

Definition is_str (v : value) : bool :=
  match v with VStr _ => true | _ => false end.



Definition is_str_or_int (v : value) : bool :=
  match v with VStr _ | VInt _ => true | _ => false end.


(** What a recognized boolean field holds after ingestion. *)
Definition bool_outcome (v : option value) : Prop :=
  match v with
  | None | Some (VBool _) => True
  | _ => False
  end.

(** ** Notions used to state what the recognizers read *)




(** ** Summary statistics *)

(** The code points of [c.upper()]: the sharp s gives two letters, and the
    micro sign and the y with diaeresis leave the range of [ascii]. *)
Definition upper_points (c : ascii) : list N :=
  let n := PyText.code c in
  if ((97 <=? n) && (n <=? 122)
      || (224 <=? n) && (n <=? 254) && negb (n =? 247))%N
  then [(n - 32)%N]
  else if (n =? 181)%N then [924%N]
  else if (n =? 223)%N then [83%N; 83%N]
  else if (n =? 255)%N then [376%N]
  else [n].

(** The code points of [s.upper()]. *)
Fixpoint upper (s : string) : list N :=
  match s with
  | EmptyString => []
  | String c s' => (upper_points c ++ upper s')%list
  end.

Definition points (s : string) : list N :=
  map PyText.code (list_ascii_of_string s).

Definition points_eqb (a b : list N) : bool :=
  if list_eq_dec N.eq_dec a b then true else false.

(** [round(x)] for a float: the nearest integer, the even one when two
    are as near. *)
Definition round_float (x : spec_float) : exn + Z :=
  match x with
  | S754_zero _ => inr 0
  | S754_infinity _ =>
      inl (OverflowError "cannot convert float infinity to integer")
  | S754_nan => inl (ValueError "cannot convert float NaN to integer")
  | S754_finite s m e =>
      let a := if 0 <=? e then Zpos m * 2 ^ e else rne (Zpos m) (2 ^ (- e)) in
      inr (if s then - a else a)
  end.

(** [acc + (r.get(k, 0) or 0)] for an [int] [acc]. *)
Definition add_field (k : string) (acc : Z) (r : dict) : exn + Z :=
  match dict_get (Some k) r with
  | None => inr acc
  | Some v =>
      if truthy v then
        match v with
        | VInt n => inr (acc + n)
        | VBool b => inr (acc + (if b then 1 else 0))
        | _ => inl (TypeError ("unsupported operand type(s) for +: 'int' and '"
                               ++ type_name v ++ "'"))
        end
      else inr acc
  end.

(** [sum(r.get(k, 0) or 0 for r in results)], from the running total
    [acc]. *)
Fixpoint sum_field (k : string) (results : list dict) (acc : Z) : exn + Z :=
  match results with
  | [] => inr acc
  | r :: rest =>
      match add_field k acc r with
      | inl e => inl e
      | inr acc' => sum_field k rest acc'
      end
  end.

(** [sum(1 for r in results if test(r))], from the running count [acc]. *)
Fixpoint count_if (test : dict -> exn + bool) (results : list dict) (acc : Z)
  : exn + Z :=
  match results with
  | [] => inr acc
  | r :: rest =>
      match test r with
      | inl e => inl e
      | inr b => count_if test rest (if b then acc + 1 else acc)
      end
  end.

(** [r.get("Migration_Issue", "").upper() == "TRUE"] *)
Definition has_migration_issue (r : dict) : exn + bool :=
  match dict_get (Some "Migration_Issue") r with
  | None => inr false
  | Some (VStr s) => inr (points_eqb (upper s) (points "TRUE"))
  | Some v =>
      inl (AttributeError ("'" ++ type_name v
                           ++ "' object has no attribute 'upper'"))
  end.

(** [r.get(k, False)] as a condition. *)
Definition flag (k : string) (r : dict) : exn + bool :=
  match dict_get (Some k) r with
  | None => inr false
  | Some v => inr (truthy v)
  end.

Module Summary.
Record t : Type := {
  total_repos : Z;
  total_size_mb : Z;
  repos_with_issues : Z;
  avg_record_count : Z;
  empty_repos : Z;
  archived_repos : Z;
  forked_repos : Z;
  total_prs : Z;
  total_issues : Z
}.
End Summary.

(** [round(total_records / n)] *)
Definition average (total_records n : Z) : exn + Z :=
  match PyFloat.int_truediv total_records n with
  | inl e => inl e
  | inr q => round_float q
  end.

Definition calculate_summary (results : list dict) : exn + Summary.t :=
  match results with
  | [] => inr {| Summary.total_repos := 0; Summary.total_size_mb := 0;
                 Summary.repos_with_issues := 0;
                 Summary.avg_record_count := 0; Summary.empty_repos := 0;
                 Summary.archived_repos := 0; Summary.forked_repos := 0;
                 Summary.total_prs := 0; Summary.total_issues := 0 |}
  | _ =>
      match sum_field "Repo_Size(mb)" results 0 with
      | inl e => inl e
      | inr total_size =>
      match sum_field "Record_Count" results 0 with
      | inl e => inl e
      | inr total_records =>
      match count_if has_migration_issue results 0 with
      | inl e => inl e
      | inr migration_issues =>
      match count_if (flag "Is_Empty") results 0 with
      | inl e => inl e
      | inr empty_repos =>
      match count_if (flag "isArchived") results 0 with
      | inl e => inl e
      | inr archived_repos =>
      match count_if (flag "isFork") results 0 with
      | inl e => inl e
      | inr forked_repos =>
      match sum_field "PR_Count" results 0 with
      | inl e => inl e
      | inr total_prs =>
      match sum_field "Issue_Count" results 0 with
      | inl e => inl e
      | inr total_issues =>
      match average total_records (Z.of_nat (List.length results)) with
      | inl e => inl e
      | inr avg =>
          inr {| Summary.total_repos := Z.of_nat (List.length results);
                 Summary.total_size_mb := total_size;
                 Summary.repos_with_issues := migration_issues;
                 Summary.avg_record_count := avg;
                 Summary.empty_repos := empty_repos;
                 Summary.archived_repos := archived_repos;
                 Summary.forked_repos := forked_repos;
                 Summary.total_prs := total_prs;
                 Summary.total_issues := total_issues |}
      end end end end end end end end end
  end.

(** The first two records of [SAMPLE_DATA], with the fields the summary
    reads. *)
Definition sample_rows : list dict :=
  [ [ (Some "Repo_Name", VStr "sample-repo-1"); (Some "Is_Empty", VBool false);
      (Some "isFork", VBool false); (Some "isArchived", VBool false);
      (Some "Repo_Size(mb)", VInt 25); (Some "Record_Count", VInt 1500);
      (Some "Issue_Count", VInt 120); (Some "PR_Count", VInt 85);
      (Some "Migration_Issue", VStr "FALSE") ];
    [ (Some "Repo_Name", VStr "sample-repo-2"); (Some "Is_Empty", VBool false);
      (Some "isFork", VBool true); (Some "isArchived", VBool false);
      (Some "Repo_Size(mb)", VInt 150); (Some "Record_Count", VInt 65000);
      (Some "Issue_Count", VInt 500); (Some "PR_Count", VInt 350);
      (Some "Migration_Issue", VStr "TRUE") ] ].

(** ** Notions used to state when the summary can be computed *)

(** The fields the summary adds up. *)
Definition summed_fields : list string :=
  ["Repo_Size(mb)"; "Record_Count"; "PR_Count"; "Issue_Count"].

(** What [add_field] accepts: nothing, a number, or something falsy. *)
Definition summable (v : option value) : bool :=
  match v with
  | None => true
  | Some (VInt _) | Some (VBool _) => true
  | Some v => negb (truthy v)
  end.

(** The number [add_field] adds for a value. *)
Definition number_of (v : option value) : Z :=
  match v with
  | Some (VInt n) => n
  | Some (VBool true) => 1
  | _ => 0
  end.

(** The sum of the numbers under the key [k]. *)
Definition field_total (k : string) (results : list dict) : Z :=
  fold_right (fun r acc => number_of (dict_get (Some k) r) + acc) 0 results.

Definition text_or_absent (v : option value) : bool :=
  match v with
  | None | Some (VStr _) => true
  | _ => false
  end.

(** Whether [r.get(k, False)] is truthy. *)
Definition flag_set (k : string) (r : dict) : bool :=
  match dict_get (Some k) r with
  | None => false
  | Some v => truthy v
  end.

(** Whether the record is marked with a migration issue: its
    [Migration_Issue] is a text that reads [TRUE] in upper case. *)
Definition issue_marked (r : dict) : bool :=
  match dict_get (Some "Migration_Issue") r with
  | Some (VStr s) => points_eqb (upper s) (points "TRUE")
  | _ => false
  end.

(** The number of records that pass a test. *)
Definition count_of (test : dict -> bool) (results : list dict) : Z :=
  Z.of_nat (List.length (filter test results)).

(** A table the summary can be computed from: in every record the four
    summed fields are absent, numbers or falsy, and [Migration_Issue] is
    absent or a text. *)
Definition summable_table (results : list dict) : Prop :=
  Forall (fun r =>
            forallb (fun k => summable (dict_get (Some k) r)) summed_fields
            = true
            /\ text_or_absent (dict_get (Some "Migration_Issue") r) = true)
         results.

(** ** The routes that start and cancel a job

    A shallow embedding of [api_analyze] and [api_cancel] of
    [src/ui/routes.py], for requests whose form fields are all text: an
    uploaded file is outside the model. *)

(** [s.replace(",", "\n")] *)
Fixpoint replace_commas (s : string) : string :=
  match s with
  | EmptyString => EmptyString
  | String c s' =>
      String (if Ascii.eqb c "," then Csv.LF else c) (replace_commas s')
  end.

(** [s.split("\n")], with [cur] the piece being read. *)
Fixpoint split_newlines (s : string) (cur : string) : list string :=
  match s with
  | EmptyString => [cur]
  | String c s' =>
      if Ascii.eqb c Csv.LF then cur :: split_newlines s' ""
      else split_newlines s' (Csv.snoc cur c)
  end.

(** [[x.strip() for x in s.replace(",", "\n").split("\n") if x.strip()]],
    the comprehension of lines 261-265 and 288-292. *)
Definition parse_names (s : string) : list string :=
  filter PyText.nonempty
         (map PyText.strip (split_newlines (replace_commas s) "")).






(** A [JSONResponse] whose content is an object. *)
Record JSONResponse : Type := {
  content : list (string * value);
  status_code : Z
}.


(** [needle in hay] for two texts. *)
Fixpoint starts_with (needle hay : string) : bool :=
  match needle, hay with
  | EmptyString, _ => true
  | String a n', String b h' => Ascii.eqb a b && starts_with n' h'
  | String _ _, EmptyString => false
  end.

Fixpoint is_in (needle hay : string) : bool :=
  starts_with needle hay
  || match hay with
     | EmptyString => false
     | String _ h' => is_in needle h'
     end.

(** [api_cancel] *)
Definition api_cancel (id : string) (o : terminate_outcome) (reg : registry)
  : JSONResponse * registry :=
  let '((success, message), reg') := cancel_job reg id o in
  if success
  then ({| content := [("success", VBool true); ("message", VStr message)];
           status_code := 200 |}, reg')
  else ({| content := [("success", VBool false); ("error", VStr message)];
           status_code := if is_in "not running" (PyText.lower message)
                          then 400 else 404 |}, reg').

(** A name that [parse_names] gives back as it is: not empty, without
    white space at either end, without a comma. *)
Definition clean_name (s : string) : bool :=
  PyText.nonempty s && String.eqb (PyText.strip s) s
  && string_forall (fun c => negb (Ascii.eqb c ",")) s
  && string_forall (fun c => negb (Ascii.eqb c Csv.LF)) s.

(** ** Sample inputs *)


(** A freshly created job for one organization. *)
Definition sample_job : AnalysisJob :=
  new_job "k1" {| organizations := ["acme"];
                  repo_list := [];
                  hostname := "github.com";
                  output_format := "CSV";
                  repo_page_size := 10;
                  extra_page_size := 50;
                  token_type := "user";
                  analyze_repo_conflicts := false;
                  analyze_team_conflicts := false;
                  token := None |}.

(** The diagnostic line [Processing 1000...0/1] with 400 zeros. *)
Definition overflow_line : string :=
  "Processing 1" ++ string_of_list_ascii (repeat "0"%char 400) ++ "/1".

(** A run whose child is launched with handle 1 and prints
    [overflow_line] on its diagnostic stream. *)
Definition overflow_env : run_env := {|
  clock_start := 1000%N;
  prepare := None;
  spawn := inr 1%positive;
  events := [StderrLine overflow_line];
  returncode := 0;
  csv_files := [];
  cleanup := None;
  clock_end := 2000%N
|}.

(** A registry with a job started at time 7 and a job not started yet. *)
Definition two_jobs : registry :=
  [ ("k1", set_started_at (set_status (new_job "k1" default_config) RUNNING)
             (Some 7%N));
    ("k2", new_job "k2" default_config) ].


(** An artifact whose second data row lacks the [isFork] cell. *)
Definition short_row_text : string :=
  "Repo_Name,isFork" ++ Csv.lineterminator
  ++ "a,true" ++ Csv.lineterminator
  ++ "b" ++ Csv.lineterminator.

Definition short_row_artifact : artifact :=
  inr (Csv.file_of_text short_row_text).


(** The job [sample_job] once it is running. *)
Definition running_job : AnalysisJob := set_status sample_job RUNNING.

(** Diagnostic lines that count two items against a total of one. *)
Definition past_total_lines : list string :=
  ["Found 1 repositories to analyze"; "Analyzing alpha"; "Analyzing beta"].

(** Diagnostic lines whose second indexed count is below the first. *)
Definition falling_lines : list string :=
  ["Processing 5/10: alpha"; "Processing 2/10: beta"].

(** Diagnostic lines of an orderly run over three items. *)
Definition orderly_lines : list string :=
  ["Found 3 repositories to analyze"; "Analyzing alpha";
   "Processing 2/3: beta"; "rate limit ok"; "Analyzing gamma"].

(** * Properties *)

(** ** Cancellation of a job that is absent or not running *)

Lemma status_eqb_spec (a b : JobStatus) : status_eqb a b = true <-> a = b.
Proof. destruct a, b; simpl; split; congruence. Qed.

(** C10: for an identifier that is not in the registry, [cancel_job]
    returns the failure [(False, "Job not found")], raises nothing and
    leaves the registry, hence every job record, as it was, whatever the
    child-process calls would have done. *)
Theorem cancel_job_not_found (reg : registry) (id : string)
  (o : terminate_outcome) :
  get_job reg id = None ->
  cancel_job reg id o = ((false, "Job not found"), reg).
Proof. intros H. unfold cancel_job. now rewrite H. Qed.

Lemma cancel_job_not_found_witness :
  get_job [("k1", new_job "k1" default_config)] "k2" = None
  /\ cancel_job [("k1", new_job "k1" default_config)] "k2" Killed
     = ((false, "Job not found"), [("k1", new_job "k1" default_config)]).
Proof.
  split; [reflexivity | apply cancel_job_not_found; reflexivity].
Defined.

(** C6: for a job whose status is not [RUNNING], [cancel_job] returns a
    failure whose message says the job is not running and names its
    status, and the registry it leaves is the one it was given: no field of
    any record changes. *)
Theorem cancel_job_not_running (reg : registry) (id : string)
  (job : AnalysisJob) (o : terminate_outcome) :
  get_job reg id = Some job ->
  status job <> RUNNING ->
  cancel_job reg id o
  = ((false, "Job is not running (current status: "
               ++ status_value (status job) ++ ")"), reg).
Proof.
  intros Hget Hst. unfold cancel_job. rewrite Hget.
  destruct (status_eqb (status job) RUNNING) eqn:E; [|reflexivity].
  apply status_eqb_spec in E. contradiction.
Qed.

Lemma cancel_job_not_running_witness :
  cancel_job [("k1", set_status (new_job "k1" default_config) COMPLETED)]
    "k1" (TerminateRaised (OSError "boom"))
  = ((false, "Job is not running (current status: completed)"),
     [("k1", set_status (new_job "k1" default_config) COMPLETED)]).
Proof.
  apply (cancel_job_not_running
           [("k1", set_status (new_job "k1" default_config) COMPLETED)] "k1"
           (set_status (new_job "k1" default_config) COMPLETED));
    [reflexivity | discriminate].
Defined.

(** The three possible non-running statuses, spelled out. *)
Lemma not_running_cases (s : JobStatus) :
  s <> RUNNING <-> s = PENDING \/ s = COMPLETED \/ s = FAILED.
Proof.
  destruct s; split; intros H; try congruence; auto;
    destruct H as [H|[H|H]]; discriminate.
Qed.

(** ** The order of the recognizers *)


(** On [crowded_line], which all three recognizers match, only the
    indexed-progress update is applied (the total stays 10 and the count is
    3, not 1). *)


(** ** Terminal transitions and the child-process handle *)

(** The three transitions taken after the child has exited (cancellation,
    non-zero exit, zero exit) clear the handle and the current item. *)
Lemma finish_clears_handle (env : run_env) (r : readers) (j : AnalysisJob) :
  _process (finish env r j) = None
  /\ current_repo (finish env r j) = None
  /\ (status (finish env r j) = FAILED \/ status (finish env r j) = COMPLETED).
Proof.
  unfold finish.
  destruct (cancelled (set__process j None)); [simpl; auto|].
  destruct (negb (returncode env =? 0)).
  - unfold finish_failed. destruct (stderr_output r); simpl; auto.
  - unfold finish_completed. destruct (csv_files env) as [|[path a] fs];
      simpl; auto.
Qed.

(** The [except] clause clears the current item, marks the job failed and
    does not assign the handle. *)
Lemma on_exception_fields (e : exn) (t : datetime) (j : AnalysisJob) :
  status (on_exception e t j) = FAILED
  /\ current_repo (on_exception e t j) = None
  /\ completed_at (on_exception e t j) = Some t
  /\ _process (on_exception e t j) = _process j.
Proof. unfold on_exception; simpl; auto. Qed.

Lemma update_progress_process (j : AnalysisJob) :
  _process (job_of (update_progress j)) = _process j.
Proof.
  unfold update_progress. destruct (total_repos j >? 0); [|reflexivity].
  destruct (percent _ _); reflexivity.
Qed.

Lemma parse_progress_process (d : string) (j : AnalysisJob) :
  _process (job_of (parse_progress d j)) = _process j.
Proof.
  unfold parse_progress.
  destruct (search repo_pattern d) as [m|].
  { unfold on_indexed.
    match goal with |- context [update_progress ?x] =>
      pose proof (update_progress_process x) as H;
      destruct (update_progress x) end.
    - simpl in *. rewrite H. destruct (group 3 m) as [g|]; [|reflexivity].
      destruct (PyText.nonempty g); reflexivity.
    - simpl in *. rewrite H. destruct (group 3 m) as [g|]; [|reflexivity].
      destruct (PyText.nonempty g); reflexivity. }
  destruct (search total_pattern d) as [m|]; [reflexivity|].
  destruct (search repo_name_pattern d) as [m|]; [|reflexivity].
  unfold on_named.
  match goal with |- context [update_progress ?x] =>
    pose proof (update_progress_process x) as H;
    destruct (update_progress x) end; simpl in *; rewrite H; reflexivity.
Qed.

Lemma stderr_line_process (raw : string) (j : AnalysisJob) :
  _process (job_of (stderr_line raw j)) = _process j.
Proof.
  unfold stderr_line. rewrite parse_progress_process.
  destruct (PyText.nonempty (PyText.strip raw)); reflexivity.
Qed.

Lemma stdout_line_process (raw : string) (j : AnalysisJob) :
  _process (stdout_line raw j) = _process j.
Proof.
  unfold stdout_line. destruct (PyText.nonempty (PyText.strip raw));
    reflexivity.
Qed.

(** Neither reader nor a cancellation request assigns the handle. *)
Lemma run_events_process (evs : list event) :
  forall r j, _process (job_of (fst (run_events evs r j))) = _process j.
Proof.
  induction evs as [|ev evs IH]; intros r j; [reflexivity|].
  destruct ev; simpl.
  - destruct (stderr_open r); [|apply IH].
    pose proof (stderr_line_process raw j) as H.
    destruct (stderr_line raw j) as [j'|e j']; simpl in *.
    + rewrite IH. exact H.
    + exact H.
  - destruct (stderr_open r); [reflexivity | apply IH].
  - rewrite IH. apply stdout_line_process.
  - reflexivity.
  - rewrite IH. reflexivity.
Qed.

(** Whenever an exception is raised while the readers run, the job ends
    [FAILED] with its current item cleared and its handle still set. *)
Lemma raise_while_reading_keeps_handle (env : run_env) (j : AnalysisJob)
  (p : Process) :
  prepare env = None ->
  spawn env = inr p ->
  cleanup env = None ->
  (forall r j0, exists e j1 r1,
      run_events (events env) r j0 = (Raised e j1, r1)) ->
  status (run_job env j) = FAILED
  /\ current_repo (run_job env j) = None
  /\ _process (run_job env j) = Some p.
Proof.
  intros Hp Hs Hc Hr. unfold run_job, supervise. rewrite Hp, Hs, Hc.
  match goal with |- context [run_events ?evs ?r ?x] =>
    destruct (Hr r x) as (e & j1 & r1 & E);
    pose proof (run_events_process evs r x) as P; rewrite E in * end.
  simpl in P. cbv beta iota.
  destruct (on_exception_fields e (clock_end env) j1) as (A & B & _ & D).
  split; [exact A|]. split; [exact B|].
  rewrite D, P. destruct (repo_list (config j)); reflexivity.
Qed.

(** C1, the unexpected-exception path of [run_analysis]: on the run
    [overflow_env], whose child prints a progress line with a count too
    large for a float, the job ends [FAILED] with its current item cleared
    but with the child-process handle still set, so the handle is non-null
    although the status is not [RUNNING]. *)
Theorem exception_path_keeps_process_handle :
  status (run_job overflow_env sample_job) = FAILED
  /\ current_repo (run_job overflow_env sample_job) = None
  /\ _process (run_job overflow_env sample_job) = Some 1%positive
  /\ errors (run_job overflow_env sample_job)
     = ["integer division result too large for a float"].
Proof. vm_compute. repeat split. Qed.

(** ** The indexed-progress update *)

(** What the indexed-progress update assigns: the two counts, the name
    when one was captured, and the percentage when the total is positive. *)
Lemma on_indexed_fields (m : captures) (j : AnalysisJob) :
  let j' := job_of (on_indexed m j) in
  processed_repos j' = PyText.int_of_digits (group_text 1 m)
  /\ total_repos j' = PyText.int_of_digits (group_text 2 m)
  /\ (forall g, group 3 m = Some g -> PyText.nonempty g = true ->
                current_repo j' = Some (PyText.strip g))
  /\ (group 3 m = None -> current_repo j' = current_repo j)
  /\ (0 < PyText.int_of_digits (group_text 2 m) ->
      forall p, percent (PyText.int_of_digits (group_text 1 m))
                  (PyText.int_of_digits (group_text 2 m)) = inr p ->
                progress j' = p).
Proof.
  unfold on_indexed, update_progress. cbv zeta.
  set (N := PyText.int_of_digits (group_text 1 m)).
  set (M := PyText.int_of_digits (group_text 2 m)).
  assert (T : forall x y, total_repos (match group 3 m with
            | Some g => if PyText.nonempty g
                        then set_current_repo (set_total_repos (set_processed_repos j x) y) (Some (PyText.strip g))
                        else set_total_repos (set_processed_repos j x) y
            | None => set_total_repos (set_processed_repos j x) y end) = y).
  { intros. destruct (group 3 m) as [g|]; [destruct (PyText.nonempty g)|];
      reflexivity. }
  assert (P : forall x y, processed_repos (match group 3 m with
            | Some g => if PyText.nonempty g
                        then set_current_repo (set_total_repos (set_processed_repos j x) y) (Some (PyText.strip g))
                        else set_total_repos (set_processed_repos j x) y
            | None => set_total_repos (set_processed_repos j x) y end) = x).
  { intros. destruct (group 3 m) as [g|]; [destruct (PyText.nonempty g)|];
      reflexivity. }
  rewrite T, P.
  destruct (M >? 0) eqn:EM.
  - destruct (percent N M) as [e|p] eqn:EP; simpl; rewrite ?T, ?P;
      repeat split; auto.
    + intros g Hg Hn. rewrite Hg, Hn. reflexivity.
    + intros Hg. rewrite Hg. reflexivity.
    + intros _ p' Hp. discriminate.
    + intros g Hg Hn. rewrite Hg, Hn. reflexivity.
    + intros Hg. rewrite Hg. reflexivity.
    + intros _ p' Hp. congruence.
  - simpl; rewrite ?T, ?P; repeat split; auto.
    + intros g Hg Hn. rewrite Hg, Hn. reflexivity.
    + intros Hg. rewrite Hg. reflexivity.
    + intros HM. rewrite Z.gtb_ltb in EM. apply Z.ltb_ge in EM. lia.
Qed.

(** The example of the specification: [Processing 3/10: widget-repo]. *)
Lemma indexed_progress_3_of_10 :
  let j := job_of (stderr_line "Processing 3/10: widget-repo" sample_job) in
  processed_repos j = 3 /\ total_repos j = 10
  /\ current_repo j = Some "widget-repo" /\ progress j = 30
  /\ message j = "Processing 3/10: widget-repo".
Proof. vm_compute. repeat split. Qed.

(** C5 at [Processing 29/100: widget-repo]: the counts and the name are
    assigned as the claim says, but the progress assigned is 28, where
    floor(29 * 100 / 100) is 29: the quotient 29/100 is rounded to a float
    below 0.29 before it is multiplied by 100 and truncated. *)
Theorem indexed_progress_29_of_100 :
  let j := job_of (stderr_line "Processing 29/100: widget-repo" sample_job) in
  processed_repos j = 29 /\ total_repos j = 100
  /\ current_repo j = Some "widget-repo"
  /\ progress j = 28
  /\ 29 * 100 / 100 = 29.
Proof. vm_compute. repeat split. Qed.

(** ** Listing recent jobs *)











(** ** Errors while parsing the artifact *)

(** The rows appended before the loop stops are the conversions of a
    prefix of the rows read; the loop stops early exactly at a row whose
    conversion raises. *)
Lemma convert_rows_prefix (rows : list dict) (tail : option exn) :
  exists k : nat,
    (k <= List.length rows)%nat
    /\ Forall2 (fun row r => convert_row row = inr r)
         (firstn k rows) (fst (convert_rows rows tail))
    /\ (k = List.length rows -> snd (convert_rows rows tail) = tail)
    /\ ((k < List.length rows)%nat ->
        exists row e, nth_error rows k = Some row
                      /\ convert_row row = inl e
                      /\ snd (convert_rows rows tail) = Some e).
Proof.
  induction rows as [|row rows IH]; simpl.
  - exists 0%nat. split; [lia|]. split; [constructor|].
    split; [reflexivity | lia].
  - destruct (convert_row row) as [e|r] eqn:E.
    + exists 0%nat. simpl. split; [lia|]. split; [constructor|].
      split; [discriminate|]. intros _. exists row, e. auto.
    + destruct IH as (k & Hk & HF & Hend & Herr).
      destruct (convert_rows rows tail) as [rs e'] eqn:E'.
      exists (S k). simpl in *. split; [lia|].
      split; [constructor; assumption|].
      split.
      * intros H. apply Hend. lia.
      * intros H. destruct Herr as (row' & e & A & B & C); [lia|].
        exists row', e. auto.
Qed.

(** C4, as the code has it: [parse_csv_results] never propagates an error;
    it returns the records of the rows converted before the error.  That
    is the empty sequence when the artifact cannot be opened; otherwise it
    is the conversion of the first [k] rows read, where row [k] is the
    first one whose conversion raises, or [k] is the number of rows
    delivered before the reader stopped or raised. *)
Theorem parse_csv_results_keeps_converted_rows (a : artifact) :
  (forall e, a = inl e -> parse_csv_results a = [])
  /\ (forall f rows tail,
        a = inr f -> Csv.dict_reader f = (rows, tail) ->
        exists k : nat,
          (k <= List.length rows)%nat
          /\ Forall2 (fun row r => convert_row row = inr r)
               (firstn k rows) (parse_csv_results a)
          /\ (k = List.length rows -> snd (parse_csv_run a) = tail)
          /\ ((k < List.length rows)%nat ->
              exists row e, nth_error rows k = Some row
                            /\ convert_row row = inl e
                            /\ snd (parse_csv_run a) = Some e)).
Proof.
  split.
  - intros e ->. reflexivity.
  - intros f rows tail -> Hr.
    unfold parse_csv_results, parse_csv_run. rewrite Hr.
    apply convert_rows_prefix.
Qed.

Lemma parse_csv_results_keeps_converted_rows_witness :
  parse_csv_results (inl (OSError "No such file or directory")) = []
  /\ exists k : nat,
      Forall2 (fun row r => convert_row row = inr r)
        (firstn k [ [(Some "Repo_Name", VStr "a"); (Some "isFork", VStr "true")];
                    [(Some "Repo_Name", VStr "b"); (Some "isFork", VNone)] ])
        (parse_csv_results short_row_artifact).
Proof.
  split.
  - apply (proj1 (parse_csv_results_keeps_converted_rows
                    (inl (OSError "No such file or directory")))
             (OSError "No such file or directory")).
    reflexivity.
  - destruct (proj2 (parse_csv_results_keeps_converted_rows short_row_artifact)
                (Csv.file_of_text short_row_text)
                [ [(Some "Repo_Name", VStr "a"); (Some "isFork", VStr "true")];
                  [(Some "Repo_Name", VStr "b"); (Some "isFork", VNone)] ]
                None eq_refl eq_refl) as (k & _ & H & _).
    exists k. exact H.
Defined.

(** On [short_row_artifact] the conversion of the second row raises, the
    error is swallowed, and the first row is returned all the same: the
    result is not the empty sequence. *)
Lemma parse_csv_results_error_not_empty :
  snd (parse_csv_run short_row_artifact)
  = Some (AttributeError "'NoneType' object has no attribute 'lower'")
  /\ parse_csv_results short_row_artifact
     = [ [(Some "Repo_Name", VStr "a"); (Some "isFork", VBool true)] ]
  /\ parse_csv_results short_row_artifact <> [].
Proof. split; [reflexivity|]. split; [reflexivity | discriminate]. Qed.

(** ** Round trip of the result table *)

(** *** Text *)

Lemma append_nil_r (s : string) : s ++ "" = s.
Proof. induction s as [|c s IH]; simpl; [reflexivity | now rewrite IH]. Qed.

Lemma append_assoc (a b c : string) : (a ++ b) ++ c = a ++ (b ++ c).
Proof. induction a as [|x a IH]; simpl; [reflexivity | now rewrite IH]. Qed.






(** *** Splitting the text into lines *)



(** *** Reading a line of plain cells *)






(** *** Decimal numerals *)















(** *** Dictionaries *)

Lemma key_eqb_spec (a b : key) : key_eqb a b = true <-> a = b.
Proof.
  destruct a as [x|], b as [y|]; simpl; split; try congruence.
  - intros H. apply String.eqb_eq in H. now subst.
  - intros H. inversion H. apply String.eqb_refl.
Qed.

Lemma key_eqb_refl (a : key) : key_eqb a a = true.
Proof. now apply key_eqb_spec. Qed.

Lemma key_eqb_neq (a b : key) : a <> b -> key_eqb a b = false.
Proof.
  intros H. destruct (key_eqb a b) eqn:E; [|reflexivity].
  apply key_eqb_spec in E. contradiction.
Qed.


Lemma dict_get_some_in (k : key) (v : value) (d : dict) :
  dict_get k d = Some v -> In (k, v) d.
Proof.
  induction d as [|[k' v'] d IH]; simpl; [discriminate|].
  destruct (key_eqb k k') eqn:E.
  - apply key_eqb_spec in E. intros H. inversion H. subst. now left.
  - auto.
Qed.




Lemma dict_get_set_same (k : key) (v : value) (d : dict) :
  dict_get k (dict_set k v d) = Some v.
Proof.
  induction d as [|[k' v'] d IH]; simpl; [now rewrite key_eqb_refl|].
  destruct (key_eqb k k') eqn:E; simpl; rewrite E; auto.
Qed.

Lemma dict_get_set_other (k k' : key) (v : value) (d : dict) :
  k' <> k -> dict_get k' (dict_set k v d) = dict_get k' d.
Proof.
  intros Hne. induction d as [|[k2 v2] d IH]; simpl.
  - now rewrite key_eqb_neq.
  - destruct (key_eqb k k2) eqn:E; simpl.
    + apply key_eqb_spec in E. subst.
      now rewrite key_eqb_neq.
    + destruct (key_eqb k' k2); auto.
Qed.

Lemma key_in_spec (k : key) (ks : list key) :
  key_in k ks = true <-> In k ks.
Proof.
  unfold key_in. rewrite existsb_exists. split.
  - intros (x & Hx & E). apply key_eqb_spec in E. now subst.
  - intros H. exists k. split; [exact H | apply key_eqb_refl].
Qed.





(** *** The recognized fields *)

Lemma is_numeric_field_spec (f : string) :
  is_numeric_field f = true <-> In f numeric_fields.
Proof.
  unfold is_numeric_field. rewrite existsb_exists. split.
  - intros (x & Hx & E). apply String.eqb_eq in E. now subst.
  - intros H. exists f. split; [exact H | apply String.eqb_refl].
Qed.

Lemma is_bool_field_spec (f : string) :
  is_bool_field f = true <-> In f bool_fields.
Proof.
  unfold is_bool_field. rewrite existsb_exists. split.
  - intros (x & Hx & E). apply String.eqb_eq in E. now subst.
  - intros H. exists f. split; [exact H | apply String.eqb_refl].
Qed.



Lemma numeric_not_bool (f : string) :
  is_numeric_field f = true -> is_bool_field f = false.
Proof.
  intros H. apply is_numeric_field_spec in H.
  assert (A : forallb (fun x => negb (is_bool_field x)) numeric_fields = true)
    by reflexivity.
  rewrite forallb_forall in A. apply negb_true_iff. auto.
Qed.

Lemma string_neq_eqb (a b : string) : String.eqb a b = false -> a <> b.
Proof. intros H ->. now rewrite String.eqb_refl in H. Qed.


Lemma bool_fields_nodup : NoDup bool_fields.
Proof.
  unfold bool_fields.
  repeat (constructor;
          [simpl; intros H;
           repeat (destruct H as [H|H];
                   [revert H; apply string_neq_eqb; reflexivity|]);
           exact H|]).
  constructor.
Qed.

(** *** Typed records *)






(** *** The conversion loops on a row read back *)




Lemma bool_not_numeric (f : string) :
  is_bool_field f = true -> ~ In (Some f) (map Some numeric_fields).
Proof.
  intros Hb. rewrite in_map_iff. intros (x & E & Hx). inversion E. subst.
  apply is_numeric_field_spec in Hx.
  rewrite (numeric_not_bool f Hx) in Hb. discriminate.
Qed.



(** *** Writing *)








(** *** Reading back *)








(** ** The percentage computed in floating point *)

(** *** Binary digits *)

Lemma digits2_pos_bounds (p : positive) :
  2 ^ (Zpos (digits2_pos p) - 1) <= Zpos p < 2 ^ Zpos (digits2_pos p).
Proof.
  induction p as [p IH|p IH|]; cbn [digits2_pos].
  - rewrite Pos2Z.inj_succ.
    replace (Z.succ (Zpos (digits2_pos p)) - 1)
      with (Z.succ (Zpos (digits2_pos p) - 1)) by lia.
    rewrite !Z.pow_succ_r by lia. lia.
  - rewrite Pos2Z.inj_succ.
    replace (Z.succ (Zpos (digits2_pos p)) - 1)
      with (Z.succ (Zpos (digits2_pos p) - 1)) by lia.
    rewrite !Z.pow_succ_r by lia. lia.
  - simpl. lia.
Qed.

Lemma Zdigits2_bounds (n : Z) :
  0 < n -> 2 ^ (Zdigits2 n - 1) <= n < 2 ^ Zdigits2 n.
Proof.
  destruct n as [|p|p]; try lia. intros _. apply digits2_pos_bounds.
Qed.

Lemma Zdigits2_pos (n : Z) : 0 < n -> 1 <= Zdigits2 n.
Proof. destruct n as [|p|p]; simpl; lia. Qed.

Lemma Zdigits2_nonneg (n : Z) : 0 <= Zdigits2 n.
Proof. destruct n as [|p|p]; simpl; lia. Qed.

Lemma Zdigits2_le_pow (n k : Z) :
  0 <= k -> 0 <= n -> n < 2 ^ k -> Zdigits2 n <= k.
Proof.
  intros Hk Hn Hlt.
  destruct (Z.eq_dec n 0) as [->|Hz]; [simpl; lia|].
  destruct (Zdigits2_bounds n ltac:(lia)) as [Hlo _].
  destruct (Z_le_gt_dec (Zdigits2 n) k) as [|Hgt]; [assumption|].
  assert (2 ^ k <= 2 ^ (Zdigits2 n - 1)) by (apply Z.pow_le_mono_r; lia).
  lia.
Qed.

Lemma Zdigits2_ge_pow (n k : Z) :
  0 <= k -> 2 ^ k <= n -> k + 1 <= Zdigits2 n.
Proof.
  intros Hk Hge.
  assert (0 < 2 ^ k) by (apply Z.pow_pos_nonneg; lia).
  destruct (Zdigits2_bounds n ltac:(lia)) as [_ Hhi].
  destruct (Z_le_gt_dec (k + 1) (Zdigits2 n)) as [|Hgt]; [assumption|].
  assert (2 ^ Zdigits2 n <= 2 ^ k)
    by (apply Z.pow_le_mono_r; pose proof (Zdigits2_nonneg n); lia).
  lia.
Qed.

Lemma Zdigits2_unique (n k : Z) :
  1 <= k -> 2 ^ (k - 1) <= n < 2 ^ k -> Zdigits2 n = k.
Proof.
  intros Hk [Hlo Hhi].
  assert (0 < 2 ^ (k - 1)) by (apply Z.pow_pos_nonneg; lia).
  pose proof (Zdigits2_le_pow n k ltac:(lia) ltac:(lia) Hhi).
  pose proof (Zdigits2_ge_pow n (k - 1) ltac:(lia) Hlo).
  lia.
Qed.

Lemma Zdigits2_mono (a b : Z) : 0 <= a <= b -> Zdigits2 a <= Zdigits2 b.
Proof.
  intros [Ha Hab].
  destruct (Z.eq_dec b 0) as [->|Hb]; [replace a with 0 by lia; lia|].
  destruct (Zdigits2_bounds b ltac:(lia)) as [_ Hhi].
  apply Zdigits2_le_pow; [apply Zdigits2_nonneg | lia | lia].
Qed.

(** *** Rounding a quotient to the nearest integer *)

Lemma rne_spec (a d : Z) :
  0 < d ->
  (2 * rne a d - 1) * d <= 2 * a <= (2 * rne a d + 1) * d
  /\ (2 * a = (2 * rne a d + 1) * d -> Z.even (rne a d) = true)
  /\ (2 * a = (2 * rne a d - 1) * d -> Z.even (rne a d) = true).
Proof.
  intros Hd. unfold rne.
  pose proof (Z.div_mod a d ltac:(lia)) as E.
  pose proof (Z.mod_pos_bound a d Hd) as Hr.
  set (q := a / d) in *. set (r := a mod d) in *.
  destruct (Z.compare_spec (2 * r) d) as [C|C|C].
  - destruct (Z.even q) eqn:Ev.
    + repeat split; try nia. intros _. exact Ev.
    + repeat split; try nia. intros _.
      rewrite Z.even_add, Ev. reflexivity.
  - repeat split; nia.
  - repeat split; nia.
Qed.

Lemma rne_le (a d n : Z) : 0 < d -> a <= n * d -> rne a d <= n.
Proof.
  intros Hd H. destruct (rne_spec a d Hd) as [[Hlo _] _]. nia.
Qed.

Lemma rne_ge (a d n : Z) : 0 < d -> n * d <= a -> n <= rne a d.
Proof.
  intros Hd H. destruct (rne_spec a d Hd) as [[_ Hhi] _]. nia.
Qed.

Lemma rne_exact (n d : Z) : 0 < d -> rne (n * d) d = n.
Proof.
  intros Hd. apply Z.le_antisymm; [apply rne_le | apply rne_ge]; lia.
Qed.

Lemma rne_nonneg (a d : Z) : 0 < d -> 0 <= a -> 0 <= rne a d.
Proof. intros Hd Ha. apply rne_ge; lia. Qed.

Lemma even_pred_odd (n : Z) : Z.even n = true -> Z.even (n - 1) = false.
Proof.
  intros H. replace (n - 1) with (Z.pred n) by lia.
  rewrite Z.even_pred. rewrite <- Z.negb_even, H. reflexivity.
Qed.

(** Rounding to nearest even is monotone in the quotient. *)
Lemma rne_mono (a d a' d' : Z) :
  0 < d -> 0 < d' -> a * d' <= a' * d -> rne a d <= rne a' d'.
Proof.
  intros Hd Hd' H.
  destruct (rne_spec a d Hd) as ([Hlo _] & _ & Hodd).
  destruct (rne_spec a' d' Hd') as ([_ Hhi'] & Heven' & _).
  set (n := rne a d) in *. set (n' := rne a' d') in *.
  destruct (Z_le_gt_dec n n') as [|Hgt]; [assumption|exfalso].
  assert (A : (2 * n - 1) * (d * d') <= (2 * n' + 1) * (d * d')) by nia.
  assert (B : 2 * n - 1 <= 2 * n' + 1) by nia.
  assert (En : n' = n - 1) by lia.
  assert (T : 2 * a = (2 * n - 1) * d) by nia.
  assert (T' : 2 * a' = (2 * n' + 1) * d') by nia.
  specialize (Hodd T). specialize (Heven' T').
  rewrite En in Heven'. rewrite (even_pred_odd n Hodd) in Heven'.
  discriminate.
Qed.

Lemma rne_scale (a d c : Z) : 0 < d -> 0 < c -> rne (a * c) (d * c) = rne a d.
Proof.
  intros Hd Hc. apply Z.le_antisymm; apply rne_mono; nia.
Qed.

(** *** Rounding to binary64, on fixed-point images *)

Lemma grid_nonneg (a b : Z) : 0 <= grid a b.
Proof. unfold grid. lia. Qed.

Lemma rnd_nonneg (a b : Z) : 0 <= a -> 0 < b -> 0 <= rnd a b.
Proof.
  intros Ha Hb. unfold rnd.
  pose proof (grid_nonneg a b).
  assert (0 < 2 ^ grid a b) by (apply Z.pow_pos_nonneg; lia).
  apply Z.mul_nonneg_nonneg; [|lia]. apply rne_nonneg; nia.
Qed.

Lemma div_le_ratio (a b a' b' : Z) :
  0 <= a -> 0 < b -> 0 < b' -> a * b' <= a' * b -> a / b <= a' / b'.
Proof.
  intros Ha Hb Hb' H.
  apply Z.div_le_lower_bound; [lia|].
  pose proof (Z.mul_div_le a b Hb).
  destruct (Z_le_gt_dec (b' * (a / b)) a') as [|Hgt]; [assumption|exfalso].
  nia.
Qed.

(** Rounding to binary64 is monotone. *)
Lemma rnd_mono (a b a' b' : Z) :
  0 <= a -> 0 < b -> 0 < b' -> a * b' <= a' * b ->
  rnd a b <= rnd a' b'.
Proof.
  intros Ha Hb Hb' H.
  assert (Ha' : 0 <= a') by nia.
  pose proof (div_le_ratio a b a' b' Ha Hb Hb' H) as Hq.
  assert (Hq0 : 0 <= a / b) by (apply Z.div_pos; lia).
  pose proof (Zdigits2_mono (a / b) (a' / b') (conj Hq0 Hq)) as Hdg.
  assert (Hg : grid a b <= grid a' b') by (unfold grid; lia).
  pose proof (grid_nonneg a b) as Hg0.
  unfold rnd.
  destruct (Z.eq_dec (grid a b) (grid a' b')) as [E|NE].
  - rewrite <- E.
    assert (0 < 2 ^ grid a b) by (apply Z.pow_pos_nonneg; lia).
    apply Z.mul_le_mono_nonneg_r; [lia|].
    apply rne_mono; nia.
  - set (g := grid a b) in *. set (g' := grid a' b') in *.
    assert (Hlt : g < g') by lia.
    assert (Eg' : g' = Zdigits2 (a' / b') - 53) by (unfold g', grid in *; lia).
    assert (Hdig : Zdigits2 (a / b) <= g' + 52) by (unfold g, grid in *; lia).
    assert (Hpos' : 0 < a' / b').
    { destruct (Z.eq_dec (a' / b') 0) as [Z0|]; [|lia].
      rewrite Z0 in Eg'. simpl in Eg'. lia. }
    destruct (Zdigits2_bounds (a' / b') Hpos') as [Hlo' _].
    replace (Zdigits2 (a' / b') - 1) with (g' + 52) in Hlo' by lia.
    assert (Hhi : a / b < 2 ^ (g' + 52)).
    { destruct (Z.eq_dec (a / b) 0) as [Z0|].
      - rewrite Z0. apply Z.pow_pos_nonneg; lia.
      - destruct (Zdigits2_bounds (a / b) ltac:(lia)) as [_ Hh].
        assert (2 ^ Zdigits2 (a / b) <= 2 ^ (g' + 52))
          by (apply Z.pow_le_mono_r; lia).
        lia. }
    assert (P : 2 ^ (g' + 52) = 2 ^ (g' + 52 - g) * 2 ^ g).
    { rewrite <- Z.pow_add_r by lia. f_equal. lia. }
    assert (P' : 2 ^ (g' + 52) = 2 ^ 52 * 2 ^ g').
    { rewrite <- Z.pow_add_r by lia. f_equal. lia. }
    assert (0 < 2 ^ g) by (apply Z.pow_pos_nonneg; lia).
    assert (0 < 2 ^ g') by (apply Z.pow_pos_nonneg; lia).
    assert (0 < 2 ^ (g' + 52 - g)) by (apply Z.pow_pos_nonneg; lia).
    apply Z.le_trans with (2 ^ (g' + 52)).
    + rewrite P. apply Z.mul_le_mono_nonneg_r; [lia|].
      apply rne_le; [nia|].
      assert (U : a < 2 ^ (g' + 52) * b).
      { pose proof (Z.div_mod a b ltac:(lia)).
        pose proof (Z.mod_pos_bound a b Hb). nia. }
      rewrite P in U. nia.
    + rewrite P'. apply Z.mul_le_mono_nonneg_r; [lia|].
      apply rne_ge; [nia|].
      assert (L : 2 ^ (g' + 52) * b' <= a').
      { pose proof (Z.mul_div_le a' b' Hb'). nia. }
      rewrite P' in L. nia.
Qed.

(** *** The shift-and-round procedure of [SpecFloat] *)

Lemma shr_record_of_loc_m (m : Z) (l : location) :
  shr_m (shr_record_of_loc m l) = m.
Proof. destruct l as [|[]]; reflexivity. Qed.

Lemma loc_of_shr_record_of_loc (m : Z) (l : location) :
  loc_of_shr_record (shr_record_of_loc m l) = l.
Proof. destruct l as [|[]]; reflexivity. Qed.

Lemma shr_1_nonneg (m : Z) (r s : bool) :
  0 <= m ->
  shr_1 {| shr_m := m; shr_r := r; shr_s := s |}
  = {| shr_m := Z.div2 m; shr_r := Z.odd m; shr_s := r || s |}.
Proof. destruct m as [|[p|p|]|p]; try lia; reflexivity. Qed.

Lemma div_mod_double (a d : Z) :
  0 <= a -> 0 < d ->
  a / (2 * d) = a / d / 2
  /\ a mod (2 * d) = (a / d) mod 2 * d + a mod d.
Proof.
  intros Ha Hd.
  pose proof (Z.div_mod a d ltac:(lia)) as E.
  pose proof (Z.mod_pos_bound a d Hd) as Hr.
  pose proof (Z.div_mod (a / d) 2 ltac:(lia)) as E2.
  pose proof (Z.mod_pos_bound (a / d) 2 ltac:(lia)) as Hr2.
  assert (U : a = 2 * d * (a / d / 2) + ((a / d) mod 2 * d + a mod d)) by nia.
  assert (Bd : 0 <= (a / d) mod 2 * d + a mod d < 2 * d) by nia.
  split.
  - symmetry. apply (Z.div_unique_pos a (2 * d) _ _ Bd U).
  - symmetry. apply (Z.mod_unique_pos a (2 * d) _ _ Bd U).
Qed.

(** One right shift of the quotient record of [a] by [d] is the quotient
    record of [a] by [2 d]. *)
Lemma shr_1_rec (a d : Z) :
  0 <= a -> 0 < d -> shr_1 (rec_of a d) = rec_of a (2 * d).
Proof.
  intros Ha Hd.
  destruct (div_mod_double a d Ha Hd) as [Ediv Emod].
  pose proof (Z.mod_pos_bound a d Hd) as Hr.
  assert (Hq : 0 <= a / d) by (apply Z.div_pos; lia).
  unfold rec_of at 2. rewrite Ediv, Emod.
  pose proof (Z.mod_pos_bound (a / d) 2 ltac:(lia)) as Hr2.
  assert (Hodd : Z.odd (a / d) = negb ((a / d) mod 2 =? 0)).
  { rewrite Zmod_odd. destruct (Z.odd (a / d)); reflexivity. }
  unfold rec_of, loc_of.
  destruct (Z.eqb_spec (a mod d) 0) as [R0|R0].
  - cbn [shr_record_of_loc]. rewrite shr_1_nonneg by exact Hq.
    rewrite Z.div2_div, Hodd, R0.
    destruct (Z.eqb_spec ((a / d) mod 2) 0) as [Q0|Q0].
    + rewrite Q0. reflexivity.
    + replace ((a / d) mod 2) with 1 by lia.
      destruct (Z.eqb_spec (1 * d + 0) 0); [lia|].
      replace (2 * (1 * d + 0) ?= 2 * d) with Eq
        by (symmetry; apply Z.compare_eq_iff; lia).
      reflexivity.
  - assert (S : forall c, shr_1 (shr_record_of_loc (a / d) (loc_Inexact c))
                          = {| shr_m := Z.div2 (a / d);
                               shr_r := Z.odd (a / d); shr_s := true |}).
    { intros [| |]; cbn [shr_record_of_loc];
        rewrite shr_1_nonneg by exact Hq; reflexivity. }
    rewrite S, Z.div2_div, Hodd.
    destruct (Z.eqb_spec ((a / d) mod 2) 0) as [Q0|Q0].
    + rewrite Q0. cbn [negb].
      destruct (Z.eqb_spec (0 * d + a mod d) 0); [lia|].
      replace (2 * (0 * d + a mod d) ?= 2 * d) with Lt
        by (symmetry; apply Z.compare_lt_iff; lia).
      reflexivity.
    + replace ((a / d) mod 2) with 1 by lia. cbn [negb].
      destruct (Z.eqb_spec (1 * d + a mod d) 0); [lia|].
      replace (2 * (1 * d + a mod d) ?= 2 * d) with Gt
        by (symmetry; apply Z.compare_gt_iff; lia).
      reflexivity.
Qed.

Lemma iter_shr_1_rec (p : positive) :
  forall a d,
    0 <= a -> 0 < d ->
    iter_pos shr_1 p (rec_of a d) = rec_of a (d * 2 ^ Zpos p).
Proof.
  induction p as [p IH|p IH|]; intros a d Ha Hd; cbn [iter_pos].
  - assert (0 < 2 ^ Zpos p) by (apply Z.pow_pos_nonneg; lia).
    rewrite shr_1_rec, IH, IH by nia. f_equal.
    replace (Zpos p~1) with (Zpos p + Zpos p + 1) by lia.
    rewrite !Z.pow_add_r by lia. change (2 ^ 1) with 2. ring.
  - assert (0 < 2 ^ Zpos p) by (apply Z.pow_pos_nonneg; lia).
    rewrite IH, IH by nia. f_equal.
    replace (Zpos p~0) with (Zpos p + Zpos p) by lia.
    rewrite !Z.pow_add_r by lia. ring.
  - rewrite shr_1_rec by assumption. f_equal. change (2 ^ 1) with 2. ring.
Qed.

Lemma shr_rec (a d e n : Z) :
  0 <= a -> 0 < d ->
  shr (rec_of a d) e n
  = (rec_of a (d * 2 ^ Z.max n 0), e + Z.max n 0).
Proof.
  intros Ha Hd. unfold shr. destruct n as [|p|p].
  - cbn [Z.max Z.compare]. change (2 ^ 0) with 1.
    now rewrite Z.mul_1_r, Z.add_0_r.
  - rewrite iter_shr_1_rec by assumption.
    replace (Z.max (Zpos p) 0) with (Zpos p) by lia. reflexivity.
  - replace (Z.max (Zneg p) 0) with 0 by lia. change (2 ^ 0) with 1.
    now rewrite Z.mul_1_r, Z.add_0_r.
Qed.

Lemma shr_fexp_rec (a d e : Z) :
  0 <= a -> 0 < d ->
  shr_fexp 53 1024 (a / d) e (loc_of (a mod d) d)
  = (rec_of a (d * 2 ^ Z.max (fexp 53 1024 (Zdigits2 (a / d) + e) - e) 0),
     e + Z.max (fexp 53 1024 (Zdigits2 (a / d) + e) - e) 0).
Proof.
  intros Ha Hd. unfold shr_fexp. fold (rec_of a d). now apply shr_rec.
Qed.

Lemma round_nearest_even_rec (a d : Z) :
  0 < d ->
  round_nearest_even (shr_m (rec_of a d)) (loc_of_shr_record (rec_of a d))
  = rne a d.
Proof.
  intros Hd. unfold rec_of.
  rewrite shr_record_of_loc_m, loc_of_shr_record_of_loc.
  unfold loc_of, rne.
  destruct (Z.eqb_spec (a mod d) 0) as [R0|R0].
  - rewrite R0. cbn [round_nearest_even].
    replace (2 * 0 ?= d) with Lt
      by (symmetry; apply Z.compare_lt_iff; lia).
    reflexivity.
  - cbn [round_nearest_even].
    destruct (2 * (a mod d) ?= d); reflexivity.
Qed.

Lemma fexp_53 (e : Z) : fexp 53 1024 e = Z.max (e - 53) (-1074).
Proof. reflexivity. Qed.

Lemma shr_fexp_exact (m e : Z) :
  0 <= m ->
  shr_fexp 53 1024 m e loc_Exact
  = (rec_of m (2 ^ Z.max (fexp 53 1024 (Zdigits2 m + e) - e) 0),
     e + Z.max (fexp 53 1024 (Zdigits2 m + e) - e) 0).
Proof.
  intros Hm. pose proof (shr_fexp_rec m 1 e Hm ltac:(lia)) as H.
  rewrite Z.div_1_r, Z.mod_1_r, Z.mul_1_l in H. exact H.
Qed.

Lemma rne_zero (d : Z) : 0 < d -> rne 0 d = 0.
Proof. intros Hd. apply (rne_exact 0 d Hd). Qed.

Lemma pow2_pos (k : Z) : 0 <= k -> 0 < 2 ^ k.
Proof. intros. apply Z.pow_pos_nonneg; lia. Qed.

Lemma pow2_split (a b : Z) : 0 <= a -> 0 <= b -> 2 ^ (a + b) = 2 ^ a * 2 ^ b.
Proof. intros. apply Z.pow_add_r; assumption. Qed.

(** The first shift and the rounding of [binary_round_aux] give the
    mantissa of the rounded fixed-point image, on at most 53 bits or equal
    to 2^53. *)
Lemma first_round_fix (A0 B ex : Z) :
  0 <= A0 -> 0 < B -> -1074 <= ex ->
  (A0 mod B = 0 \/ ex + 1074 <= grid (A0 * 2 ^ (ex + 1074)) B) ->
  let k := Z.max (fexp 53 1024 (Zdigits2 (A0 / B) + ex) - ex) 0 in
  rne A0 (B * 2 ^ k) * 2 ^ (ex + k + 1074) = rnd (A0 * 2 ^ (ex + 1074)) B
  /\ 0 <= rne A0 (B * 2 ^ k) <= 2 ^ 53.
Proof.
  intros HA HB Hex Hprec. cbv zeta. rewrite fexp_53.
  set (mx := A0 / B). set (sh := ex + 1074) in *.
  set (A := A0 * 2 ^ sh) in *. set (g := grid A B) in *.
  assert (Hsh : 0 <= sh) by (unfold sh; lia).
  pose proof (pow2_pos sh Hsh) as Psh.
  pose proof (Z.div_mod A0 B ltac:(lia)) as Ediv. fold mx in Ediv.
  pose proof (Z.mod_pos_bound A0 B HB) as Hrem.
  assert (Hmx : 0 <= mx) by (apply Z.div_pos; lia).
  assert (Hlo : mx * 2 ^ sh <= A / B).
  { apply Z.div_le_lower_bound; [lia|]. unfold A. nia. }
  assert (Hhi : A / B < (mx + 1) * 2 ^ sh).
  { apply Z.div_lt_upper_bound; [lia|]. unfold A. nia. }
  assert (Hg0 : 0 <= g) by apply grid_nonneg.
  assert (Hgdig : Zdigits2 (A / B) <= g + 53) by (unfold g, grid; lia).
  assert (F1 : (0 < mx -> g = Z.max (Zdigits2 mx + sh - 53) 0)
               /\ (mx = 0 -> g <= Z.max (sh - 53) 0)).
  { split.
    - intros Hpos. destruct (Zdigits2_bounds mx Hpos) as [Dlo Dhi].
      pose proof (Zdigits2_pos mx Hpos) as D1.
      assert (E : Zdigits2 (A / B) = Zdigits2 mx + sh).
      { apply Zdigits2_unique; [lia|].
        replace (Zdigits2 mx + sh - 1) with (Zdigits2 mx - 1 + sh) by lia.
        rewrite !pow2_split by lia. split; nia. }
      unfold g, grid. rewrite E. reflexivity.
    - intros Z0. rewrite Z0 in Hhi.
      assert (Zdigits2 (A / B) <= sh).
      { apply Zdigits2_le_pow; [lia | apply Z.div_pos; unfold A; nia | lia]. }
      unfold g, grid. lia. }
  destruct F1 as [F1 F0].
  set (k := Z.max (Z.max (Zdigits2 mx + ex - 53) (-1074) - ex) 0).
  destruct (Z_le_gt_dec sh g) as [Hle|Hgt].
  - (* the quotient carries enough bits: it is rounded at the grid *)
    assert (Ek : k = g - sh).
    { destruct (Z.eq_dec mx 0) as [Z0|NZ].
      - specialize (F0 Z0). unfold k. rewrite Z0. simpl Zdigits2.
        unfold sh in *. lia.
      - specialize (F1 ltac:(lia)). unfold k, sh in *. lia. }
    assert (Hk : 0 <= k) by lia.
    pose proof (pow2_pos k Hk) as Pk. pose proof (pow2_pos g Hg0) as Pg.
    assert (Eg : 2 ^ g = 2 ^ k * 2 ^ sh).
    { rewrite <- pow2_split by lia. f_equal. lia. }
    split.
    + unfold rnd. fold g. replace (ex + k + 1074) with g by (unfold sh in *; lia).
      f_equal. unfold A. rewrite Eg.
      replace (B * (2 ^ k * 2 ^ sh)) with (B * 2 ^ k * 2 ^ sh) by ring.
      symmetry. apply rne_scale; nia.
    + split; [apply rne_nonneg; nia|].
      apply rne_le; [nia|].
      assert (HA53 : A / B < 2 ^ (g + 53)).
      { destruct (Z.eq_dec (A / B) 0) as [Z0|NZ].
        - rewrite Z0. apply pow2_pos. lia.
        - assert (0 <= A / B) by (apply Z.div_pos; unfold A; nia).
          destruct (Zdigits2_bounds (A / B) ltac:(lia)) as [_ Dhi].
          assert (2 ^ Zdigits2 (A / B) <= 2 ^ (g + 53))
            by (apply Z.pow_le_mono_r; lia).
          lia. }
      assert (HAB : A < 2 ^ (g + 53) * B).
      { pose proof (Z.div_mod A B ltac:(lia)).
        pose proof (Z.mod_pos_bound A B HB). nia. }
      replace (g + 53) with (53 + k + sh) in HAB by lia.
      rewrite !pow2_split in HAB by lia. unfold A in HAB. nia.
  - (* fewer bits than the grid asks for: the quotient is exact *)
    destruct Hprec as [Hex0|Hp]; [|lia].
    assert (EA0 : A0 = mx * B) by lia.
    assert (Ek : k = 0).
    { destruct (Z.eq_dec mx 0) as [Z0|NZ].
      - unfold k. rewrite Z0. simpl Zdigits2. unfold sh in *. lia.
      - specialize (F1 ltac:(lia)). unfold k, sh in *. lia. }
    rewrite Ek. change (2 ^ 0) with 1. rewrite Z.mul_1_r.
    assert (Er : rne A0 B = mx).
    { apply Z.le_antisymm; [apply rne_le | apply rne_ge]; lia. }
    rewrite Er.
    split.
    + unfold rnd. fold g.
      pose proof (pow2_pos g Hg0) as Pg.
      assert (Es : 2 ^ sh = 2 ^ (sh - g) * 2 ^ g).
      { rewrite <- pow2_split by lia. f_equal. lia. }
      replace A with (mx * 2 ^ (sh - g) * (B * 2 ^ g))
        by (unfold A; rewrite EA0, Es; ring).
      rewrite rne_exact by nia.
      replace (ex + 0 + 1074) with sh by (unfold sh; lia).
      rewrite Es. ring.
    + split; [exact Hmx|].
      pose proof (pow2_pos 53 ltac:(lia)) as P53.
      destruct (Z.eq_dec mx 0) as [Z0|NZ].
      { lia. }
      specialize (F1 ltac:(lia)).
      destruct (Zdigits2_bounds mx ltac:(lia)) as [_ Dhi].
      assert (2 ^ Zdigits2 mx <= 2 ^ 53) by (apply Z.pow_le_mono_r; lia).
      lia.
Qed.

(** The second shift of [binary_round_aux] renormalises a mantissa equal
    to 2^53 and leaves a shorter one alone. *)
Lemma second_shift_fix (m e : Z) :
  0 <= m <= 2 ^ 53 -> -1074 <= e ->
  let K := Z.max (fexp 53 1024 (Zdigits2 m + e) - e) 0 in
  0 <= K /\ 0 <= m / 2 ^ K /\ m / 2 ^ K * 2 ^ (e + K + 1074) = m * 2 ^ (e + 1074).
Proof.
  intros [Hm0 Hm] He. rewrite fexp_53. cbv zeta.
  destruct (Z.eq_dec m (2 ^ 53)) as [->|NE].
  - change (Zdigits2 (2 ^ 53)) with 54.
    replace (Z.max (Z.max (54 + e - 53) (-1074) - e) 0) with 1 by lia.
    split; [lia|]. split; [vm_compute; discriminate|].
    change (2 ^ 53 / 2 ^ 1) with (2 ^ 52).
    replace (e + 1 + 1074) with (1 + (e + 1074)) by lia.
    rewrite pow2_split by lia. change (2 ^ 53) with (2 ^ 52 * 2 ^ 1). ring.
  - assert (Zdigits2 m <= 53) by (apply Zdigits2_le_pow; lia).
    replace (Z.max (Z.max (Zdigits2 m + e - 53) (-1074) - e) 0) with 0 by lia.
    change (2 ^ 0) with 1. rewrite Z.div_1_r, Z.add_0_r.
    split; [lia|]. split; [lia | reflexivity].
Qed.

(** [binary_round_aux] computes the rounding specified by [rnd]: its
    result is the float whose fixed-point image is [rnd], or an infinity
    when that float is out of range. *)
Lemma round_aux_fix (sx : bool) (A0 B ex : Z) :
  0 <= A0 -> 0 < B -> -1074 <= ex ->
  (A0 mod B = 0 \/ ex + 1074 <= grid (A0 * 2 ^ (ex + 1074)) B) ->
  let f := binary_round_aux 53 1024 sx (A0 / B) ex (loc_of (A0 mod B) B) in
  let V := rnd (A0 * 2 ^ (ex + 1074)) B in
  (f = S754_zero sx /\ V = 0)
  \/ (exists m e, f = S754_finite sx m e /\ -1074 <= e
                  /\ Zpos m * 2 ^ (e + 1074) = V)
  \/ f = S754_infinity sx.
Proof.
  intros HA HB Hex Hprec f V.
  destruct (first_round_fix A0 B ex HA HB Hex Hprec) as [EV Hmr].
  fold V in EV.
  set (k := Z.max (fexp 53 1024 (Zdigits2 (A0 / B) + ex) - ex) 0) in *.
  assert (Hk : 0 <= k) by (unfold k; lia).
  pose proof (pow2_pos k Hk) as Pk.
  set (mr := rne A0 (B * 2 ^ k)) in *.
  destruct (second_shift_fix mr (ex + k) Hmr ltac:(lia)) as (HK & Hmf & EK).
  set (K := Z.max (fexp 53 1024 (Zdigits2 mr + (ex + k)) - (ex + k)) 0) in *.
  assert (Ef : f = match mr / 2 ^ K with
                   | Z0 => S754_zero sx
                   | Zpos m => if ex + k + K <=? 1024 - 53
                               then S754_finite sx m (ex + k + K)
                               else S754_infinity sx
                   | Zneg _ => S754_nan
                   end).
  { unfold f, binary_round_aux.
    rewrite shr_fexp_rec by assumption. fold k.
    rewrite round_nearest_even_rec by nia. fold mr.
    rewrite shr_fexp_exact by lia. fold K.
    unfold rec_of. rewrite shr_record_of_loc_m. reflexivity. }
  rewrite Ef. rewrite <- EV, <- EK.
  destruct (mr / 2 ^ K) as [|p|p] eqn:Emf.
  - left. split; [reflexivity | ring].
  - destruct (ex + k + K <=? 1024 - 53).
    + right. left. exists p, (ex + k + K). split; [reflexivity|].
      split; [lia | reflexivity].
    + right. right. reflexivity.
  - lia.
Qed.

(** *** Division and multiplication *)

Lemma new_location_loc (d r : Z) :
  0 <= r < d -> new_location d r = loc_of r d.
Proof.
  intros Hr. unfold new_location, loc_of.
  destruct (Z.even d) eqn:Ev; [reflexivity|].
  unfold new_location_odd.
  destruct (Z.eqb_spec r 0) as [R0|R0]; [reflexivity|].
  assert (Hodd : Z.odd d = true) by (rewrite <- Z.negb_even, Ev; reflexivity).
  apply Z.odd_spec in Hodd. destruct Hodd as [h Hh].
  destruct (Z.compare_spec (2 * r + 1) d) as [C|C|C];
    destruct (Z.compare_spec (2 * r) d) as [C'|C'|C'];
    try reflexivity; lia.
Qed.

Lemma div_eucl_div_mod (a b : Z) : Z.div_eucl a b = (a / b, a mod b).
Proof.
  unfold Z.div, Z.modulo. destruct (Z.div_eucl a b). reflexivity.
Qed.

(** The quotient of two positive integers, rounded to binary64. *)
Lemma truediv_fix (n m : positive) :
  let f := SFdiv 53 1024 (S754_finite false n 0) (S754_finite false m 0) in
  let V := rnd (Zpos n * 2 ^ 1074) (Zpos m) in
  (f = S754_zero false /\ V = 0)
  \/ (exists mq eq, f = S754_finite false mq eq /\ -1074 <= eq
                    /\ Zpos mq * 2 ^ (eq + 1074) = V)
  \/ f = S754_infinity false.
Proof.
  intros f V. unfold f, SFdiv, SFdiv_core_binary.
  rewrite !Z.add_0_r, Z.sub_0_r, fexp_53.
  set (d1 := Zdigits2 (Zpos n)). set (d2 := Zdigits2 (Zpos m)).
  set (e' := Z.min (Z.max (d1 - d2 - 53) (-1074)) 0).
  replace (0 - e') with (- e') by lia.
  assert (He' : -1074 <= e' <= 0) by (unfold e'; lia).
  set (m' := match - e' with
             | Z0 => Zpos n
             | Zpos _ => Z.shiftl (Zpos n) (- e')
             | Zneg _ => 0
             end).
  assert (Em' : m' = Zpos n * 2 ^ (- e')).
  { unfold m'. destruct (- e') as [|p|p] eqn:E.
    - change (2 ^ 0) with 1. lia.
    - rewrite Z.shiftl_mul_pow2 by lia. reflexivity.
    - lia. }
  rewrite div_eucl_div_mod.
  pose proof (pow2_pos (- e') ltac:(lia)) as Ps.
  rewrite new_location_loc by (apply Z.mod_pos_bound; lia).
  cbn [xorb].
  assert (EV : V = rnd (m' * 2 ^ (e' + 1074)) (Zpos m)).
  { unfold V. f_equal. rewrite Em', <- Z.mul_assoc, <- pow2_split by lia.
    do 2 f_equal. lia. }
  rewrite EV.
  apply round_aux_fix; try lia.
  right.
  replace (m' * 2 ^ (e' + 1074)) with (Zpos n * 2 ^ 1074)
    by (rewrite Em', <- Z.mul_assoc, <- pow2_split by lia;
        do 2 f_equal; lia).
  destruct (Z_le_gt_dec (e' + 1074) 0) as [|Hgt];
    [pose proof (grid_nonneg (Zpos n * 2 ^ 1074) (Zpos m)); lia|].
  assert (Hd : e' <= d1 - d2 - 53 /\ -1074 < d1 - d2 - 53) by (unfold e' in *; lia).
  destruct (Zdigits2_bounds (Zpos n) ltac:(lia)) as [Nlo _].
  destruct (Zdigits2_bounds (Zpos m) ltac:(lia)) as [_ Mhi].
  fold d1 in Nlo. fold d2 in Mhi.
  pose proof (Zdigits2_pos (Zpos n) ltac:(lia)) as D1. fold d1 in D1.
  pose proof (Zdigits2_pos (Zpos m) ltac:(lia)) as D2. fold d2 in D2.
  assert (Hq : 2 ^ (d1 - d2 - 1 + 1074) <= Zpos n * 2 ^ 1074 / Zpos m).
  { apply Z.div_le_lower_bound; [lia|].
    pose proof (pow2_pos (d1 - d2 - 1 + 1074) ltac:(lia)).
    pose proof (pow2_pos 1074 ltac:(lia)).
    assert (E : 2 ^ (d1 - 1) * 2 ^ 1074 = 2 ^ (d1 - d2 - 1 + 1074) * 2 ^ d2).
    { rewrite <- !pow2_split by lia. f_equal. lia. }
    nia. }
  pose proof (Zdigits2_ge_pow (Zpos n * 2 ^ 1074 / Zpos m)
                (d1 - d2 - 1 + 1074) ltac:(lia) Hq).
  unfold grid. lia.
Qed.

(** The product of a float by 100, rounded to binary64. *)
Lemma mul_100_fix (mq : positive) (eq : Z) :
  -1074 <= eq ->
  let f := PyFloat.mul_int (S754_finite false mq eq) 100 in
  let V := rnd (100 * (Zpos mq * 2 ^ (eq + 1074))) 1 in
  (f = S754_zero false /\ V = 0)
  \/ (exists m e, f = S754_finite false m e /\ -1074 <= e
                  /\ Zpos m * 2 ^ (e + 1074) = V)
  \/ f = S754_infinity false.
Proof.
  intros He f V. unfold f, PyFloat.mul_int, PyFloat.exact, SFmul.
  cbn [xorb]. change PyFloat.prec with 53. change PyFloat.emax with 1024.
  rewrite Z.add_0_r.
  pose proof (round_aux_fix false (Zpos (mq * 100)) 1 eq
                ltac:(lia) ltac:(lia) He
                (or_introl (Z.mod_1_r _))) as H.
  cbv zeta in H. rewrite Z.div_1_r, Z.mod_1_r in H.
  change (loc_of 0 1) with loc_Exact in H.
  replace (rnd (Zpos (mq * 100) * 2 ^ (eq + 1074)) 1) with V in H; [exact H|].
  unfold V. f_equal. rewrite Pos2Z.inj_mul. ring.
Qed.

Lemma to_int_fix (m : positive) (e : Z) :
  -1074 <= e ->
  PyFloat.to_int (S754_finite false m e)
  = inr (Zpos m * 2 ^ (e + 1074) / 2 ^ 1074).
Proof.
  intros He. cbn [PyFloat.to_int]. f_equal.
  pose proof (pow2_pos 1074 ltac:(lia)) as P.
  destruct (Z_le_gt_dec 0 e) as [Hpos|Hneg].
  - rewrite Z.shiftl_mul_pow2 by lia.
    rewrite pow2_split by lia. rewrite Z.mul_assoc.
    now rewrite Z.div_mul by lia.
  - rewrite Z.shiftl_div_pow2 by lia.
    pose proof (pow2_pos (e + 1074) ltac:(lia)).
    pose proof (pow2_pos (- e) ltac:(lia)).
    replace (2 ^ 1074) with (2 ^ (- e) * 2 ^ (e + 1074))
      by (rewrite <- pow2_split by lia; f_equal; lia).
    now rewrite Z.div_mul_cancel_r by lia.
Qed.

Lemma rnd_zero (b : Z) : 0 < b -> rnd 0 b = 0.
Proof.
  intros Hb. unfold rnd.
  pose proof (grid_nonneg 0 b). pose proof (pow2_pos (grid 0 b) ltac:(lia)).
  rewrite rne_zero by nia. reflexivity.
Qed.

Lemma percent_spec_zero_quotient (n m : Z) :
  rnd (n * 2 ^ 1074) m = 0 -> percent_spec n m = 0.
Proof.
  intros E. unfold percent_spec, fix_scale. rewrite E, Z.mul_0_r.
  rewrite rnd_zero by lia. apply Z.div_0_l.
  pose proof (pow2_pos 1074 ltac:(lia)). lia.
Qed.

(** The percentage computed in floating point is the integer
    [percent_spec] whenever no exception is raised. *)
Lemma percent_fix (processed total p : Z) :
  0 <= processed -> 0 < total ->
  percent processed total = inr p ->
  p = percent_spec processed total.
Proof.
  intros Hn Hm.
  destruct total as [|m|m]; try lia.
  destruct processed as [|n|n]; try lia.
  - change (percent 0 (Zpos m)) with (@inr exn Z 0).
    intros E. inversion E. symmetry. apply percent_spec_zero_quotient.
    rewrite Z.mul_0_l. apply rnd_zero. lia.
  - unfold percent, PyFloat.int_truediv.
    change (Zpos m =? 0) with false. cbv iota.
    change PyFloat.prec with 53. change PyFloat.emax with 1024.
    cbn [PyFloat.exact].
    destruct (truediv_fix n m) as [[Ef EV]|[(mq & eq & Ef & He & EV)|Ef]];
      cbv zeta in *; rewrite Ef; cbv iota.
    + change (PyFloat.to_int (PyFloat.mul_int (S754_zero false) 100))
        with (@inr exn Z 0).
      intros E. inversion E. symmetry.
      now apply percent_spec_zero_quotient.
    + unfold percent_spec, fix_scale. rewrite <- EV.
      destruct (mul_100_fix mq eq He)
        as [[Eg EW]|[(m2 & e2 & Eg & He2 & EW)|Eg]]; cbv zeta in *;
        rewrite Eg.
      * rewrite EW. cbn [PyFloat.to_int]. intros E. inversion E.
        symmetry. apply Z.div_0_l.
        pose proof (pow2_pos 1074 ltac:(lia)). lia.
      * rewrite to_int_fix by exact He2. rewrite EW.
        intros E. now inversion E.
      * cbn [PyFloat.to_int]. discriminate.
    + discriminate.
Qed.

(** *** Order properties of the percentage *)

Lemma percent_spec_mono (n m n' m' : Z) :
  0 <= n -> 0 < m -> 0 < m' -> n * m' <= n' * m ->
  percent_spec n m <= percent_spec n' m'.
Proof.
  intros Hn Hm Hm' H. unfold percent_spec, fix_scale.
  pose proof (pow2_pos 1074 ltac:(lia)) as P.
  apply Z.div_le_mono; [lia|].
  assert (R : rnd (n * 2 ^ 1074) m <= rnd (n' * 2 ^ 1074) m')
    by (apply rnd_mono; nia).
  pose proof (rnd_nonneg (n * 2 ^ 1074) m ltac:(nia) Hm).
  apply rnd_mono; lia.
Qed.

Lemma percent_spec_nonneg (n m : Z) :
  0 <= n -> 0 < m -> 0 <= percent_spec n m.
Proof.
  intros Hn Hm. unfold percent_spec, fix_scale.
  pose proof (pow2_pos 1074 ltac:(lia)) as P.
  apply Z.div_pos; [|lia].
  apply rnd_nonneg; [|lia].
  pose proof (rnd_nonneg (n * 2 ^ 1074) m ltac:(nia) Hm). lia.
Qed.

Lemma percent_spec_le_100 (n m : Z) :
  0 <= n <= m -> 0 < m -> percent_spec n m <= 100.
Proof.
  intros Hn Hm.
  assert (E : percent_spec 1 1 = 100) by (vm_compute; reflexivity).
  rewrite <- E. apply percent_spec_mono; lia.
Qed.

(** ** The course of the progress field *)

Lemma int_of_digits_nonneg (s : string) : 0 <= PyText.int_of_digits s.
Proof. unfold PyText.int_of_digits. apply N2Z.is_nonneg. Qed.

(** What lines 348-349 do: the counts stay, and the progress either
    stays or becomes the percentage of the counts. *)
Lemma update_progress_spec (j : AnalysisJob) :
  0 <= processed_repos j ->
  processed_repos (job_of (update_progress j)) = processed_repos j
  /\ total_repos (job_of (update_progress j)) = total_repos j
  /\ (progress (job_of (update_progress j)) = progress j
      \/ (0 < total_repos j
          /\ progress (job_of (update_progress j))
             = percent_spec (processed_repos j) (total_repos j))).
Proof.
  intros Hp. unfold update_progress.
  destruct (total_repos j >? 0) eqn:Ht; [|simpl; auto].
  rewrite Z.gtb_ltb in Ht. apply Z.ltb_lt in Ht.
  destruct (percent (processed_repos j) (total_repos j)) as [e|p] eqn:E;
    [simpl; auto|].
  apply percent_fix in E; [|assumption..]. simpl. subst p. auto.
Qed.

Lemma on_indexed_spec (m : captures) (j : AnalysisJob) :
  0 <= processed_repos (job_of (on_indexed m j))
  /\ (progress (job_of (on_indexed m j)) = progress j
      \/ (0 < total_repos (job_of (on_indexed m j))
          /\ progress (job_of (on_indexed m j))
             = percent_spec (processed_repos (job_of (on_indexed m j)))
                 (total_repos (job_of (on_indexed m j))))).
Proof.
  unfold on_indexed.
  match goal with |- context [update_progress ?x] => set (j1 := x) end.
  assert (P1 : processed_repos j1 = PyText.int_of_digits (group_text 1 m)).
  { unfold j1. destruct (group 3 m) as [g|]; [destruct (PyText.nonempty g)|];
      reflexivity. }
  assert (G1 : progress j1 = progress j).
  { unfold j1. destruct (group 3 m) as [g|]; [destruct (PyText.nonempty g)|];
      reflexivity. }
  assert (H1 : 0 <= processed_repos j1)
    by (rewrite P1; apply int_of_digits_nonneg).
  destruct (update_progress_spec j1 H1) as (A & B & C).
  destruct (update_progress j1) as [j2|e j2]; simpl in *;
    rewrite A, B; (split; [exact H1|]);
    (destruct C as [C|[C1 C2]]; [left; congruence | right; auto]).
Qed.

Lemma on_named_spec (m : captures) (j : AnalysisJob) :
  0 <= processed_repos j ->
  0 <= processed_repos (job_of (on_named m j))
  /\ (progress (job_of (on_named m j)) = progress j
      \/ (0 < total_repos (job_of (on_named m j))
          /\ progress (job_of (on_named m j))
             = percent_spec (processed_repos (job_of (on_named m j)))
                 (total_repos (job_of (on_named m j))))).
Proof.
  intros Hp. unfold on_named.
  match goal with |- context [update_progress ?x] => set (j1 := x) end.
  assert (H1 : 0 <= processed_repos j1) by (unfold j1; simpl; lia).
  assert (G1 : progress j1 = progress j) by reflexivity.
  destruct (update_progress_spec j1 H1) as (A & B & C).
  destruct (update_progress j1) as [j2|e j2]; simpl in *;
    rewrite A, B; (split; [exact H1|]);
    (destruct C as [C|[C1 C2]]; [left; congruence | right; auto]).
Qed.

(** One diagnostic line: the processed count stays non-negative, and the
    progress either stays or, at a line that recomputes it against a
    positive total, becomes the percentage of the counts. *)
Lemma stderr_line_spec (raw : string) (j : AnalysisJob) :
  0 <= processed_repos j ->
  0 <= processed_repos (job_of (stderr_line raw j))
  /\ (progress (job_of (stderr_line raw j)) = progress j
      \/ (recomputes (PyText.strip raw) = true
          /\ 0 < total_repos (job_of (stderr_line raw j))
          /\ progress (job_of (stderr_line raw j))
             = percent_spec (processed_repos (job_of (stderr_line raw j)))
                 (total_repos (job_of (stderr_line raw j))))).
Proof.
  intros Hp. unfold stderr_line, parse_progress, recomputes.
  set (d := PyText.strip raw).
  set (j0 := if PyText.nonempty d then append_output d j else j).
  assert (P0 : processed_repos j0 = processed_repos j)
    by (unfold j0; destruct (PyText.nonempty d); reflexivity).
  assert (G0 : progress j0 = progress j)
    by (unfold j0; destruct (PyText.nonempty d); reflexivity).
  destruct (search repo_pattern d) as [m|].
  { destruct (on_indexed_spec m j0) as [A [B|[B1 B2]]];
      (split; [exact A|]); [left; congruence | right; auto]. }
  destruct (search total_pattern d) as [m|].
  { simpl. split; [lia | left; exact G0]. }
  destruct (search repo_name_pattern d) as [m|].
  { destruct (on_named_spec m j0 ltac:(lia)) as [A [B|[B1 B2]]];
      (split; [exact A|]); [left; congruence | right; auto]. }
  simpl. split; [lia | left; exact G0].
Qed.

Lemma progress_trace_nonneg (lines : list string) :
  forall j,
    0 <= progress j -> 0 <= processed_repos j ->
    Forall (fun p => 0 <= p) (progress_trace lines j).
Proof.
  induction lines as [|raw rest IH]; intros j Hr Hp; cbn [progress_trace];
    [constructor|].
  destruct (cancelled j); [constructor|].
  destruct (stderr_line_spec raw j Hp) as [Hp' Hg].
  assert (L : 0 <= progress (job_of (stderr_line raw j))).
  { destruct Hg as [->|(_ & Ht & ->)]; [lia|].
    apply percent_spec_nonneg; lia. }
  destruct (stderr_line raw j) as [j'|e j']; cbn [job_of] in *.
  - constructor; [exact L | apply IH; assumption].
  - repeat constructor; exact L.
Qed.

Lemma progress_trace_le_100 (lines : list string) :
  forall j,
    progress j <= 100 -> 0 <= processed_repos j ->
    within_total lines j ->
    Forall (fun p => p <= 100) (progress_trace lines j).
Proof.
  induction lines as [|raw rest IH]; intros j Hr Hp Hw;
    cbn [progress_trace within_total] in *; [constructor|].
  destruct (cancelled j); [constructor|].
  specialize (Hw eq_refl). destruct Hw as [Hw Hrest].
  destruct (stderr_line_spec raw j Hp) as [Hp' Hg].
  assert (U : progress (job_of (stderr_line raw j)) <= 100).
  { destruct Hg as [->|(Hrc & Ht & ->)]; [lia|].
    apply percent_spec_le_100; [|lia]. split; [exact Hp'|].
    apply Hw; assumption. }
  destruct (stderr_line raw j) as [j'|e j']; cbn [job_of] in *.
  - constructor; [exact U | apply IH; assumption].
  - repeat constructor; exact U.
Qed.

Lemma last_cons_default {A : Type} (l : list A) :
  forall x d d', last (x :: l) d = last (x :: l) d'.
Proof.
  induction l as [|y l IH]; intros x d d'; [reflexivity|].
  change (last (y :: l) d = last (y :: l) d'). apply IH.
Qed.

(** The progress of the job [read_stderr] leaves is the last value of the
    trace, or the initial one when no line was processed. *)
Lemma read_stderr_progress (lines : list string) :
  forall j,
    progress (job_of (read_stderr lines j))
    = last (progress_trace lines j) (progress j).
Proof.
  induction lines as [|raw rest IH]; intros j;
    cbn [read_stderr progress_trace]; [reflexivity|].
  destruct (cancelled j); [reflexivity|].
  destruct (stderr_line raw j) as [j'|e j']; cbn [job_of]; [|reflexivity].
  rewrite IH. destruct (progress_trace rest j') as [|z l]; [reflexivity|].
  change (last (z :: l) (progress j') = last (z :: l) (progress j)).
  apply last_cons_default.
Qed.

(** C2, as the code has it: whatever diagnostic lines the stream reader
    processes, the progress field of a job that starts in 0..100 with a
    non-negative processed count stays a non-negative integer; it stays at
    most 100 as long as, each time the percentage is recomputed, the
    processed count does not exceed the total. *)
Theorem progress_range (lines : list string) (j : AnalysisJob) :
  0 <= progress j <= 100 ->
  0 <= processed_repos j ->
  Forall (fun p => 0 <= p) (progress_trace lines j)
  /\ 0 <= progress (job_of (read_stderr lines j))
  /\ (within_total lines j ->
      Forall (fun p => 0 <= p <= 100) (progress_trace lines j)
      /\ 0 <= progress (job_of (read_stderr lines j)) <= 100).
Proof.
  intros Hr Hp.
  pose proof (progress_trace_nonneg lines j ltac:(lia) Hp) as L.
  assert (Hlast : forall (P : Z -> Prop) l d,
             Forall P l -> P d -> P (last l d)).
  { intros P l d Hl Hd. induction Hl as [|x l Hx Hl IH]; [exact Hd|].
    simpl. destruct l; [exact Hx | exact IH]. }
  split; [exact L|]. rewrite read_stderr_progress.
  split; [apply (Hlast (fun p => 0 <= p)); [exact L | lia]|].
  intros Hw.
  pose proof (progress_trace_le_100 lines j ltac:(lia) Hp Hw) as U.
  assert (LU : Forall (fun p => 0 <= p <= 100) (progress_trace lines j)).
  { rewrite Forall_forall in *. intros p Hin. split; [apply L | apply U];
      exact Hin. }
  split; [exact LU|].
  apply (Hlast (fun p => 0 <= p <= 100)); [exact LU | lia].
Qed.

Lemma progress_range_witness :
  progress_trace orderly_lines running_job = [0; 33; 66; 66; 100]
  /\ Forall (fun p => 0 <= p <= 100) (progress_trace orderly_lines running_job)
  /\ 0 <= progress (job_of (read_stderr orderly_lines running_job)) <= 100.
Proof.
  split; [vm_compute; reflexivity|].
  apply (proj2 (proj2 (progress_range orderly_lines running_job
                         ltac:(vm_compute; split; discriminate)
                         ltac:(vm_compute; discriminate)))).
  vm_compute. repeat split; intros; try discriminate.
Defined.

(** On [past_total_lines] two items are counted against a total of one and
    the progress reaches 200. *)
Lemma progress_exceeds_100 :
  progress (job_of (read_stderr past_total_lines running_job)) = 200
  /\ status (job_of (read_stderr past_total_lines running_job)) = RUNNING
  /\ ~ (0 <= progress (job_of (read_stderr past_total_lines running_job))
        <= 100).
Proof.
  assert (E : progress (job_of (read_stderr past_total_lines running_job))
              = 200) by (vm_compute; reflexivity).
  split; [exact E|]. split; [vm_compute; reflexivity|].
  rewrite E. lia.
Qed.

Lemma progress_step_monotone (raw : string) (j : AnalysisJob) (n0 m0 : Z) :
  0 <= n0 -> 0 < m0 ->
  progress j <= percent_spec n0 m0 ->
  0 <= processed_repos j ->
  let j' := job_of (stderr_line raw j) in
  (if recomputes (PyText.strip raw) && (0 <? total_repos j')
   then n0 * total_repos j' <= processed_repos j' * m0
   else True) ->
  progress j <= progress j'
  /\ 0 <= processed_repos j'
  /\ (if recomputes (PyText.strip raw) && (0 <? total_repos j')
      then progress j' <= percent_spec (processed_repos j') (total_repos j')
           /\ 0 < total_repos j'
      else progress j' <= percent_spec n0 m0).
Proof.
  intros Hn Hm Hinv Hp j' Hratio.
  destruct (stderr_line_spec raw j Hp) as [Hp' Hg]. fold j' in Hp', Hg.
  destruct (recomputes (PyText.strip raw) && (0 <? total_repos j')) eqn:C.
  - apply andb_true_iff in C as [_ Ht]. apply Z.ltb_lt in Ht.
    pose proof (percent_spec_mono n0 m0 (processed_repos j') (total_repos j')
                  Hn Hm Ht Hratio) as M.
    destruct Hg as [E|(_ & _ & E)]; rewrite E; repeat split; lia.
  - destruct Hg as [E|(Hrc & Ht & _)].
    + rewrite E. repeat split; lia.
    + apply Z.ltb_lt in Ht. rewrite Hrc, Ht in C. discriminate.
Qed.

(** C3, as the code has it: while the stream reader processes diagnostic
    lines (the status stays as it is, [RUNNING] during a run), the values
    the progress field takes never decrease, provided that each time the
    percentage is recomputed the ratio of the processed count to the total
    is at least what it was the previous time.  Lines that match no
    recognizer, or the total-discovery one, leave the progress as it is. *)
Theorem progress_monotone (lines : list string) :
  forall (j : AnalysisJob) (n0 m0 : Z),
    0 <= n0 -> 0 < m0 ->
    progress j <= percent_spec n0 m0 ->
    0 <= processed_repos j ->
    ratio_nondecreasing lines j n0 m0 ->
    StronglySorted Z.le (progress j :: progress_trace lines j).
Proof.
  induction lines as [|raw rest IH]; intros j n0 m0 Hn Hm Hinv Hp Hr;
    cbn [progress_trace ratio_nondecreasing] in *.
  - repeat constructor.
  - destruct (cancelled j); [repeat constructor|].
    specialize (Hr eq_refl). cbv zeta in Hr.
    pose proof (progress_step_monotone raw j n0 m0 Hn Hm Hinv Hp) as S.
    cbv zeta in S.
    assert (T : StronglySorted Z.le
                  (progress (job_of (stderr_line raw j))
                     :: match stderr_line raw j with
                        | Normal j' => progress_trace rest j'
                        | Raised _ _ => []
                        end)
                /\ progress j <= progress (job_of (stderr_line raw j))).
    { destruct (recomputes (PyText.strip raw)
                && (0 <? total_repos (job_of (stderr_line raw j)))).
      - destruct Hr as [Hratio Hrest].
        destruct (S Hratio) as (Hle & Hp' & Hinv' & Ht').
        split; [|exact Hle].
        destruct (stderr_line raw j) as [j'|e j']; cbn [job_of] in *.
        + apply (IH j' (processed_repos j') (total_repos j')); assumption.
        + repeat constructor.
      - destruct (S I) as (Hle & Hp' & Hinv').
        split; [|exact Hle].
        destruct (stderr_line raw j) as [j'|e j']; cbn [job_of] in *.
        + apply (IH j' n0 m0); assumption.
        + repeat constructor. }
    destruct T as [T Hle].
    assert (F : Forall (Z.le (progress (job_of (stderr_line raw j))))
                  match stderr_line raw j with
                  | Normal j' => progress_trace rest j'
                  | Raised _ _ => []
                  end)
      by (inversion T; assumption).
    destruct (stderr_line raw j) as [j'|e j']; cbn [job_of] in *.
    + constructor; [exact T|]. constructor; [exact Hle|].
      eapply Forall_impl; [|exact F]. cbv beta. intros p Hpp. lia.
    + constructor; [exact T|]. constructor; [exact Hle | constructor].
Qed.

Lemma read_stderr_status (lines : list string) :
  forall j, status (job_of (read_stderr lines j)) = status j.
Proof.
  assert (U : forall x, status (job_of (update_progress x)) = status x).
  { intros x. unfold update_progress.
    destruct (total_repos x >? 0); [|reflexivity].
    destruct (percent _ _); reflexivity. }
  assert (S : forall raw j, status (job_of (stderr_line raw j)) = status j).
  { intros raw j. unfold stderr_line, parse_progress.
    set (j0 := if PyText.nonempty (PyText.strip raw)
               then append_output (PyText.strip raw) j else j).
    assert (E0 : status j0 = status j)
      by (unfold j0; destruct (PyText.nonempty _); reflexivity).
    destruct (search repo_pattern _) as [m|].
    { unfold on_indexed.
      match goal with |- context [update_progress ?x] =>
        pose proof (U x) as H; destruct (update_progress x) end;
        simpl in *; rewrite H;
        (destruct (group 3 m) as [g|]; [destruct (PyText.nonempty g)|]);
        exact E0. }
    destruct (search total_pattern _) as [m|]; [exact E0|].
    destruct (search repo_name_pattern _) as [m|]; [|exact E0].
    unfold on_named.
    match goal with |- context [update_progress ?x] =>
      pose proof (U x) as H; destruct (update_progress x) end;
      simpl in *; rewrite H; exact E0. }
  induction lines as [|raw rest IH]; intros j; cbn [read_stderr];
    [reflexivity|].
  destruct (cancelled j); [reflexivity|].
  pose proof (S raw j) as H.
  destruct (stderr_line raw j) as [j'|e j']; cbn [job_of] in *;
    [rewrite IH|]; exact H.
Qed.

Lemma progress_monotone_witness :
  progress_trace orderly_lines running_job = [0; 33; 66; 66; 100]
  /\ StronglySorted Z.le
       (progress running_job :: progress_trace orderly_lines running_job).
Proof.
  split; [vm_compute; reflexivity|].
  apply (progress_monotone orderly_lines running_job 0 1).
  - lia.
  - lia.
  - vm_compute. discriminate.
  - vm_compute. discriminate.
  - vm_compute. repeat split; intros; try discriminate.
Defined.

(** On [falling_lines] the job stays [RUNNING] and its progress goes from
    50 down to 20. *)
Lemma progress_decreases :
  progress_trace falling_lines running_job = [50; 20]
  /\ status (job_of (read_stderr falling_lines running_job)) = RUNNING
  /\ ~ StronglySorted Z.le
         (progress running_job :: progress_trace falling_lines running_job).
Proof.
  assert (E : progress_trace falling_lines running_job = [50; 20])
    by (vm_compute; reflexivity).
  split; [exact E|]. split; [vm_compute; reflexivity|].
  rewrite E. intros H. inversion H as [|? ? H1 _]; subst.
  inversion H1 as [|? ? _ H2]; subst.
  inversion H2 as [|? ? H3 _]; subst. lia.
Qed.

(** * Further properties of the service *)

(** ** The registry: storing and looking up *)

Lemma get_job_store_same (id : string) (job : AnalysisJob) (reg : registry) :
  get_job (store id job reg) id = Some job.
Proof.
  induction reg as [|[id' job'] reg IH]; simpl.
  - rewrite String.eqb_refl. reflexivity.
  - destruct (String.eqb_spec id id') as [E|NE]; simpl.
    + rewrite E, String.eqb_refl. reflexivity.
    + destruct (String.eqb_spec id id'); [contradiction | exact IH].
Qed.

Lemma get_job_store_other (id id' : string) (job : AnalysisJob)
  (reg : registry) :
  id' <> id -> get_job (store id job reg) id' = get_job reg id'.
Proof.
  intros NE. induction reg as [|[i0 j0] reg IH]; simpl.
  - destruct (String.eqb_spec id' id); [contradiction | reflexivity].
  - destruct (String.eqb_spec id i0) as [E|N0]; simpl.
    + subst i0. destruct (String.eqb_spec id' id); [contradiction | reflexivity].
    + destruct (String.eqb_spec id' i0); [reflexivity | exact IH].
Qed.

Lemma get_job_some_in (reg : registry) (id : string) (job : AnalysisJob) :
  get_job reg id = Some job -> In id (map fst reg).
Proof.
  induction reg as [|[i0 j0] reg IH]; simpl; [discriminate|].
  destruct (String.eqb_spec id i0) as [E|NE]; [left; auto | right; auto].
Qed.

Lemma store_ids (id : string) (job : AnalysisJob) (reg : registry) :
  In id (map fst reg) -> map fst (store id job reg) = map fst reg.
Proof.
  induction reg as [|[i0 j0] reg IH]; simpl; [contradiction|].
  intros H. destruct (String.eqb_spec id i0) as [E|NE]; simpl; [reflexivity|].
  f_equal. apply IH. destruct H as [H|H]; [congruence | exact H].
Qed.

Lemma store_store (id : string) (a b : AnalysisJob) (reg : registry) :
  store id b (store id a reg) = store id b reg.
Proof.
  induction reg as [|[i0 j0] reg IH]; simpl.
  - rewrite String.eqb_refl. reflexivity.
  - destruct (String.eqb_spec id i0) as [E|NE]; simpl.
    + rewrite E, String.eqb_refl. reflexivity.
    + destruct (String.eqb_spec id i0); [contradiction|]. now rewrite IH.
Qed.

(** X1, [create_job] then [get_job]: whatever the registry holds, the job
    registered under the fresh identifier is the one found under it
    afterwards, and it is pending, carries the given configuration and the
    identifier it is filed under, and has not started. *)
Theorem create_job_then_get_job (fresh : string) (c : AnalysisConfig)
  (reg : registry) :
  get_job (snd (create_job fresh c reg)) fresh = Some (fst (create_job fresh c reg))
  /\ job_id (fst (create_job fresh c reg)) = fresh
  /\ config (fst (create_job fresh c reg)) = c
  /\ status (fst (create_job fresh c reg)) = PENDING
  /\ started_at (fst (create_job fresh c reg)) = None
  /\ cancelled (fst (create_job fresh c reg)) = false.
Proof.
  unfold create_job; simpl. split; [apply get_job_store_same|].
  repeat split.
Qed.

(** X2, [create_job] and the other jobs: registering a job changes what is
    found under no other identifier. *)
Theorem create_job_keeps_other_jobs (fresh id : string) (c : AnalysisConfig)
  (reg : registry) :
  id <> fresh ->
  get_job (snd (create_job fresh c reg)) id = get_job reg id.
Proof.
  intros NE. unfold create_job; simpl. now apply get_job_store_other.
Qed.

Lemma create_job_keeps_other_jobs_witness :
  "k1" <> "k3"
  /\ get_job (snd (create_job "k3" default_config two_jobs)) "k1"
     = get_job two_jobs "k1".
Proof.
  split; [discriminate|].
  apply (create_job_keeps_other_jobs "k3" "k1" default_config two_jobs).
  discriminate.
Defined.

(** ** Cancellation of a running job *)

(** X3, [cancel_job] on a running job: the job found under the identifier
    afterwards has its cancellation flag set and the message
    [Cancelling...], is still running and keeps its child process, its
    progress and its results, whatever the answer; the answer is the
    error text when the job has a child process and terminating it
    raised, and a success otherwise. *)
Theorem cancel_job_running (reg : registry) (id : string) (job : AnalysisJob)
  (o : terminate_outcome) :
  get_job reg id = Some job ->
  status job = RUNNING ->
  (exists job', get_job (snd (cancel_job reg id o)) id = Some job'
                /\ cancelled job' = true
                /\ message job' = "Cancelling..."
                /\ status job' = RUNNING
                /\ _process job' = _process job
                /\ progress job' = progress job
                /\ results job' = results job)
  /\ fst (cancel_job reg id o)
     = match _process job, o with
       | Some _, TerminateRaised e =>
           (false, "Error terminating process: " ++ str_exn e)
       | _, _ => (true, "Job cancellation requested")
       end.
Proof.
  intros Hg Hs. unfold cancel_job. rewrite Hg, Hs. cbn [status_eqb negb].
  split.
  - exists (request_cancel job).
    assert (E : forall a : bool * string,
               get_job (snd (a, store id (request_cancel job) reg)) id
               = Some (request_cancel job))
      by (intros a; apply get_job_store_same).
    split.
    + destruct (_process job); [destruct o|]; apply E.
    + repeat split; assumption.
  - destruct (_process job) as [p|]; [|reflexivity].
    destruct o; reflexivity.
Qed.

Lemma cancel_job_running_witness :
  exists job', get_job (snd (cancel_job [("k1", running_job)] "k1" Killed)) "k1"
               = Some job'
               /\ cancelled job' = true.
Proof.
  destruct (cancel_job_running [("k1", running_job)] "k1" running_job Killed
              eq_refl eq_refl) as [(job' & G & C & _) _].
  exists job'. split; assumption.
Defined.

(** X4, [cancel_job] and the other jobs: whatever the answer, what is found
    under any other identifier is unchanged, and so are the identifiers the
    registry holds and their order. *)
Theorem cancel_job_keeps_other_jobs (reg : registry) (id id' : string)
  (o : terminate_outcome) :
  map fst (snd (cancel_job reg id o)) = map fst reg
  /\ (id' <> id ->
      get_job (snd (cancel_job reg id o)) id' = get_job reg id').
Proof.
  unfold cancel_job. destruct (get_job reg id) as [job|] eqn:Hg;
    [|split; reflexivity].
  destruct (negb (status_eqb (status job) RUNNING)); [split; reflexivity|].
  assert (E : forall a : bool * string,
             map fst (snd (a, store id (request_cancel job) reg)) = map fst reg
             /\ (id' <> id ->
                 get_job (snd (a, store id (request_cancel job) reg)) id'
                 = get_job reg id')).
  { intros a. simpl. split.
    - apply store_ids. eapply get_job_some_in; eassumption.
    - intros NE. now apply get_job_store_other. }
  destruct (_process job); [destruct o|]; apply E.
Qed.

Lemma cancel_job_keeps_other_jobs_witness :
  "k2" <> "k1"
  /\ get_job (snd (cancel_job two_jobs "k1" Exited)) "k2" = get_job two_jobs "k2".
Proof.
  split; [discriminate|].
  apply (cancel_job_keeps_other_jobs two_jobs "k1" "k2" Exited). discriminate.
Defined.

(** X5, cancelling twice: a second request on the same job leaves the
    registry as the first one left it. *)
Theorem cancel_job_twice (reg : registry) (id : string)
  (o o' : terminate_outcome) :
  snd (cancel_job (snd (cancel_job reg id o)) id o')
  = snd (cancel_job reg id o).
Proof.
  assert (Skip : forall job a (r : registry),
             get_job r id = Some job ->
             negb (status_eqb (status job) RUNNING) = true ->
             snd (cancel_job r id a) = r).
  { intros job a r G S. unfold cancel_job. rewrite G, S. reflexivity. }
  assert (Go : forall job a (r : registry),
             get_job r id = Some job ->
             negb (status_eqb (status job) RUNNING) = false ->
             snd (cancel_job r id a) = store id (request_cancel job) r).
  { intros job a r G S. unfold cancel_job. rewrite G, S.
    destruct (_process job); [destruct a|]; reflexivity. }
  destruct (get_job reg id) as [job|] eqn:Hg.
  - destruct (negb (status_eqb (status job) RUNNING)) eqn:Hs.
    + rewrite (Skip job o reg Hg Hs). apply (Skip job o' reg Hg Hs).
    + rewrite (Go job o reg Hg Hs).
      rewrite (Go (request_cancel job) o' _ (get_job_store_same _ _ _) Hs).
      apply store_store.
  - assert (E : snd (cancel_job reg id o) = reg)
      by (unfold cancel_job; rewrite Hg; reflexivity).
    rewrite E. unfold cancel_job. rewrite Hg. reflexivity.
Qed.

(** ** What the readers leave alone *)

Lemma reader_frame_refl (j : AnalysisJob) : reader_frame j j.
Proof. unfold reader_frame. repeat split. Qed.

Lemma reader_frame_trans (a b c : AnalysisJob) :
  reader_frame a b -> reader_frame b c -> reader_frame a c.
Proof.
  unfold reader_frame. intros H1 H2.
  repeat match goal with H : _ /\ _ |- _ => destruct H end.
  repeat split; congruence.
Qed.

Lemma update_progress_frame (j : AnalysisJob) :
  reader_frame (job_of (update_progress j)) j.
Proof.
  unfold update_progress. destruct (total_repos j >? 0);
    [|apply reader_frame_refl].
  destruct (percent _ _); simpl; unfold reader_frame; repeat split.
Qed.

Lemma parse_progress_frame (d : string) (j : AnalysisJob) :
  reader_frame (job_of (parse_progress d j)) j.
Proof.
  unfold parse_progress.
  destruct (search repo_pattern d) as [m|].
  { unfold on_indexed.
    match goal with |- context [update_progress ?x] =>
      pose proof (update_progress_frame x) as H;
      assert (F : reader_frame x j)
        by (destruct (group 3 m) as [g|];
            [destruct (PyText.nonempty g)|]; unfold reader_frame;
            repeat split);
      destruct (update_progress x) end; simpl in *;
      (eapply reader_frame_trans; [|exact F]);
      (eapply reader_frame_trans; [|exact H]);
      unfold reader_frame; repeat split. }
  destruct (search total_pattern d) as [m|];
    [unfold reader_frame; repeat split|].
  destruct (search repo_name_pattern d) as [m|]; [|apply reader_frame_refl].
  unfold on_named.
  match goal with |- context [update_progress ?x] =>
    pose proof (update_progress_frame x) as H;
    assert (F : reader_frame x j) by (unfold reader_frame; repeat split);
    destruct (update_progress x) end; simpl in *;
    (eapply reader_frame_trans; [|exact F]);
    (eapply reader_frame_trans; [|exact H]);
    unfold reader_frame; repeat split.
Qed.

Lemma stderr_line_frame (raw : string) (j : AnalysisJob) :
  reader_frame (job_of (stderr_line raw j)) j.
Proof.
  unfold stderr_line.
  eapply reader_frame_trans; [apply parse_progress_frame|].
  destruct (PyText.nonempty (PyText.strip raw));
    unfold reader_frame; repeat split.
Qed.

Lemma stdout_line_frame (raw : string) (j : AnalysisJob) :
  reader_frame (stdout_line raw j) j.
Proof.
  unfold stdout_line. destruct (PyText.nonempty (PyText.strip raw));
    unfold reader_frame; repeat split.
Qed.

(** Neither reader nor a cancellation request assigns the identifier, the
    status, the configuration, the results, the errors, the two
    timestamps, the output file or the handle. *)
Lemma run_events_frame (evs : list event) :
  forall r j, reader_frame (job_of (fst (run_events evs r j))) j.
Proof.
  induction evs as [|ev evs IH]; intros r j; [apply reader_frame_refl|].
  destruct ev; simpl.
  - destruct (stderr_open r); [|apply IH].
    pose proof (stderr_line_frame raw j) as H.
    destruct (stderr_line raw j) as [j'|e j']; simpl in *.
    + eapply reader_frame_trans; [apply IH | exact H].
    + exact H.
  - destruct (stderr_open r); [apply reader_frame_refl | apply IH].
  - eapply reader_frame_trans; [apply IH | apply stdout_line_frame].
  - apply reader_frame_refl.
  - eapply reader_frame_trans; [apply IH|]. unfold reader_frame; repeat split.
Qed.

(** *** The cancellation flag is never cleared *)

Lemma update_progress_cancelled (j : AnalysisJob) :
  cancelled (job_of (update_progress j)) = cancelled j.
Proof.
  unfold update_progress. destruct (total_repos j >? 0); [|reflexivity].
  destruct (percent _ _); reflexivity.
Qed.

Lemma parse_progress_cancelled (d : string) (j : AnalysisJob) :
  cancelled (job_of (parse_progress d j)) = cancelled j.
Proof.
  unfold parse_progress.
  destruct (search repo_pattern d) as [m|].
  { unfold on_indexed.
    match goal with |- context [update_progress ?x] =>
      pose proof (update_progress_cancelled x) as H;
      destruct (update_progress x) end; simpl in *; rewrite H;
      (destruct (group 3 m) as [g|]; [destruct (PyText.nonempty g)|]);
      reflexivity. }
  destruct (search total_pattern d) as [m|]; [reflexivity|].
  destruct (search repo_name_pattern d) as [m|]; [|reflexivity].
  unfold on_named.
  match goal with |- context [update_progress ?x] =>
    pose proof (update_progress_cancelled x) as H;
    destruct (update_progress x) end; simpl in *; rewrite H; reflexivity.
Qed.

Lemma stderr_line_cancelled (raw : string) (j : AnalysisJob) :
  cancelled (job_of (stderr_line raw j)) = cancelled j.
Proof.
  unfold stderr_line. rewrite parse_progress_cancelled.
  destruct (PyText.nonempty (PyText.strip raw)); reflexivity.
Qed.

Lemma stdout_line_cancelled (raw : string) (j : AnalysisJob) :
  cancelled (stdout_line raw j) = cancelled j.
Proof.
  unfold stdout_line. destruct (PyText.nonempty (PyText.strip raw));
    reflexivity.
Qed.

Lemma run_events_cancelled (evs : list event) :
  forall r j, cancelled j = true ->
              cancelled (job_of (fst (run_events evs r j))) = true.
Proof.
  induction evs as [|ev evs IH]; intros r j Hc; [exact Hc|].
  destruct ev; simpl.
  - destruct (stderr_open r); [|now apply IH].
    pose proof (stderr_line_cancelled raw j) as H.
    destruct (stderr_line raw j) as [j'|e j']; simpl in *.
    + apply IH. congruence.
    + congruence.
  - destruct (stderr_open r); [exact Hc | now apply IH].
  - apply IH. now rewrite stdout_line_cancelled.
  - exact Hc.
  - apply IH. reflexivity.
Qed.

(** A cancellation request among the events leaves the flag set when the
    readers return, unless one of them raised before. *)
Lemma run_events_cancel_request (evs : list event) :
  forall r j, In CancelRequest evs ->
    match fst (run_events evs r j) with
    | Normal j' => cancelled j' = true
    | Raised _ _ => True
    end.
Proof.
  induction evs as [|ev evs IH]; intros r j Hin; [contradiction|].
  destruct Hin as [E|Hin].
  - subst ev. simpl.
    pose proof (run_events_cancelled evs r (request_cancel j) eq_refl) as H.
    destruct (fst (run_events evs r (request_cancel j))); [exact H | exact I].
  - destruct ev; simpl.
    + destruct (stderr_open r); [|now apply IH].
      destruct (stderr_line raw j) as [j'|e j']; [now apply IH | exact I].
    + destruct (stderr_open r); [exact I | now apply IH].
    + now apply IH.
    + exact I.
    + now apply IH.
Qed.

(** ** The course of a run *)

(** The three ways a run ends: the [except] clause after an exception
    raised before the readers returned, the end of the [try] body, or the
    [except] clause after the body had ended and leaving the [with] block
    raised.  The job [j1] is the job as the readers left it. *)
Lemma run_job_cases (env : run_env) (j : AnalysisJob) :
  exists j1,
    job_id j1 = job_id j /\ config j1 = config j /\ results j1 = results j
    /\ errors j1 = errors j /\ output_file j1 = output_file j
    /\ status j1 = RUNNING /\ started_at j1 = Some (clock_start env)
    /\ ((exists e, run_job env j = on_exception e (clock_end env) j1)
        \/ (exists r, prepare env = None /\ (exists p, spawn env = inr p)
                      /\ (In CancelRequest (events env) -> cancelled j1 = true)
                      /\ ((cleanup env = None
                           /\ run_job env j = finish env r j1)
                          \/ (exists e, cleanup env = Some e
                                /\ run_job env j
                                   = on_exception e (clock_end env)
                                       (finish env r j1))))).
Proof.
  unfold run_job, supervise.
  destruct (prepare env) as [e|] eqn:Hp.
  { match goal with |- context [Raised e ?x] => exists x end.
    do 7 (split; [reflexivity|]). left.
    destruct (cleanup env) as [e'|]; eexists; reflexivity. }
  destruct (spawn env) as [e|p] eqn:Hs.
  { match goal with |- context [Raised e ?x] => exists x end.
    split; [|split; [|split; [|split; [|split; [|split; [|split]]]]]];
      [..|left; destruct (cleanup env) as [e'|]; eexists; reflexivity];
      cbn [config set_message set_started_at set_status];
      destruct (repo_list (config j)); reflexivity. }
  match goal with |- context [run_events ?evs ?r ?x] =>
    pose proof (run_events_frame evs r x) as F;
    pose proof (run_events_cancel_request evs r x) as C;
    assert (X : job_id x = job_id j /\ config x = config j
                /\ results x = results j /\ errors x = errors j
                /\ output_file x = output_file j /\ status x = RUNNING
                /\ started_at x = Some (clock_start env))
      by (cbn [config set_message set_started_at set_status];
          destruct (repo_list (config j)); repeat split);
    destruct (run_events evs r x) as [[j1|e j1] r1] end;
    cbn [fst job_of] in F, C; unfold reader_frame in F;
    destruct F as (F1 & F2 & F3 & F4 & F5 & F6 & F7 & F8 & F9);
    destruct X as (X1 & X2 & X3 & X4 & X5 & X6 & X7);
    exists j1;
    (split; [congruence|]); (split; [congruence|]); (split; [congruence|]);
    (split; [congruence|]); (split; [congruence|]); (split; [congruence|]);
    (split; [congruence|]).
  - right. exists r1. split; [reflexivity|]. split; [exists p; reflexivity|].
    split; [exact C|].
    destruct (cleanup env) as [e'|]; [right; exists e'|left]; split; try reflexivity.
  - left. destruct (cleanup env) as [e'|]; eexists; reflexivity.
Qed.

Lemma finish_fields (env : run_env) (r : readers) (j : AnalysisJob) :
  job_id (finish env r j) = job_id j
  /\ config (finish env r j) = config j
  /\ started_at (finish env r j) = started_at j
  /\ completed_at (finish env r j) = Some (clock_end env)
  /\ cancelled (finish env r j) = cancelled j.
Proof.
  unfold finish. cbn [cancelled set__process].
  destruct (cancelled j) eqn:Ec; [repeat split; exact Ec|].
  destruct (negb (returncode env =? 0)).
  - unfold finish_failed. destruct (stderr_output r); repeat split; exact Ec.
  - unfold finish_completed. destruct (csv_files env) as [|[path a] fs];
      repeat split; exact Ec.
Qed.

(** X6, the end of a run: whatever the environment does, [run_analysis]
    leaves the job completed or failed, with the two timestamps set to the
    first and the last reading of the clock, no current item, and the
    identifier and the configuration it had. *)
Theorem run_job_terminal (env : run_env) (j : AnalysisJob) :
  (status (run_job env j) = COMPLETED \/ status (run_job env j) = FAILED)
  /\ started_at (run_job env j) = Some (clock_start env)
  /\ completed_at (run_job env j) = Some (clock_end env)
  /\ current_repo (run_job env j) = None
  /\ job_id (run_job env j) = job_id j
  /\ config (run_job env j) = config j.
Proof.
  destruct (run_job_cases env j)
    as (j1 & I1 & I2 & I3 & I4 & I5 & I6 & I7 & Hcase).
  destruct Hcase as [[e E]|(r & _ & _ & _ & [[_ E]|(e & _ & E)])]; rewrite E.
  - cbn. repeat split; auto.
  - destruct (finish_clears_handle env r j1) as (_ & B & C).
    destruct (finish_fields env r j1) as (G1 & G2 & G3 & G4 & _).
    repeat split; try congruence. tauto.
  - destruct (finish_fields env r j1) as (G1 & G2 & G3 & G4 & _).
    cbn. repeat split; auto; congruence.
Qed.

(** X7, a completed run: the job ends completed only when the run raised
    nothing, the child exited with code 0 and no cancellation was
    requested; it then shows 100 percent, holds no child process, is not
    cancelled and has the errors it had before. *)
Theorem run_job_completed (env : run_env) (j : AnalysisJob) :
  status (run_job env j) = COMPLETED ->
  progress (run_job env j) = 100
  /\ _process (run_job env j) = None
  /\ cancelled (run_job env j) = false
  /\ errors (run_job env j) = errors j
  /\ returncode env = 0
  /\ prepare env = None /\ cleanup env = None
  /\ (exists p, spawn env = inr p)
  /\ ~ In CancelRequest (events env).
Proof.
  destruct (run_job_cases env j)
    as (j1 & I1 & I2 & I3 & I4 & I5 & I6 & I7 & Hcase).
  destruct Hcase as [[e E]|(r & Hp & Hs & Hc & [[Hcl E]|(e & _ & E)])];
    rewrite E; try (cbn; discriminate).
  unfold finish. cbn [cancelled set__process].
  destruct (cancelled j1) eqn:Ec; [cbn; discriminate|].
  destruct (Z.eqb_spec (returncode env) 0) as [Hrc|Hrc]; cbn [negb].
  - intros _. unfold finish_completed.
    assert (Hn : ~ In CancelRequest (events env))
      by (intros Hin; specialize (Hc Hin); congruence).
    destruct (csv_files env) as [|[path a] fs]; cbn; repeat split; auto.
  - unfold finish_failed. destruct (stderr_output r); cbn; discriminate.
Qed.

Lemma run_job_completed_witness :
  status (run_job {| clock_start := 5%N; prepare := None;
                     spawn := inr 1%positive;
                     events := map StderrLine orderly_lines;
                     returncode := 0; csv_files := []; cleanup := None;
                     clock_end := 9%N |} sample_job) = COMPLETED
  /\ progress (run_job {| clock_start := 5%N; prepare := None;
                          spawn := inr 1%positive;
                          events := map StderrLine orderly_lines;
                          returncode := 0; csv_files := []; cleanup := None;
                          clock_end := 9%N |} sample_job) = 100.
Proof.
  split; [vm_compute; reflexivity|].
  apply (run_job_completed
           {| clock_start := 5%N; prepare := None; spawn := inr 1%positive;
              events := map StderrLine orderly_lines;
              returncode := 0; csv_files := []; cleanup := None;
              clock_end := 9%N |} sample_job).
  vm_compute. reflexivity.
Defined.

(** X8, the error list of a run: a run only appends to the error list; a
    completed run appends nothing, and a failed run whose job is not
    flagged as cancelled appends at least one message. *)
Theorem run_job_errors (env : run_env) (j : AnalysisJob) :
  exists added,
    errors (run_job env j) = (errors j ++ added)%list
    /\ (status (run_job env j) = COMPLETED -> added = [])
    /\ (status (run_job env j) = FAILED ->
        cancelled (run_job env j) = false -> added <> []).
Proof.
  assert (Hfin : forall r j1,
             exists added,
               errors (finish env r j1) = (errors j1 ++ added)%list
               /\ (status (finish env r j1) = COMPLETED -> added = [])
               /\ (status (finish env r j1) = FAILED ->
                   cancelled j1 = false -> added <> [])).
  { intros r j1. unfold finish. cbn [cancelled set__process].
    destruct (cancelled j1) eqn:Ec.
    - exists []. cbn. rewrite app_nil_r. repeat split; congruence.
    - destruct (negb (returncode env =? 0)).
      + unfold finish_failed. destruct (stderr_output r) as [|l ls].
        * eexists. cbn. split; [reflexivity|]. split; discriminate.
        * eexists. cbn. rewrite <- app_assoc.
          split; [reflexivity|]. split; discriminate.
      + exists []. unfold finish_completed.
        destruct (csv_files env) as [|[path a] fs]; cbn; rewrite app_nil_r;
          repeat split; discriminate. }
  destruct (run_job_cases env j)
    as (j1 & I1 & I2 & I3 & I4 & I5 & I6 & I7 & Hcase).
  destruct Hcase as [[e E]|(r & _ & _ & _ & [[_ E]|(e & _ & E)])]; rewrite E.
  - exists [str_exn e]. cbn. rewrite I4.
    split; [reflexivity|]. split; discriminate.
  - destruct (Hfin r j1) as (added & A & B & C). exists added.
    rewrite A, I4. split; [reflexivity|]. split; [exact B|].
    destruct (finish_fields env r j1) as (_ & _ & _ & _ & G). rewrite G.
    exact C.
  - destruct (Hfin r j1) as (added & A & _). exists (added ++ [str_exn e])%list.
    cbn. rewrite A, I4, <- app_assoc.
    split; [reflexivity|]. split; [discriminate|].
    intros _ _. destruct added; discriminate.
Qed.

Lemma run_job_errors_witness :
  exists added,
    errors (run_job overflow_env sample_job) = (errors sample_job ++ added)%list
    /\ added <> [].
Proof.
  destruct (run_job_errors overflow_env sample_job) as (added & A & _ & C).
  exists added. split; [exact A|].
  apply C; vm_compute; reflexivity.
Defined.

(** X9, a run with a cancellation request: when a request to cancel
    arrives while the readers run, the job ends failed, never completed,
    whatever the exit code of the child, and its results and output file
    are not assigned; its message is the cancellation notice unless an
    exception was raised. *)
Theorem run_job_cancel_request (env : run_env) (j : AnalysisJob) :
  In CancelRequest (events env) ->
  status (run_job env j) = FAILED
  /\ results (run_job env j) = results j
  /\ output_file (run_job env j) = output_file j
  /\ (message (run_job env j) = "Analysis cancelled by user"
      \/ exists e, message (run_job env j) = "Analysis failed: " ++ str_exn e).
Proof.
  intros Hin.
  assert (Hfin : forall r j1, cancelled j1 = true ->
             status (finish env r j1) = FAILED
             /\ results (finish env r j1) = results j1
             /\ output_file (finish env r j1) = output_file j1
             /\ message (finish env r j1) = "Analysis cancelled by user").
  { intros r j1 Ec. unfold finish. cbn [cancelled set__process]. rewrite Ec.
    repeat split. }
  destruct (run_job_cases env j)
    as (j1 & I1 & I2 & I3 & I4 & I5 & I6 & I7 & Hcase).
  destruct Hcase as [[e E]|(r & _ & _ & Hc & [[_ E]|(e & _ & E)])]; rewrite E.
  - cbn. repeat split; auto. right. exists e. reflexivity.
  - destruct (Hfin r j1 (Hc Hin)) as (A & B & C & D).
    repeat split; try congruence. left. exact D.
  - destruct (Hfin r j1 (Hc Hin)) as (A & B & C & D).
    cbn. repeat split; try congruence. right. exists e. reflexivity.
Qed.

Lemma run_job_cancel_request_witness :
  In CancelRequest [StderrLine "Found 3 repositories"; CancelRequest]
  /\ status (run_job {| clock_start := 5%N; prepare := None;
                        spawn := inr 1%positive;
                        events := [StderrLine "Found 3 repositories";
                                   CancelRequest];
                        returncode := 0; csv_files := []; cleanup := None;
                        clock_end := 9%N |} sample_job) = FAILED.
Proof.
  split; [right; left; reflexivity|].
  apply (run_job_cancel_request
           {| clock_start := 5%N; prepare := None; spawn := inr 1%positive;
              events := [StderrLine "Found 3 repositories"; CancelRequest];
              returncode := 0; csv_files := []; cleanup := None;
              clock_end := 9%N |} sample_job).
  right; left; reflexivity.
Defined.

(** X10, [run_analysis] and the registry: a run on an identifier that is
    not registered leaves the registry as it is; a run changes what is
    found under no other identifier, and keeps the identifiers the registry
    holds and their order. *)
Theorem run_analysis_touches_one_job (env : run_env) (id id' : string)
  (reg : registry) :
  (get_job reg id = None -> run_analysis env id reg = reg)
  /\ map fst (run_analysis env id reg) = map fst reg
  /\ (id' <> id -> get_job (run_analysis env id reg) id' = get_job reg id')
  /\ (forall job, get_job reg id = Some job ->
                  get_job (run_analysis env id reg) id = Some (run_job env job)).
Proof.
  unfold run_analysis. destruct (get_job reg id) as [job|] eqn:Hg.
  - split; [discriminate|]. split.
    + apply store_ids. eapply get_job_some_in; eassumption.
    + split.
      * intros NE. now apply get_job_store_other.
      * intros job' E. inversion E. subst job'. apply get_job_store_same.
  - repeat split. discriminate.
Qed.

Lemma run_analysis_touches_one_job_witness :
  get_job (run_analysis overflow_env "k1" two_jobs) "k2" = get_job two_jobs "k2"
  /\ run_analysis overflow_env "k9" two_jobs = two_jobs.
Proof.
  destruct (run_analysis_touches_one_job overflow_env "k1" "k2" two_jobs)
    as (_ & _ & A & _).
  destruct (run_analysis_touches_one_job overflow_env "k9" "k2" two_jobs)
    as (B & _).
  split; [apply A; discriminate | apply B; reflexivity].
Defined.

(** X11, the results of a completed run: when the job ends completed and
    the run left an output file, the results are the rows ingested from
    the first such file, both counters equal their number and the message
    reports it; when it left none, the results are untouched. *)
Theorem run_job_ingests_first_file (env : run_env) (j : AnalysisJob) :
  status (run_job env j) = COMPLETED ->
  match csv_files env with
  | (path, a) :: _ =>
      results (run_job env j) = parse_csv_results a
      /\ output_file (run_job env j) = Some path
      /\ total_repos (run_job env j)
         = Z.of_nat (List.length (parse_csv_results a))
      /\ processed_repos (run_job env j)
         = Z.of_nat (List.length (parse_csv_results a))
      /\ message (run_job env j)
         = "Analysis complete. Found "
           ++ PyText.str_int (Z.of_nat (List.length (parse_csv_results a)))
           ++ " repositories."
  | [] =>
      results (run_job env j) = results j
      /\ output_file (run_job env j) = output_file j
      /\ message (run_job env j) = "Analysis complete but no output file found."
  end.
Proof.
  destruct (run_job_cases env j)
    as (j1 & I1 & I2 & I3 & I4 & I5 & I6 & I7 & Hcase).
  destruct Hcase as [[e E]|(r & Hp & Hs & Hc & [[Hcl E]|(e & _ & E)])];
    rewrite E; try (cbn; discriminate).
  unfold finish. cbn [cancelled set__process].
  destruct (cancelled j1) eqn:Ec; [cbn; discriminate|].
  destruct (negb (returncode env =? 0)).
  - unfold finish_failed. destruct (stderr_output r); cbn; discriminate.
  - intros _. unfold finish_completed.
    destruct (csv_files env) as [|[path a] fs]; cbn; repeat split; auto.
Qed.

Lemma run_job_ingests_first_file_witness :
  results (run_job {| clock_start := 5%N; prepare := None;
                      spawn := inr 1%positive; events := [];
                      returncode := 0;
                      csv_files := [("out.csv", short_row_artifact)];
                      cleanup := None; clock_end := 9%N |} sample_job)
  = parse_csv_results short_row_artifact.
Proof.
  apply (run_job_ingests_first_file
           {| clock_start := 5%N; prepare := None; spawn := inr 1%positive;
              events := []; returncode := 0;
              csv_files := [("out.csv", short_row_artifact)];
              cleanup := None; clock_end := 9%N |} sample_job).
  vm_compute. reflexivity.
Defined.

(** ** The output buffer *)

Lemma append_output_bound (line : string) (j : AnalysisJob) :
  (List.length (output_lines (append_output line j)) <= 500)%nat.
Proof.
  unfold append_output, last_n. cbn [output_lines set_output_lines].
  destruct (Nat.ltb_spec 500 (List.length (output_lines j ++ [line])%list))
    as [H|H].
  - rewrite length_skipn. lia.
  - exact H.
Qed.

Lemma append_output_last (line : string) (j : AnalysisJob) :
  last (output_lines (append_output line j)) "" = line.
Proof.
  unfold append_output, last_n. cbn [output_lines set_output_lines].
  set (l := output_lines j).
  destruct (Nat.ltb_spec 500 (List.length (l ++ [line])%list)) as [H|H].
  - rewrite length_app in *. cbn [List.length] in *.
    rewrite skipn_app.
    replace (List.length l + 1 - 500 - List.length l)%nat with 0%nat by lia.
    cbn [skipn]. apply last_last.
  - apply last_last.
Qed.

Lemma update_progress_output_lines (j : AnalysisJob) :
  output_lines (job_of (update_progress j)) = output_lines j.
Proof.
  unfold update_progress. destruct (total_repos j >? 0); [|reflexivity].
  destruct (percent _ _); reflexivity.
Qed.

Lemma parse_progress_output_lines (d : string) (j : AnalysisJob) :
  output_lines (job_of (parse_progress d j)) = output_lines j.
Proof.
  unfold parse_progress.
  destruct (search repo_pattern d) as [m|].
  { unfold on_indexed.
    match goal with |- context [update_progress ?x] =>
      pose proof (update_progress_output_lines x) as H;
      destruct (update_progress x) end; simpl in *; rewrite H;
      (destruct (group 3 m) as [g|]; [destruct (PyText.nonempty g)|]);
      reflexivity. }
  destruct (search total_pattern d) as [m|]; [reflexivity|].
  destruct (search repo_name_pattern d) as [m|]; [|reflexivity].
  unfold on_named.
  match goal with |- context [update_progress ?x] =>
    pose proof (update_progress_output_lines x) as H;
    destruct (update_progress x) end; simpl in *; rewrite H; reflexivity.
Qed.

Lemma stderr_line_output_bound (raw : string) (j : AnalysisJob) :
  (List.length (output_lines j) <= 500)%nat ->
  (List.length (output_lines (job_of (stderr_line raw j))) <= 500)%nat.
Proof.
  intros H. unfold stderr_line. rewrite parse_progress_output_lines.
  destruct (PyText.nonempty (PyText.strip raw));
    [apply append_output_bound | exact H].
Qed.

Lemma stdout_line_output_bound (raw : string) (j : AnalysisJob) :
  (List.length (output_lines j) <= 500)%nat ->
  (List.length (output_lines (stdout_line raw j)) <= 500)%nat.
Proof.
  intros H. unfold stdout_line.
  destruct (PyText.nonempty (PyText.strip raw));
    [apply append_output_bound | exact H].
Qed.

Lemma run_events_output_bound (evs : list event) :
  forall r j,
    (List.length (output_lines j) <= 500)%nat ->
    (List.length (output_lines (job_of (fst (run_events evs r j)))) <= 500)%nat.
Proof.
  induction evs as [|ev evs IH]; intros r j H; [exact H|].
  destruct ev; simpl.
  - destruct (stderr_open r); [|now apply IH].
    pose proof (stderr_line_output_bound raw j H) as B.
    destruct (stderr_line raw j) as [j'|e j']; simpl in *;
      [now apply IH | exact B].
  - destruct (stderr_open r); [exact H | now apply IH].
  - apply IH. now apply stdout_line_output_bound.
  - exact H.
  - apply IH. exact H.
Qed.

(** X12, the size of the output buffer: a run started on a job whose
    buffer holds at most 500 lines leaves at most 501 lines in it, and at
    most 500 unless the job is flagged as cancelled. *)
Theorem run_job_output_bound (env : run_env) (j : AnalysisJob) :
  (List.length (output_lines j) <= 500)%nat ->
  (List.length (output_lines (run_job env j)) <= 501)%nat
  /\ (cancelled (run_job env j) = false ->
      (List.length (output_lines (run_job env j)) <= 500)%nat).
Proof.
  intros H.
  assert (Hfin : forall r j1,
             (List.length (output_lines j1) <= 500)%nat ->
             (List.length (output_lines (finish env r j1)) <= 501)%nat
             /\ (cancelled (finish env r j1) = false ->
                 (List.length (output_lines (finish env r j1)) <= 500)%nat)).
  { intros r j1 B. unfold finish. cbn [cancelled set__process].
    destruct (cancelled j1) eqn:Ec.
    - cbn. rewrite length_app. cbn [List.length]. split; [lia|].
      rewrite Ec. discriminate.
    - destruct (negb (returncode env =? 0)).
      + unfold finish_failed. destruct (stderr_output r); cbn; lia.
      + unfold finish_completed.
        destruct (csv_files env) as [|[path a] fs]; cbn; lia. }
  unfold run_job, supervise.
  destruct (prepare env) as [e|].
  { destruct (cleanup env); cbn; lia. }
  destruct (spawn env) as [e|p].
  { destruct (cleanup env); cbn; destruct (repo_list (config j)); cbn; lia. }
  match goal with |- context [run_events ?evs ?r ?x] =>
    assert (B : (List.length (output_lines x) <= 500)%nat)
      by (cbn [config set_message set_started_at set_status];
          destruct (repo_list (config j)); exact H);
    pose proof (run_events_output_bound evs r x B) as B';
    destruct (run_events evs r x) as [[j1|e j1] r1] end;
    cbn [fst job_of] in B'.
  - destruct (Hfin r1 j1 B') as [F1 F2].
    destruct (cleanup env) as [e|]; cbn [job_of]; [|split; assumption].
    split; [exact F1 | exact F2].
  - destruct (cleanup env) as [e'|]; cbn; lia.
Qed.

Lemma run_job_output_bound_witness :
  (List.length (output_lines (run_job overflow_env sample_job)) <= 501)%nat.
Proof.
  apply (run_job_output_bound overflow_env sample_job). simpl. lia.
Defined.

(** ** The readers after a cancellation *)

Lemma stdout_line_tracking (raw : string) (j : AnalysisJob) :
  tracking (stdout_line raw j) = tracking j.
Proof.
  unfold stdout_line. destruct (PyText.nonempty (PyText.strip raw));
    reflexivity.
Qed.

(** Once the diagnostic reader has left its loop, no event changes the
    progress, the counters or the current item. *)
Lemma closed_reader_tracking (evs : list event) :
  forall r j, stderr_open r = false ->
              tracking (job_of (fst (run_events evs r j))) = tracking j.
Proof.
  induction evs as [|ev evs IH]; intros r j Hr; [reflexivity|].
  destruct ev; simpl; rewrite ?Hr.
  - now apply IH.
  - now apply IH.
  - rewrite IH by exact Hr. apply stdout_line_tracking.
  - reflexivity.
  - rewrite IH by exact Hr. reflexivity.
Qed.

(** X13, reading after a cancellation: once the job is flagged as
    cancelled, the diagnostic reader parses at most the line it was
    waiting for; whatever arrives after that line changes neither the
    progress, nor the counters, nor the current item. *)
Theorem cancelled_reader_parses_one_line (raw : string) (rest : list event)
  (r : readers) (j : AnalysisJob) :
  cancelled j = true ->
  tracking (job_of (fst (run_events (StderrLine raw :: rest) r j)))
  = tracking (job_of (fst (run_events [StderrLine raw] r j))).
Proof.
  intros Hc. simpl. destruct (stderr_open r) eqn:Hr.
  - pose proof (stderr_line_cancelled raw j) as C.
    destruct (stderr_line raw j) as [j'|e j']; simpl in *; [|reflexivity].
    apply closed_reader_tracking. simpl. rewrite C, Hc. reflexivity.
  - now apply closed_reader_tracking.
Qed.

Lemma cancelled_reader_parses_one_line_witness :
  tracking (job_of (fst (run_events
                           [StderrLine "Processing 1/4"; StderrLine "Processing 2/4"]
                           {| stderr_output := []; stderr_open := true |}
                           (request_cancel running_job))))
  = (25, 1, 4, None).
Proof.
  rewrite (cancelled_reader_parses_one_line "Processing 1/4"
             [StderrLine "Processing 2/4"]
             {| stderr_output := []; stderr_open := true |}
             (request_cancel running_job) eq_refl).
  vm_compute. reflexivity.
Defined.

(** ** Writing a table whose records differ in their keys *)

Lemma dict_to_list_raises (ks : list key) (r : dict) :
  (exists e, dict_to_list ks r = inl e)
  <-> exists k, In k (dict_keys r) /\ ~ In k ks.
Proof.
  unfold dict_to_list.
  destruct (forallb (fun k => key_in k ks) (dict_keys r)) eqn:E.
  - split; [intros [e H]; discriminate|].
    intros (k & Hk & Hn). rewrite forallb_forall in E.
    specialize (E k Hk). apply key_in_spec in E. contradiction.
  - split; [|intros _; eexists; reflexivity].
    intros _.
    assert (H : ~ (forall k, In k (dict_keys r) -> key_in k ks = true))
      by (intros A; apply forallb_forall in A; congruence).
    clear E. induction (dict_keys r) as [|k l IH].
    + exfalso. apply H. intros k [].
    + destruct (key_in k ks) eqn:Ek.
      * destruct IH as (k' & Hk' & Hn').
        { intros A. apply H. intros k' [<-|Hin]; [exact Ek | now apply A]. }
        exists k'. split; [right; exact Hk' | exact Hn'].
      * exists k. split; [left; reflexivity|].
        intros Hin. apply key_in_spec in Hin. congruence.
Qed.

Lemma writerows_raises (ks : list key) (rows : list dict) :
  (exists e, writerows ks rows = inl e)
  <-> exists r k, In r rows /\ In k (dict_keys r) /\ ~ In k ks.
Proof.
  induction rows as [|row rows IH]; simpl.
  - split; [intros [e H]; discriminate | intros (r & k & [] & _)].
  - pose proof (dict_to_list_raises ks row) as D.
    destruct (dict_to_list ks row) as [e|cells].
    + split; [|intros _; eexists; reflexivity].
      intros _. destruct D as [D _]. destruct D as (k & Hk & Hn);
        [eexists; reflexivity|].
      exists row, k. auto.
    + destruct (writerows ks rows) as [e|text].
      * split; [|intros _; eexists; reflexivity].
        intros _. destruct IH as [IH _].
        destruct IH as (r & k & Hr & Hk & Hn); [eexists; reflexivity|].
        exists r, k. auto.
      * split; [intros [e H]; discriminate|].
        intros (r & k & [<-|Hr] & Hk & Hn).
        -- destruct D as [_ D]. destruct D as [e H]; [exists k; auto|].
           discriminate.
        -- destruct IH as [_ IH]. destruct IH as [e H];
             [exists r, k; auto | discriminate].
Qed.

(** X14, [results_to_csv] on records with different keys: the conversion
    raises exactly when some record has a key that the first record lacks;
    a record that lacks a key of the first record is no error. *)
Theorem results_to_csv_raises_iff (first : dict) (rest : list dict) :
  (exists e, results_to_csv (first :: rest) = inl e)
  <-> exists r k, In r rest /\ In k (dict_keys r) /\ ~ In k (dict_keys first).
Proof.
  unfold results_to_csv.
  pose proof (writerows_raises (dict_keys first) (first :: rest)) as W.
  destruct (writerows (dict_keys first) (first :: rest)) as [e|body].
  - split; [|intros _; eexists; reflexivity].
    intros _. destruct W as [W _].
    destruct W as (r & k & [<-|Hr] & Hk & Hn); [eexists; reflexivity|..].
    + contradiction.
    + exists r, k. auto.
  - split; [intros [e H]; discriminate|].
    intros (r & k & Hr & Hk & Hn). destruct W as [_ W].
    destruct W as [e H]; [exists r, k; simpl; auto | discriminate].
Qed.

Lemma results_to_csv_raises_iff_witness :
  exists e, results_to_csv [ [(Some "a", VInt 1)];
                             [(Some "a", VInt 2); (Some "b", VInt 3)] ] = inl e.
Proof.
  apply (results_to_csv_raises_iff [(Some "a", VInt 1)]
           [ [(Some "a", VInt 2); (Some "b", VInt 3)] ]).
  exists [(Some "a", VInt 2); (Some "b", VInt 3)], (Some "b").
  split; [left; reflexivity|]. split; [right; left; reflexivity|].
  simpl. intros [H|[]]. discriminate.
Defined.

(** ** The types of the ingested rows *)

Lemma dict_set_in (k k0 : key) (v v0 : value) (d : dict) :
  In (k, v) (dict_set k0 v0 d) -> (k = k0 /\ v = v0) \/ In (k, v) d.
Proof.
  induction d as [|[k1 v1] d IH]; simpl.
  - intros [E|[]]. inversion E. auto.
  - destruct (key_eqb k0 k1) eqn:Ek.
    + apply key_eqb_spec in Ek. subst k1.
      intros [E|H]; [inversion E; auto | auto].
    + intros [E|H]; [auto|]. destruct (IH H); auto.
Qed.

Lemma dict_set_entries (test : value -> bool) (k : key) (v : value)
  (d : dict) :
  entries test d -> (forall s, k = Some s -> test v = true) ->
  entries test (dict_set k v d).
Proof.
  intros Hd Hv k' v' Hin. apply dict_set_in in Hin.
  destruct Hin as [[E1 E2]|Hin].
  - subst. eapply Hv. reflexivity.
  - eapply Hd. eassumption.
Qed.

Lemma entries_get (test : value -> bool) (d : dict) (f : string) (v : value) :
  entries test d -> dict_get (Some f) d = Some v -> test v = true.
Proof. intros Hd Hg. apply dict_get_some_in in Hg. eapply Hd. eassumption. Qed.

Lemma zip_dict_entries (test : value -> bool) (names : list string) :
  (forall s, test (VStr s) = true) ->
  forall cells d, entries test d -> entries test (Csv.zip_dict names cells d).
Proof.
  intros Ht. induction names as [|n names IH]; intros cells d Hd; [exact Hd|].
  destruct cells as [|c cells]; [exact Hd|]. simpl. apply IH.
  apply dict_set_entries; [exact Hd | intros; apply Ht].
Qed.


Lemma entries_nil (test : value -> bool) : entries test [].
Proof. intros k v []. Qed.


(** A row made from a record that is not short holds text under its
    [str] keys. *)
Lemma row_dict_strs (names cells : list string) :
  (List.length names <= List.length cells)%nat ->
  entries is_str (Csv.row_dict names cells).
Proof.
  intros Hl. unfold Csv.row_dict.
  assert (Z : entries is_str (Csv.zip_dict names cells []))
    by (apply zip_dict_entries; [reflexivity | apply entries_nil]).
  destruct (List.length names <? List.length cells)%nat.
  - apply dict_set_entries; [exact Z | discriminate].
  - destruct (Nat.ltb_spec (List.length cells) (List.length names)); [lia|].
    exact Z.
Qed.

Lemma entries_weaken (p q : value -> bool) (d : dict) :
  (forall v, p v = true -> q v = true) -> entries p d -> entries q d.
Proof. intros H Hd k v Hin. apply H. eapply Hd. eassumption. Qed.

(** *** One field at a time *)

Lemma convert_numeric_frame (d : dict) (f : string) (d' : dict) :
  convert_numeric d f = inr d' ->
  forall k, k <> Some f -> dict_get k d' = dict_get k d.
Proof.
  unfold convert_numeric. intros H k NE.
  destruct (dict_get (Some f) d) as [v|]; [|inversion H; reflexivity].
  destruct (truthy v); [|inversion H; reflexivity].
  destruct (int_of_value v); inversion H; [|reflexivity].
  now apply dict_get_set_other.
Qed.

Lemma convert_bool_frame (d : dict) (f : string) (d' : dict) :
  convert_bool d f = inr d' ->
  forall k, k <> Some f -> dict_get k d' = dict_get k d.
Proof.
  unfold convert_bool. intros H k NE.
  destruct (dict_get (Some f) d) as [[]|]; inversion H; [|reflexivity].
  now apply dict_get_set_other.
Qed.


Lemma convert_bool_outcome (d : dict) (f : string) (d' : dict) :
  convert_bool d f = inr d' -> bool_outcome (dict_get (Some f) d').
Proof.
  unfold convert_bool. intros H.
  destruct (dict_get (Some f) d) as [[]|] eqn:Hg; inversion H; subst d'.
  - rewrite dict_get_set_same. exact I.
  - rewrite Hg. exact I.
Qed.

Lemma for_each_frame (step : dict -> string -> exn + dict) (fs : list string) :
  (forall d f d', step d f = inr d' ->
                  forall k, k <> Some f -> dict_get k d' = dict_get k d) ->
  forall d d', for_each step fs d = inr d' ->
               forall k, ~ In k (map Some fs) -> dict_get k d' = dict_get k d.
Proof.
  intros Hs. induction fs as [|f fs IH]; intros d d' H k Hn; simpl in *.
  - inversion H. reflexivity.
  - destruct (step d f) as [e|d1] eqn:E; [discriminate|].
    rewrite (IH d1 d' H k) by tauto.
    apply (Hs d f d1 E). intros ->. tauto.
Qed.

(** What holds of a field once its turn has come holds of it at the end
    of the loop, when no field has two turns. *)
Lemma for_each_outcome (step : dict -> string -> exn + dict)
  (inv : dict -> Prop) (post : option value -> Prop) (fs : list string) :
  NoDup fs ->
  (forall d f d', step d f = inr d' ->
                  forall k, k <> Some f -> dict_get k d' = dict_get k d) ->
  (forall d f d', inv d -> step d f = inr d' ->
                  inv d' /\ post (dict_get (Some f) d')) ->
  forall d d', inv d -> for_each step fs d = inr d' ->
               inv d' /\ forall f, In f fs -> post (dict_get (Some f) d').
Proof.
  intros Hnd Hfr Hst. induction Hnd as [|f fs Hnot Hnd IH];
    intros d d' Hi H; simpl in *.
  - inversion H. subst. split; [exact Hi | intros f []].
  - destruct (step d f) as [e|d1] eqn:E; [discriminate|].
    destruct (Hst d f d1 Hi E) as [Hi1 Hp1].
    destruct (IH d1 d' Hi1 H) as [Hi' Hall].
    split; [exact Hi'|]. intros g [<-|Hg]; [|now apply Hall].
    rewrite (for_each_frame step fs Hfr d1 d' H); [exact Hp1|].
    intros Hin. apply in_map_iff in Hin. destruct Hin as (x & Ex & Hx).
    inversion Ex. subst x. contradiction.
Qed.

Lemma convert_rows_in (rows : list dict) (tail : option exn) (row : dict) :
  In row (fst (convert_rows rows tail)) ->
  exists row0, In row0 rows /\ convert_row row0 = inr row.
Proof.
  induction rows as [|r rows IH]; simpl; [intros []|].
  destruct (convert_row r) as [e|r'] eqn:E; [intros []|].
  destruct (convert_rows rows tail) as [rs e]. simpl in *.
  intros [<-|Hin].
  - exists r. auto.
  - destruct (IH Hin) as (row0 & A & B). exists row0. auto.
Qed.

Lemma dict_reader_rows (f : Csv.file) (row0 : dict) :
  In row0 (fst (Csv.dict_reader f)) ->
  exists names cells, row0 = Csv.row_dict names cells.
Proof.
  unfold Csv.dict_reader. destruct (Csv.reader f) as [[|names rows] e];
    simpl; [intros []|].
  intros Hin. apply in_map_iff in Hin. destruct Hin as (cells & E & _).
  exists names, cells. auto.
Qed.

Lemma parse_csv_results_in (a : artifact) (row : dict) :
  In row (parse_csv_results a) ->
  exists names cells, convert_row (Csv.row_dict names cells) = inr row.
Proof.
  unfold parse_csv_results, parse_csv_run. destruct a as [e|f]; [intros []|].
  pose proof (dict_reader_rows f) as R.
  destruct (Csv.dict_reader f) as [rows tail]. simpl in R.
  intros Hin. apply convert_rows_in in Hin.
  destruct Hin as (row0 & A & B).
  destruct (R row0 A) as (names & cells & E). subst row0.
  exists names, cells. exact B.
Qed.

(** X15, the type of a boolean field after ingestion: in every row that
    [parse_csv_results] returns, each of the four recognized boolean
    fields is either absent or holds a [bool]. *)
Theorem parse_csv_results_bool_fields (a : artifact) (row : dict)
  (f : string) :
  In row (parse_csv_results a) -> In f bool_fields ->
  bool_outcome (dict_get (Some f) row).
Proof.
  intros Hin Hf. apply parse_csv_results_in in Hin.
  destruct Hin as (names & cells & E). unfold convert_row in E.
  destruct (for_each convert_numeric numeric_fields (Csv.row_dict names cells))
    as [e|d1]; [discriminate|].
  destruct (for_each_outcome convert_bool (fun _ => True) bool_outcome
              bool_fields bool_fields_nodup convert_bool_frame
              (fun d f d' _ H => conj I (convert_bool_outcome d f d' H))
              d1 row I E) as [_ H].
  now apply H.
Qed.

Lemma parse_csv_results_bool_fields_witness :
  bool_outcome (dict_get (Some "isFork")
                  [(Some "Repo_Name", VStr "a"); (Some "isFork", VBool true)]).
Proof.
  apply (parse_csv_results_bool_fields short_row_artifact
           [(Some "Repo_Name", VStr "a"); (Some "isFork", VBool true)] "isFork").
  - vm_compute. left. reflexivity.
  - vm_compute. right. left. reflexivity.
Defined.



(** *** Records that are not short *)

Lemma convert_numeric_total (d : dict) (f : string) :
  entries is_str_or_int d ->
  exists d', convert_numeric d f = inr d' /\ entries is_str_or_int d'.
Proof.
  intros Hd. unfold convert_numeric.
  destruct (dict_get (Some f) d) as [v|] eqn:Hg; [|exists d; auto].
  pose proof (entries_get _ _ _ _ Hd Hg) as Hv.
  destruct (truthy v); [|exists d; auto].
  destruct v; try discriminate; simpl.
  - destruct (int_of_str s); [|exists d; auto].
    eexists. split; [reflexivity|].
    apply dict_set_entries; [exact Hd | reflexivity].
  - eexists. split; [reflexivity|].
    apply dict_set_entries; [exact Hd | reflexivity].
Qed.

Lemma for_each_numeric_total (fs : list string) :
  forall d, entries is_str_or_int d ->
            exists d', for_each convert_numeric fs d = inr d'.
Proof.
  induction fs as [|f fs IH]; intros d Hd; simpl; [exists d; reflexivity|].
  destruct (convert_numeric_total d f Hd) as (d1 & E & H1). rewrite E.
  now apply IH.
Qed.

Lemma for_each_bool_total (fs : list string) :
  NoDup fs ->
  forall d, (forall f v, In f fs -> dict_get (Some f) d = Some v ->
                         is_str v = true) ->
            exists d', for_each convert_bool fs d = inr d'.
Proof.
  intros Hnd. induction Hnd as [|f fs Hnot Hnd IH]; intros d Hd; simpl;
    [exists d; reflexivity|].
  assert (S : exists d1, convert_bool d f = inr d1).
  { unfold convert_bool. destruct (dict_get (Some f) d) as [v|] eqn:Hg;
      [|exists d; reflexivity].
    specialize (Hd f v (or_introl eq_refl) Hg).
    destruct v; try discriminate. eexists. reflexivity. }
  destruct S as [d1 E]. rewrite E. apply IH.
  intros g v Hg Hv. apply (Hd g v (or_intror Hg)).
  rewrite <- (convert_bool_frame d f d1 E); [exact Hv|].
  intros Eq. inversion Eq. subst g. contradiction.
Qed.

(** The conversion of a row that holds text under each of its [str] keys
    raises nothing. *)
Lemma convert_row_total (d : dict) :
  entries is_str d -> exists d', convert_row d = inr d'.
Proof.
  intros Hd. unfold convert_row.
  assert (H0 : entries is_str_or_int d).
  { eapply entries_weaken; [|exact Hd].
    intros [] H; try discriminate; reflexivity. }
  destruct (for_each_numeric_total numeric_fields d H0) as [d1 E1].
  rewrite E1. apply for_each_bool_total; [apply bool_fields_nodup|].
  intros f v Hf Hv.
  rewrite (for_each_frame convert_numeric numeric_fields convert_numeric_frame
             d d1 E1) in Hv.
  - eapply entries_get; eassumption.
  - apply bool_not_numeric. now apply is_bool_field_spec.
Qed.

Lemma convert_rows_total (rows : list dict) :
  Forall (entries is_str) rows ->
  exists rs, convert_rows rows None = (rs, None)
             /\ List.length rs = List.length rows.
Proof.
  induction 1 as [|d rows Hd _ IH]; simpl; [exists []; auto|].
  destruct (convert_row_total d Hd) as [d' E]. rewrite E.
  destruct IH as (rs & Er & El). rewrite Er.
  exists (d' :: rs). simpl. auto.
Qed.

(** X17, ingestion of a file without short records: when the artifact is
    read to its end without error and every record that is not blank has
    at least as many cells as the header, [parse_csv_results] raises
    nothing inside and returns one row for each record that is not
    blank. *)
Theorem parse_csv_results_complete (f : Csv.file) (names : list string)
  (records : list (list string)) :
  Csv.reader f = (names :: records, None) ->
  Forall (fun cells => cells = []
                       \/ (List.length names <= List.length cells)%nat)
         records ->
  snd (parse_csv_run (inr f)) = None
  /\ List.length (parse_csv_results (inr f))
     = List.length (filter (fun r => negb (Csv.is_blank r)) records).
Proof.
  intros Hr Hall. unfold parse_csv_results, parse_csv_run, Csv.dict_reader.
  rewrite Hr.
  set (kept := filter (fun r => negb (Csv.is_blank r)) records).
  assert (Hk : Forall (entries is_str) (map (Csv.row_dict names) kept)).
  { apply Forall_forall. intros d Hin. apply in_map_iff in Hin.
    destruct Hin as (cells & <- & Hc). unfold kept in Hc.
    apply filter_In in Hc. destruct Hc as [Hc Hb].
    rewrite Forall_forall in Hall. destruct (Hall cells Hc) as [E|Hl].
    - subst cells. discriminate.
    - now apply row_dict_strs. }
  destruct (convert_rows_total _ Hk) as (rs & E & El).
  rewrite E. simpl. rewrite El, length_map. auto.
Qed.

Lemma parse_csv_results_complete_witness :
  List.length
    (parse_csv_results
       (inr (Csv.file_of_text
               ("Repo_Name,isFork" ++ Csv.lineterminator
                ++ "a,true" ++ Csv.lineterminator
                ++ Csv.lineterminator
                ++ "b,no,surplus" ++ Csv.lineterminator))))
  = 2%nat.
Proof.
  apply (parse_csv_results_complete
           (Csv.file_of_text
              ("Repo_Name,isFork" ++ Csv.lineterminator
               ++ "a,true" ++ Csv.lineterminator
               ++ Csv.lineterminator
               ++ "b,no,surplus" ++ Csv.lineterminator))
           ["Repo_Name"; "isFork"]
           [["a"; "true"]; []; ["b"; "no"; "surplus"]]).
  - vm_compute. reflexivity.
  - repeat constructor; simpl; lia.
Defined.

(** ** When the percentage raises nothing *)

(** [binary_round_aux] gives an infinity only for a value of at least
    2^972. *)
Lemma round_aux_range (sx : bool) (A0 B ex : Z) :
  0 <= A0 -> 0 < B -> -1074 <= ex ->
  (A0 mod B = 0 \/ ex + 1074 <= grid (A0 * 2 ^ (ex + 1074)) B) ->
  let f := binary_round_aux 53 1024 sx (A0 / B) ex (loc_of (A0 mod B) B) in
  let V := rnd (A0 * 2 ^ (ex + 1074)) B in
  V < 2 ^ 2046 ->
  (f = S754_zero sx /\ V = 0)
  \/ (exists m e, f = S754_finite sx m e /\ -1074 <= e
                  /\ Zpos m * 2 ^ (e + 1074) = V).
Proof.
  intros HA HB Hex Hprec f V HV.
  destruct (first_round_fix A0 B ex HA HB Hex Hprec) as [EV Hmr].
  fold V in EV.
  set (k := Z.max (fexp 53 1024 (Zdigits2 (A0 / B) + ex) - ex) 0) in *.
  assert (Hk : 0 <= k) by (unfold k; lia).
  pose proof (pow2_pos k Hk) as Pk.
  set (mr := rne A0 (B * 2 ^ k)) in *.
  destruct (second_shift_fix mr (ex + k) Hmr ltac:(lia)) as (HK & Hmf & EK).
  set (K := Z.max (fexp 53 1024 (Zdigits2 mr + (ex + k)) - (ex + k)) 0) in *.
  assert (Ef : f = match mr / 2 ^ K with
                   | Z0 => S754_zero sx
                   | Zpos m => if ex + k + K <=? 1024 - 53
                               then S754_finite sx m (ex + k + K)
                               else S754_infinity sx
                   | Zneg _ => S754_nan
                   end).
  { unfold f, binary_round_aux.
    rewrite shr_fexp_rec by assumption. fold k.
    rewrite round_nearest_even_rec by nia. fold mr.
    rewrite shr_fexp_exact by lia. fold K.
    unfold rec_of. rewrite shr_record_of_loc_m. reflexivity. }
  rewrite Ef. rewrite <- EV in HV |- *. rewrite <- EK in HV |- *.
  destruct (mr / 2 ^ K) as [|p|p] eqn:Emf.
  - left. split; [reflexivity | ring].
  - destruct (Z.leb_spec (ex + k + K) (1024 - 53)) as [Hle|Hgt].
    + right. exists p, (ex + k + K). split; [reflexivity|].
      split; [lia | reflexivity].
    + exfalso.
      assert (2 ^ 2046 <= 2 ^ (ex + k + K + 1074))
        by (apply Z.pow_le_mono_r; lia).
      pose proof (pow2_pos (ex + k + K + 1074) ltac:(lia)). nia.
  - lia.
Qed.

Lemma truediv_range (n m : positive) :
  let f := SFdiv 53 1024 (S754_finite false n 0) (S754_finite false m 0) in
  let V := rnd (Zpos n * 2 ^ 1074) (Zpos m) in
  V < 2 ^ 2046 ->
  (f = S754_zero false /\ V = 0)
  \/ (exists mq eq, f = S754_finite false mq eq /\ -1074 <= eq
                    /\ Zpos mq * 2 ^ (eq + 1074) = V).
Proof.
  intros f V. unfold f, SFdiv, SFdiv_core_binary.
  rewrite !Z.add_0_r, Z.sub_0_r, fexp_53.
  set (d1 := Zdigits2 (Zpos n)). set (d2 := Zdigits2 (Zpos m)).
  set (e' := Z.min (Z.max (d1 - d2 - 53) (-1074)) 0).
  replace (0 - e') with (- e') by lia.
  assert (He' : -1074 <= e' <= 0) by (unfold e'; lia).
  set (m' := match - e' with
             | Z0 => Zpos n
             | Zpos _ => Z.shiftl (Zpos n) (- e')
             | Zneg _ => 0
             end).
  assert (Em' : m' = Zpos n * 2 ^ (- e')).
  { unfold m'. destruct (- e') as [|p|p] eqn:E.
    - change (2 ^ 0) with 1. lia.
    - rewrite Z.shiftl_mul_pow2 by lia. reflexivity.
    - lia. }
  rewrite div_eucl_div_mod.
  pose proof (pow2_pos (- e') ltac:(lia)) as Ps.
  rewrite new_location_loc by (apply Z.mod_pos_bound; lia).
  cbn [xorb].
  assert (EV : V = rnd (m' * 2 ^ (e' + 1074)) (Zpos m)).
  { unfold V. f_equal. rewrite Em', <- Z.mul_assoc, <- pow2_split by lia.
    do 2 f_equal. lia. }
  rewrite EV.
  apply round_aux_range; try lia.
  right.
  replace (m' * 2 ^ (e' + 1074)) with (Zpos n * 2 ^ 1074)
    by (rewrite Em', <- Z.mul_assoc, <- pow2_split by lia;
        do 2 f_equal; lia).
  destruct (Z_le_gt_dec (e' + 1074) 0) as [|Hgt];
    [pose proof (grid_nonneg (Zpos n * 2 ^ 1074) (Zpos m)); lia|].
  assert (Hd : e' <= d1 - d2 - 53 /\ -1074 < d1 - d2 - 53) by (unfold e' in *; lia).
  destruct (Zdigits2_bounds (Zpos n) ltac:(lia)) as [Nlo _].
  destruct (Zdigits2_bounds (Zpos m) ltac:(lia)) as [_ Mhi].
  fold d1 in Nlo. fold d2 in Mhi.
  pose proof (Zdigits2_pos (Zpos n) ltac:(lia)) as D1. fold d1 in D1.
  pose proof (Zdigits2_pos (Zpos m) ltac:(lia)) as D2. fold d2 in D2.
  assert (Hq : 2 ^ (d1 - d2 - 1 + 1074) <= Zpos n * 2 ^ 1074 / Zpos m).
  { apply Z.div_le_lower_bound; [lia|].
    pose proof (pow2_pos (d1 - d2 - 1 + 1074) ltac:(lia)).
    pose proof (pow2_pos 1074 ltac:(lia)).
    assert (E : 2 ^ (d1 - 1) * 2 ^ 1074 = 2 ^ (d1 - d2 - 1 + 1074) * 2 ^ d2).
    { rewrite <- !pow2_split by lia. f_equal. lia. }
    nia. }
  pose proof (Zdigits2_ge_pow (Zpos n * 2 ^ 1074 / Zpos m)
                (d1 - d2 - 1 + 1074) ltac:(lia) Hq).
  unfold grid. lia.
Qed.

Lemma mul_100_range (mq : positive) (eq : Z) :
  -1074 <= eq ->
  let f := PyFloat.mul_int (S754_finite false mq eq) 100 in
  let V := rnd (100 * (Zpos mq * 2 ^ (eq + 1074))) 1 in
  V < 2 ^ 2046 ->
  (f = S754_zero false /\ V = 0)
  \/ (exists m e, f = S754_finite false m e /\ -1074 <= e
                  /\ Zpos m * 2 ^ (e + 1074) = V).
Proof.
  intros He f V HV. unfold f, PyFloat.mul_int, PyFloat.exact, SFmul.
  cbn [xorb]. change PyFloat.prec with 53. change PyFloat.emax with 1024.
  rewrite Z.add_0_r.
  assert (EV : rnd (Zpos (mq * 100) * 2 ^ (eq + 1074)) 1 = V)
    by (unfold V; f_equal; rewrite Pos2Z.inj_mul; ring).
  pose proof (round_aux_range false (Zpos (mq * 100)) 1 eq
                ltac:(lia) ltac:(lia) He
                (or_introl (Z.mod_1_r _))) as H.
  cbv zeta in H. rewrite Z.div_1_r, Z.mod_1_r in H.
  change (loc_of 0 1) with loc_Exact in H.
  rewrite EV in H. exact (H HV).
Qed.

(** The rounding of an exact power of two. *)
Lemma rnd_pow2 (m k : Z) : 0 < m -> 0 <= k -> rnd (2 ^ k * m) m = 2 ^ k.
Proof.
  intros Hm Hk. unfold rnd.
  pose proof (grid_nonneg (2 ^ k * m) m) as Hg.
  set (g := grid (2 ^ k * m) m) in *.
  assert (Eg : g = Z.max (k + 1 - 53) 0).
  { unfold g, grid. rewrite Z.div_mul by lia.
    rewrite (Zdigits2_unique (2 ^ k) (k + 1)); [reflexivity | lia|].
    replace (k + 1 - 1) with k by lia. split; [lia|].
    apply Z.pow_lt_mono_r; lia. }
  assert (Hgk : g <= k) by lia.
  pose proof (pow2_pos g Hg) as Pg.
  replace (2 ^ k * m) with (2 ^ (k - g) * (m * 2 ^ g)).
  - rewrite rne_exact by nia. rewrite <- pow2_split by lia. f_equal. lia.
  - replace (2 ^ k) with (2 ^ (k - g) * 2 ^ g); [ring|].
    rewrite <- pow2_split by lia. f_equal. lia.
Qed.

(** The percentage raises nothing when the processed count is at most
    2^960 times the total. *)
Lemma percent_total (processed total : Z) :
  0 <= processed -> 0 < total -> processed <= 2 ^ 960 * total ->
  percent processed total = inr (percent_spec processed total).
Proof.
  intros Hn Hm Hb.
  assert (P1074 : 0 < 2 ^ 1074) by (apply pow2_pos; lia).
  assert (P960 : 0 < 2 ^ 960) by (apply pow2_pos; lia).
  assert (V1 : rnd (processed * 2 ^ 1074) total <= 2 ^ 2034).
  { rewrite <- (rnd_pow2 total 2034) by lia.
    apply rnd_mono; [nia | lia | lia |].
    change (2 ^ 2034) with (2 ^ 960 * 2 ^ 1074). nia. }
  assert (V0 : 0 <= rnd (processed * 2 ^ 1074) total)
    by (apply rnd_nonneg; lia).
  assert (V2 : rnd (100 * rnd (processed * 2 ^ 1074) total) 1 < 2 ^ 2046).
  { apply Z.le_lt_trans with (rnd (100 * 2 ^ 2034) 1).
    - apply rnd_mono; lia.
    - replace (100 * 2 ^ 2034) with (2 ^ 2034 * 100) by ring.
      assert (E : rnd (2 ^ 2034 * 100) 1 <= rnd (2 ^ 2041 * 1) 1).
      { apply rnd_mono; lia. }
      rewrite rnd_pow2 in E by lia.
      assert (2 ^ 2041 < 2 ^ 2046) by (apply Z.pow_lt_mono_r; lia). lia. }
  assert (V1' : rnd (processed * 2 ^ 1074) total < 2 ^ 2046).
  { assert (2 ^ 2034 < 2 ^ 2046) by (apply Z.pow_lt_mono_r; lia). lia. }
  destruct total as [|m|m]; try lia.
  destruct processed as [|n|n]; try lia.
  - change (percent 0 (Zpos m)) with (@inr exn Z 0).
    rewrite percent_spec_zero_quotient; [reflexivity|].
    rewrite Z.mul_0_l. apply rnd_zero. lia.
  - unfold percent, PyFloat.int_truediv.
    change (Zpos m =? 0) with false. cbv iota.
    change PyFloat.prec with 53. change PyFloat.emax with 1024.
    cbn [PyFloat.exact].
    destruct (truediv_range n m V1') as [[Ef EV]|(mq & eq & Ef & He & EV)];
      cbv zeta in *; rewrite Ef; cbv iota.
    + change (PyFloat.to_int (PyFloat.mul_int (S754_zero false) 100))
        with (@inr exn Z 0).
      rewrite percent_spec_zero_quotient by exact EV. reflexivity.
    + unfold percent_spec, fix_scale. rewrite <- EV in V2 |- *.
      destruct (mul_100_range mq eq He V2)
        as [[Eg EW]|(m2 & e2 & Eg & He2 & EW)]; cbv zeta in *; rewrite Eg.
      * rewrite EW. cbn [PyFloat.to_int]. rewrite Z.div_0_l by lia.
        reflexivity.
      * rewrite to_int_fix by exact He2. rewrite EW. reflexivity.
Qed.

(** ** How far the percentage is from the exact one *)

Lemma percent_spec_full (n : Z) : 0 < n -> percent_spec n n = 100.
Proof.
  intros Hn. unfold percent_spec, fix_scale.
  rewrite (Z.mul_comm n), rnd_pow2 by lia.
  vm_compute. reflexivity.
Qed.

Lemma percent_spec_none (m : Z) : 0 < m -> percent_spec 0 m = 0.
Proof.
  intros Hm. apply percent_spec_zero_quotient.
  rewrite Z.mul_0_l. apply rnd_zero. exact Hm.
Qed.

(** Rounding a quotient of at least 53 bits moves it by at most one part
    in 2^53. *)
Lemma rnd_rel (a b : Z) :
  0 < b -> 2 ^ 52 <= a / b ->
  (2 ^ 53 - 1) * a <= 2 ^ 53 * (rnd a b * b) <= (2 ^ 53 + 1) * a.
Proof.
  intros Hb Hq.
  assert (P52 : 0 < 2 ^ 52) by (apply pow2_pos; lia).
  assert (Hq0 : 0 < a / b) by lia.
  destruct (Zdigits2_bounds (a / b) Hq0) as [Dlo Dhi].
  assert (Hd : 53 <= Zdigits2 (a / b)).
  { pose proof (Zdigits2_ge_pow (a / b) 52 ltac:(lia) Hq). lia. }
  set (g := Zdigits2 (a / b) - 53) in *.
  assert (Eg : grid a b = g) by (unfold grid; fold g; lia).
  unfold rnd. rewrite Eg.
  assert (Hg : 0 <= g) by lia.
  pose proof (pow2_pos g Hg) as Pg.
  set (d := b * 2 ^ g).
  assert (Pd : 0 < d) by (unfold d; nia).
  destruct (rne_spec a d Pd) as [[Rlo Rhi] _].
  set (r := rne a d) in *.
  assert (Ex : r * 2 ^ g * b = r * d) by (unfold d; ring).
  rewrite Ex.
  assert (Hbig : 2 ^ 53 * d <= 2 * a).
  { assert (E : 2 ^ (Zdigits2 (a / b) - 1) = 2 ^ g * 2 ^ 52).
    { rewrite <- pow2_split by lia. f_equal. unfold g. lia. }
    rewrite E in Dlo.
    pose proof (Z.mul_div_le a b Hb) as Hm.
    change (2 ^ 53) with (2 * 2 ^ 52). unfold d. nia. }
  change (2 ^ 53) with 9007199254740992 in *.
  split; lia.
Qed.

(** The percentage computed in floating point is the exact percentage
    rounded down, or one less. *)
Lemma percent_spec_near (n m : Z) :
  0 <= n <= m -> 0 < m -> m < 2 ^ 44 ->
  100 * n / m - 1 <= percent_spec n m <= 100 * n / m.
Proof.
  intros [Hn Hnm] Hm Hm44.
  destruct (Z.eq_dec n 0) as [->|Hn0].
  { rewrite percent_spec_none by exact Hm. rewrite Z.mul_0_r, Z.div_0_l; lia. }
  unfold percent_spec, fix_scale.
  set (S := 2 ^ 1074).
  assert (PS : 0 < S) by (apply pow2_pos; lia).
  assert (HS : 2 ^ 96 * 2 ^ 53 <= S).
  { unfold S. rewrite <- pow2_split by lia. apply Z.pow_le_mono_r; lia. }
  set (k := 100 * n / m).
  assert (Hk : k * m <= 100 * n < (k + 1) * m).
  { unfold k. pose proof (Z.mul_div_le (100 * n) m Hm).
    pose proof (Z.mul_succ_div_gt (100 * n) m Hm). lia. }
  assert (Q1 : 2 ^ 52 <= n * S / m).
  { apply Z.div_le_lower_bound; [lia|].
    change (2 ^ 96) with (2 ^ 44 * 2 ^ 52) in HS.
    change (2 ^ 44) with 17592186044416 in *.
    change (2 ^ 52) with 4503599627370496 in *.
    change (2 ^ 53) with 9007199254740992 in *. nia. }
  pose proof (rnd_rel (n * S) m Hm Q1) as R1.
  set (x := rnd (n * S) m) in *.
  assert (Hx : 2 ^ 52 <= x).
  { destruct (Z_le_gt_dec (2 ^ 52) x) as [H|H]; [exact H|exfalso].
    destruct R1 as [R1 _].
    assert (x * m <= 2 ^ 52 * 2 ^ 44).
    { assert (0 <= x) by (apply rnd_nonneg; nia).
      apply Z.mul_le_mono_nonneg; lia. }
    change (2 ^ 96) with (2 ^ 52 * 2 ^ 44) in HS.
    change (2 ^ 44) with 17592186044416 in *.
    change (2 ^ 52) with 4503599627370496 in *.
    change (2 ^ 53) with 9007199254740992 in *. nia. }
  assert (Q2 : 2 ^ 52 <= 100 * x / 1) by (rewrite Z.div_1_r; lia).
  pose proof (rnd_rel (100 * x) 1 ltac:(lia) Q2) as R2.
  set (y := rnd (100 * x) 1) in *.
  rewrite Z.mul_1_r in R2.
  change (2 ^ 53) with 9007199254740992 in *.
  change (2 ^ 44) with 17592186044416 in *.
  change (2 ^ 52) with 4503599627370496 in *.
  set (T := 9007199254740992) in *.
  assert (HT : T = 9007199254740992) by reflexivity.
  clearbody T. clear HS Q1 Q2.
  assert (Hxm : 0 <= x * m) by nia.
  (* the upper bound *)
  assert (U1 : T * (T * (y * m)) <= (T + 1) * ((T + 1) * (100 * (n * S)))).
  { assert (A : T * (y * m) <= (T + 1) * (100 * (x * m))) by nia.
    assert (B : T * (100 * (x * m)) <= (T + 1) * (100 * (n * S))) by nia.
    nia. }
  assert (L1 : (T - 1) * ((T - 1) * (100 * (n * S))) <= T * (T * (y * m))).
  { assert (A : (T - 1) * (100 * (x * m)) <= T * (y * m)) by nia.
    assert (B : (T - 1) * (100 * (n * S)) <= T * (100 * (x * m))) by nia.
    nia. }
  split.
  - apply Z.div_le_lower_bound; [exact PS|].
    assert (C : T * T * ((k - 1) * m) <= (T - 1) * (T - 1) * (100 * n)).
    { subst T. nia. }
    assert (D : T * (T * (S * (k - 1) * m)) <= T * (T * (y * m))).
    { eapply Z.le_trans; [|exact L1].
      replace (T * (T * (S * (k - 1) * m)))
        with (S * (T * T * ((k - 1) * m))) by ring.
      replace ((T - 1) * ((T - 1) * (100 * (n * S))))
        with (S * ((T - 1) * (T - 1) * (100 * n))) by ring.
      apply Z.mul_le_mono_nonneg_l; lia. }
    assert (PT : 0 < T) by lia.
    apply Z.mul_le_mono_pos_l in D; [|exact PT].
    apply Z.mul_le_mono_pos_l in D; [|exact PT].
    apply Z.mul_le_mono_pos_r in D; [exact D | exact Hm].
  - assert (y / S < k + 1); [|lia].
    apply Z.div_lt_upper_bound; [exact PS|].
    assert (C : (T + 1) * (T + 1) * (100 * n) < T * T * (100 * n + 1)).
    { subst T. nia. }
    assert (D : T * (T * (y * m)) < T * (T * (S * (k + 1) * m))).
    { eapply Z.le_lt_trans; [exact U1|].
      replace ((T + 1) * ((T + 1) * (100 * (n * S))))
        with (S * ((T + 1) * (T + 1) * (100 * n))) by ring.
      apply Z.lt_le_trans with (S * (T * T * (100 * n + 1))).
      - apply Z.mul_lt_mono_pos_l; lia.
      - replace (T * (T * (S * (k + 1) * m)))
          with (S * (T * T * ((k + 1) * m))) by ring.
        apply Z.mul_le_mono_nonneg_l; [lia|].
        apply Z.mul_le_mono_nonneg_l; [nia | lia]. }
    assert (PT : 0 < T) by lia.
    apply Z.mul_lt_mono_pos_l in D; [|exact PT].
    apply Z.mul_lt_mono_pos_l in D; [|exact PT].
    apply Z.mul_lt_mono_pos_r in D; [exact D | exact Hm].
Qed.

(** X18, the percentage against the exact one: for a processed count
    that does not exceed the total and a total below 2^44, the expression
    [int((processed / total) * 100)] raises nothing and gives the exact
    percentage rounded down, or one less. *)
Theorem percent_near_exact (processed total : Z) :
  0 <= processed <= total -> 0 < total -> total < 2 ^ 44 ->
  exists p, percent processed total = inr p
            /\ 100 * processed / total - 1 <= p <= 100 * processed / total.
Proof.
  intros Hn Hm Hb. exists (percent_spec processed total). split.
  - assert (0 < 2 ^ 960) by (apply pow2_pos; lia).
    apply percent_total; nia.
  - now apply percent_spec_near.
Qed.

Lemma percent_near_exact_witness :
  exists p, percent 29 100 = inr p /\ 100 * 29 / 100 - 1 <= p <= 100 * 29 / 100.
Proof.
  apply (percent_near_exact 29 100); [lia | lia | reflexivity].
Defined.

(** X19, the two ends of the scale: whatever the total, a processed count
    equal to the total gives exactly 100 and a processed count of zero
    gives exactly 0, and neither raises. *)
Theorem percent_exact_at_ends (total : Z) :
  0 < total ->
  percent total total = inr 100 /\ percent 0 total = inr 0.
Proof.
  intros Hm. assert (0 < 2 ^ 960) by (apply pow2_pos; lia). split.
  - rewrite percent_total by nia. now rewrite percent_spec_full.
  - rewrite percent_total by nia. now rewrite percent_spec_none.
Qed.

Lemma percent_exact_at_ends_witness :
  percent 7 7 = inr 100 /\ percent 0 7 = inr 0.
Proof.
  apply (percent_exact_at_ends 7). lia.
Defined.

(** ** What the indexed recognizer reads *)

















(** *** The counts as the child prints them *)




(** *** Lines that [strip] leaves alone *)



Lemma nonempty_app_r (a b : string) :
  PyText.nonempty b = true -> PyText.nonempty (a ++ b) = true.
Proof. intros H. destruct a; [exact H | reflexivity]. Qed.





Lemma append_output_tracking (line : string) (j : AnalysisJob) :
  tracking (append_output line j) = tracking j.
Proof. reflexivity. Qed.





(** *** What the total-discovery recognizer reads *)







(** ** Summary statistics *)

Lemma add_field_summable (k : string) (acc : Z) (r : dict) :
  summable (dict_get (Some k) r) = true ->
  add_field k acc r = inr (acc + number_of (dict_get (Some k) r)).
Proof.
  unfold add_field. destruct (dict_get (Some k) r) as [v|]; simpl.
  - destruct v as [|s|n|b|l]; simpl; intros H.
    + now rewrite Z.add_0_r.
    + destruct s; [now rewrite Z.add_0_r | discriminate].
    + destruct (Z.eqb_spec n 0) as [->|]; simpl; [now rewrite Z.add_0_r|].
      reflexivity.
    + destruct b; [reflexivity | now rewrite Z.add_0_r].
    + destruct l; [now rewrite Z.add_0_r | discriminate].
  - intros _. now rewrite Z.add_0_r.
Qed.

Lemma add_field_raises (k : string) (acc : Z) (r : dict) :
  summable (dict_get (Some k) r) = false ->
  exists msg, add_field k acc r = inl (TypeError msg).
Proof.
  unfold add_field. destruct (dict_get (Some k) r) as [v|]; simpl;
    [|discriminate].
  destruct v as [|s|n|b|l]; simpl; try discriminate.
  - destruct s; [discriminate|]. intros _. eexists. reflexivity.
  - destruct l; [discriminate|]. intros _. eexists. reflexivity.
Qed.

Lemma sum_field_summable (k : string) (results : list dict) :
  Forall (fun r => summable (dict_get (Some k) r) = true) results ->
  forall acc, sum_field k results acc = inr (acc + field_total k results).
Proof.
  induction 1 as [|r rest Hr _ IH]; intros acc; simpl.
  - now rewrite Z.add_0_r.
  - rewrite (add_field_summable k acc r Hr), IH. f_equal. lia.
Qed.

Lemma sum_field_raises (k : string) (results : list dict) (r : dict) :
  In r results -> summable (dict_get (Some k) r) = false ->
  forall acc, exists msg, sum_field k results acc = inl (TypeError msg).
Proof.
  intros Hin Hr. induction results as [|r0 rest IH]; [contradiction|].
  intros acc. simpl.
  destruct (summable (dict_get (Some k) r0)) eqn:H0.
  - rewrite (add_field_summable k acc r0 H0).
    destruct Hin as [->|Hin]; [congruence|]. now apply IH.
  - destruct (add_field_raises k acc r0 H0) as [msg E]. rewrite E.
    exists msg. reflexivity.
Qed.

Lemma sum_field_value (k : string) (results : list dict) :
  forall acc t, sum_field k results acc = inr t ->
                t = acc + field_total k results.
Proof.
  induction results as [|r rest IH]; intros acc t; simpl.
  - intros E. inversion E. lia.
  - destruct (summable (dict_get (Some k) r)) eqn:Hr.
    + rewrite (add_field_summable k acc r Hr). intros E.
      apply IH in E. lia.
    + destruct (add_field_raises k acc r Hr) as [msg E]. rewrite E.
      discriminate.
Qed.

Lemma field_total_app (k : string) (a b : list dict) :
  field_total k (a ++ b) = field_total k a + field_total k b.
Proof.
  unfold field_total. induction a as [|r a IH]; simpl; [reflexivity|].
  rewrite IH. lia.
Qed.

Lemma count_if_bounds (test : dict -> exn + bool) (results : list dict) :
  forall acc c, count_if test results acc = inr c ->
                acc <= c <= acc + Z.of_nat (List.length results).
Proof.
  induction results as [|r rest IH]; intros acc c; simpl.
  - intros E. inversion E. lia.
  - destruct (test r) as [e|b]; [discriminate|]. intros E.
    apply IH in E. destruct b; lia.
Qed.

Lemma count_if_app (test : dict -> exn + bool) (a b : list dict) :
  forall acc, count_if test (a ++ b) acc
              = match count_if test a acc with
                | inl e => inl e
                | inr c => count_if test b c
                end.
Proof.
  induction a as [|r a IH]; intros acc; simpl; [reflexivity|].
  destruct (test r) as [e|x]; [reflexivity | apply IH].
Qed.

Lemma count_if_shift (test : dict -> exn + bool) (results : list dict) :
  forall acc c d, count_if test results acc = inr c ->
                  count_if test results (acc + d) = inr (c + d).
Proof.
  induction results as [|r rest IH]; intros acc c d; simpl.
  - intros E. inversion E. reflexivity.
  - destruct (test r) as [e|b]; [discriminate|]. intros E.
    destruct b; [|now apply IH].
    replace (acc + d + 1) with (acc + 1 + d) by lia. now apply IH.
Qed.

Lemma count_if_flag_total (k : string) (results : list dict) :
  forall acc, exists c, count_if (flag k) results acc = inr c.
Proof.
  induction results as [|r rest IH]; intros acc; simpl; [eauto|].
  unfold flag at 1. destruct (dict_get (Some k) r); apply IH.
Qed.

Lemma count_if_migration_total (results : list dict) :
  Forall (fun r => text_or_absent (dict_get (Some "Migration_Issue") r) = true)
         results ->
  forall acc, exists c, count_if has_migration_issue results acc = inr c.
Proof.
  induction 1 as [|r rest Hr _ IH]; intros acc; simpl; [eauto|].
  unfold has_migration_issue at 1.
  destruct (dict_get (Some "Migration_Issue") r) as [[]|];
    try discriminate; apply IH.
Qed.

(** The parts of a summary that was computed. *)
Lemma calculate_summary_parts (r0 : dict) (rest : list dict) (s : Summary.t) :
  calculate_summary (r0 :: rest) = inr s ->
  let results := r0 :: rest in
  sum_field "Repo_Size(mb)" results 0 = inr (Summary.total_size_mb s)
  /\ count_if has_migration_issue results 0 = inr (Summary.repos_with_issues s)
  /\ count_if (flag "Is_Empty") results 0 = inr (Summary.empty_repos s)
  /\ count_if (flag "isArchived") results 0 = inr (Summary.archived_repos s)
  /\ count_if (flag "isFork") results 0 = inr (Summary.forked_repos s)
  /\ sum_field "PR_Count" results 0 = inr (Summary.total_prs s)
  /\ sum_field "Issue_Count" results 0 = inr (Summary.total_issues s)
  /\ Summary.total_repos s = Z.of_nat (List.length results)
  /\ exists t, sum_field "Record_Count" results 0 = inr t
               /\ average t (Z.of_nat (List.length results))
                  = inr (Summary.avg_record_count s).
Proof.
  intros H results. unfold calculate_summary in H. fold results in H.
  destruct (sum_field "Repo_Size(mb)" results 0) as [e|a1]; [discriminate|].
  destruct (sum_field "Record_Count" results 0) as [e|a2]; [discriminate|].
  destruct (count_if has_migration_issue results 0) as [e|a3]; [discriminate|].
  destruct (count_if (flag "Is_Empty") results 0) as [e|a4]; [discriminate|].
  destruct (count_if (flag "isArchived") results 0) as [e|a5]; [discriminate|].
  destruct (count_if (flag "isFork") results 0) as [e|a6]; [discriminate|].
  destruct (sum_field "PR_Count" results 0) as [e|a7]; [discriminate|].
  destruct (sum_field "Issue_Count" results 0) as [e|a8]; [discriminate|].
  destruct (average a2 (Z.of_nat (List.length results))) as [e|a9] eqn:Ea;
    [discriminate|].
  inversion H. subst s. cbn. repeat split. exists a2. auto.
Qed.

(** X23, the counts of a summary: whenever [calculate_summary] returns,
    the number of repositories is the number of records, and the numbers
    of repositories with issues, empty, archived and forked lie between 0
    and that number. *)
Theorem calculate_summary_counts (results : list dict) (s : Summary.t) :
  calculate_summary results = inr s ->
  let n := Z.of_nat (List.length results) in
  Summary.total_repos s = n
  /\ 0 <= Summary.repos_with_issues s <= n
  /\ 0 <= Summary.empty_repos s <= n
  /\ 0 <= Summary.archived_repos s <= n
  /\ 0 <= Summary.forked_repos s <= n.
Proof.
  destruct results as [|r0 rest].
  - intros H. inversion H. cbn. lia.
  - intros H n. apply calculate_summary_parts in H. cbv zeta in H.
    destruct H as (_ & B & C & D & E & _ & _ & N & _).
    apply count_if_bounds in B, C, D, E. fold n in B, C, D, E, N. lia.
Qed.

Lemma calculate_summary_counts_witness :
  Summary.total_repos
    {| Summary.total_repos := 2; Summary.total_size_mb := 175;
       Summary.repos_with_issues := 1; Summary.avg_record_count := 33250;
       Summary.empty_repos := 0; Summary.archived_repos := 0;
       Summary.forked_repos := 1; Summary.total_prs := 435;
       Summary.total_issues := 620 |}
  = Z.of_nat (List.length sample_rows).
Proof.
  apply (calculate_summary_counts sample_rows). vm_compute. reflexivity.
Defined.

(** *** The average *)

(** The nearest integer with ties to even is the only integer within one
    half that is even at a tie. *)
Lemma rne_unique (a d k : Z) :
  0 < d ->
  (2 * k - 1) * d <= 2 * a <= (2 * k + 1) * d ->
  (2 * a = (2 * k + 1) * d -> Z.even k = true) ->
  (2 * a = (2 * k - 1) * d -> Z.even k = true) ->
  rne a d = k.
Proof.
  intros Hd [Hlo Hhi] Tu Tl. unfold rne.
  pose proof (Z.div_mod a d ltac:(lia)) as Ediv.
  pose proof (Z.mod_pos_bound a d Hd) as Hrem.
  set (q := a / d) in *. set (r := a mod d) in *.
  destruct (Z.compare_spec (2 * r) d) as [C|C|C].
  - assert (Hk : k = q \/ k = q + 1) by nia.
    destruct Hk as [->| ->].
    + rewrite Tu by nia. reflexivity.
    + assert (Ev : Z.even (q + 1) = true) by (apply Tl; nia).
      replace (q + 1) with (Z.succ q) in Ev by lia.
      rewrite Z.even_succ in Ev. rewrite <- Z.negb_odd, Ev. reflexivity.
  - nia.
  - nia.
Qed.

(** A quotient that fits in 53 bits is not moved by the rounding. *)
Lemma rnd_exact (c k n : Z) :
  0 <= c < 2 ^ 53 -> 0 <= k -> 0 < n -> rnd (c * 2 ^ k * n) n = c * 2 ^ k.
Proof.
  intros [Hc0 Hc] Hk Hn. unfold rnd.
  pose proof (pow2_pos k Hk) as Pk.
  unfold grid. rewrite Z.div_mul by lia.
  destruct (Z.eq_dec c 0) as [->|Hc1].
  { rewrite !Z.mul_0_l. simpl Zdigits2. change (Z.max (0 - 53) 0) with 0.
    change (2 ^ 0) with 1. rewrite Z.mul_1_r, rne_zero by lia. reflexivity. }
  assert (Hdig : Zdigits2 (c * 2 ^ k) <= 53 + k).
  { apply Zdigits2_le_pow; [lia | nia |].
    rewrite pow2_split by lia. nia. }
  set (g := Z.max (Zdigits2 (c * 2 ^ k) - 53) 0).
  assert (Hg : 0 <= g <= k) by (unfold g; lia).
  pose proof (pow2_pos g ltac:(lia)) as Pg.
  assert (Ek : 2 ^ k = 2 ^ (k - g) * 2 ^ g)
    by (rewrite <- pow2_split by lia; f_equal; lia).
  replace (c * 2 ^ k * n) with (c * 2 ^ (k - g) * (n * 2 ^ g))
    by (rewrite Ek; ring).
  rewrite rne_exact by nia. rewrite Ek. ring.
Qed.

(** Rounding the quotient of two integers below 2^52 to binary64 and then
    to an integer gives the integer nearest to the quotient. *)
Lemma rne_rnd (t n : Z) :
  0 <= t < 2 ^ 52 -> 0 < n < 2 ^ 52 ->
  rne (rnd (t * 2 ^ 1074) n) (2 ^ 1074) = rne t n.
Proof.
  intros [Ht0 Ht] [Hn0 Hn].
  set (S := 2 ^ 1074).
  assert (PS : 0 < S) by (apply pow2_pos; lia).
  assert (ES : S = 2 * 2 ^ 1073) by (unfold S; now rewrite <- Z.pow_succ_r by lia).
  destruct (Z.eq_dec t 0) as [->|Ht1].
  { rewrite Z.mul_0_l, rnd_zero, !rne_zero by lia. reflexivity. }
  destruct (rne_spec t n Hn0) as ([Rlo Rhi] & Tu & Tl).
  set (r := rne t n) in *.
  assert (Hr : 0 <= r) by (apply rne_nonneg; lia).
  assert (Hr52 : r <= 2 ^ 52).
  { apply rne_le; [lia|]. nia. }
  set (x := rnd (t * S) n).
  destruct (Z.eq_dec (2 * t) ((2 * r - 1) * n)) as [El|Nl];
    [|destruct (Z.eq_dec (2 * t) ((2 * r + 1) * n)) as [Eu|Nu]].
  - (* the quotient is a half below r: it is exact *)
    assert (Ex : x = (2 * r - 1) * 2 ^ 1073).
    { unfold x. replace (t * S) with ((2 * r - 1) * 2 ^ 1073 * n)
        by (rewrite ES; nia).
      apply rnd_exact; [|lia|lia].
      change (2 ^ 53) with (2 * 2 ^ 52). nia. }
    pose proof (Tl El) as Ev.
    apply rne_unique; [exact PS | rewrite Ex, ES; nia | auto | auto].
  - (* the quotient is a half above r: it is exact *)
    assert (Ex : x = (2 * r + 1) * 2 ^ 1073).
    { unfold x. replace (t * S) with ((2 * r + 1) * 2 ^ 1073 * n)
        by (rewrite ES; nia).
      apply rnd_exact; [|lia|lia].
      change (2 ^ 53) with (2 * 2 ^ 52).
      assert (r < 2 ^ 52) by nia. lia. }
    pose proof (Tu Eu) as Ev.
    apply rne_unique; [exact PS | rewrite Ex, ES; nia | auto | auto].
  - (* otherwise the rounded quotient stays strictly within one half *)
    assert (Q : 2 ^ 52 <= t * S / n).
    { apply Z.div_le_lower_bound; [lia|].
      assert (2 ^ 52 * 2 ^ 52 <= S)
        by (unfold S; rewrite <- pow2_split by lia;
            apply Z.pow_le_mono_r; lia).
      nia. }
    pose proof (rnd_rel (t * S) n Hn0 Q) as R. fold x in R.
    change (2 ^ 53) with (2 * 2 ^ 52) in R.
    set (T := 2 ^ 52) in *. assert (PT : 0 < T) by (apply pow2_pos; lia).
    clearbody T. clear ES. clearbody S.
    assert (Lo : (2 * r - 1) * S < 2 * x).
    { destruct (Z_lt_le_dec ((2 * r - 1) * S) (2 * x)) as [H|H];
        [exact H|exfalso].
      assert (A : 2 * T * (2 * x * n) <= 2 * T * ((2 * t - 1) * S)).
      { apply Z.mul_le_mono_nonneg_l; [lia|].
        apply Z.le_trans with ((2 * r - 1) * S * n); [nia|].
        replace ((2 * r - 1) * S * n) with (((2 * r - 1) * n) * S) by ring.
        apply Z.mul_le_mono_nonneg_r; lia. }
      nia. }
    assert (Hi : 2 * x < (2 * r + 1) * S).
    { destruct (Z_lt_le_dec (2 * x) ((2 * r + 1) * S)) as [H|H];
        [exact H|exfalso].
      assert (A : 2 * T * ((2 * t + 1) * S) <= 2 * T * (2 * x * n)).
      { apply Z.mul_le_mono_nonneg_l; [lia|].
        apply Z.le_trans with ((2 * r + 1) * S * n); [|nia].
        replace ((2 * r + 1) * S * n) with (((2 * r + 1) * n) * S) by ring.
        apply Z.mul_le_mono_nonneg_r; lia. }
      nia. }
    apply rne_unique; [exact PS | lia | lia | lia].
Qed.

Lemma round_float_fix (m : positive) (e : Z) :
  -1074 <= e ->
  round_float (S754_finite false m e)
  = inr (rne (Zpos m * 2 ^ (e + 1074)) (2 ^ 1074)).
Proof.
  intros He. cbn [round_float]. f_equal.
  pose proof (pow2_pos 1074 ltac:(lia)) as P.
  destruct (Z.leb_spec 0 e) as [Hpos|Hneg].
  - rewrite pow2_split by lia. rewrite Z.mul_assoc.
    now rewrite rne_exact by lia.
  - pose proof (pow2_pos (e + 1074) ltac:(lia)) as Pc.
    pose proof (pow2_pos (- e) ltac:(lia)) as Pe.
    replace (2 ^ 1074) with (2 ^ (- e) * 2 ^ (e + 1074))
      by (rewrite <- pow2_split by lia; f_equal; lia).
    now rewrite rne_scale by lia.
Qed.

(** The average raises nothing for a non-negative total of at most 2^960
    times the number of records, and is the rounded quotient rounded
    again to an integer. *)
Lemma average_fix (t n : Z) :
  0 <= t -> 0 < n -> t <= 2 ^ 960 * n ->
  average t n = inr (rne (rnd (t * 2 ^ 1074) n) (2 ^ 1074)).
Proof.
  intros Ht Hn Hb.
  assert (P1074 : 0 < 2 ^ 1074) by (apply pow2_pos; lia).
  assert (P960 : 0 < 2 ^ 960) by (apply pow2_pos; lia).
  assert (V1 : rnd (t * 2 ^ 1074) n < 2 ^ 2046).
  { apply Z.le_lt_trans with (2 ^ 2034);
      [|apply Z.pow_lt_mono_r; lia].
    rewrite <- (rnd_pow2 n 2034) by lia.
    apply rnd_mono; [nia | lia | lia |].
    change (2 ^ 2034) with (2 ^ 960 * 2 ^ 1074). nia. }
  destruct n as [|m|m]; try lia.
  destruct t as [|p|p]; try lia.
  - rewrite Z.mul_0_l, rnd_zero, rne_zero by lia. reflexivity.
  - unfold average, PyFloat.int_truediv.
    change (Zpos m =? 0) with false. cbv iota.
    change PyFloat.prec with 53. change PyFloat.emax with 1024.
    cbn [PyFloat.exact].
    destruct (truediv_range p m V1) as [[Ef EV]|(mq & eq & Ef & He & EV)];
      cbv zeta in *; rewrite Ef; cbv iota.
    + rewrite EV, rne_zero by lia. reflexivity.
    + rewrite round_float_fix by exact He. now rewrite EV.
Qed.

Lemma average_nearest (t n : Z) :
  0 <= t < 2 ^ 52 -> 0 < n < 2 ^ 52 -> average t n = inr (rne t n).
Proof.
  intros Ht Hn. rewrite average_fix; [|lia|lia|].
  - now rewrite rne_rnd.
  - assert (2 ^ 52 <= 2 ^ 960) by (apply Z.pow_le_mono_r; lia). nia.
Qed.

Lemma summable_table_field (results : list dict) (k : string) :
  summable_table results -> In k summed_fields ->
  Forall (fun r => summable (dict_get (Some k) r) = true) results.
Proof.
  intros H Hk. unfold summable_table in H. rewrite Forall_forall in *.
  intros r Hr. destruct (H r Hr) as [A _].
  rewrite forallb_forall in A. now apply A.
Qed.

Lemma count_if_value (test : dict -> exn + bool) (spec : dict -> bool)
  (results : list dict) :
  Forall (fun r => test r = inr (spec r)) results ->
  forall acc, count_if test results acc = inr (acc + count_of spec results).
Proof.
  unfold count_of. induction 1 as [|r rest Hr _ IH]; intros acc; simpl.
  - now rewrite Z.add_0_r.
  - rewrite Hr. destruct (spec r); rewrite IH; f_equal; simpl List.length; lia.
Qed.

Lemma flag_value (k : string) (results : list dict) :
  Forall (fun r => flag k r = inr (flag_set k r)) results.
Proof.
  apply Forall_forall. intros r _. unfold flag, flag_set.
  destruct (dict_get (Some k) r); reflexivity.
Qed.

Lemma issue_value (results : list dict) :
  summable_table results ->
  Forall (fun r => has_migration_issue r = inr (issue_marked r)) results.
Proof.
  unfold summable_table. intros H. rewrite Forall_forall in *.
  intros r Hr. destruct (H r Hr) as [_ B].
  unfold has_migration_issue, issue_marked.
  destruct (dict_get (Some "Migration_Issue") r) as [[]|];
    try discriminate; reflexivity.
Qed.

(** X24, the summary of a well-typed table: when in every record the four
    summed fields are absent, numbers or falsy and [Migration_Issue] is
    absent or a text, and the record counts add up to a non-negative total
    of at most 2^960 per record, [calculate_summary] raises nothing; each
    total is the sum of the numbers under its field and each count is the
    number of records marked. *)
Theorem calculate_summary_typed (results : list dict) :
  summable_table results ->
  0 <= field_total "Record_Count" results
    <= 2 ^ 960 * Z.of_nat (List.length results) ->
  exists s,
    calculate_summary results = inr s
    /\ Summary.total_repos s = Z.of_nat (List.length results)
    /\ Summary.total_size_mb s = field_total "Repo_Size(mb)" results
    /\ Summary.total_prs s = field_total "PR_Count" results
    /\ Summary.total_issues s = field_total "Issue_Count" results
    /\ Summary.repos_with_issues s = count_of issue_marked results
    /\ Summary.empty_repos s = count_of (flag_set "Is_Empty") results
    /\ Summary.archived_repos s = count_of (flag_set "isArchived") results
    /\ Summary.forked_repos s = count_of (flag_set "isFork") results.
Proof.
  intros Ht Hb. destruct results as [|r0 rest].
  { eexists. split; [reflexivity|]. cbn. repeat split. }
  set (results := r0 :: rest) in *.
  assert (Hlen : 0 < Z.of_nat (List.length results))
    by (unfold results; simpl List.length; lia).
  assert (S1 := sum_field_summable "Repo_Size(mb)" results
                  (summable_table_field results "Repo_Size(mb)" Ht
                     ltac:(simpl; tauto)) 0).
  assert (S2 := sum_field_summable "Record_Count" results
                  (summable_table_field results "Record_Count" Ht
                     ltac:(simpl; tauto)) 0).
  assert (S3 := sum_field_summable "PR_Count" results
                  (summable_table_field results "PR_Count" Ht
                     ltac:(simpl; tauto)) 0).
  assert (S4 := sum_field_summable "Issue_Count" results
                  (summable_table_field results "Issue_Count" Ht
                     ltac:(simpl; tauto)) 0).
  assert (C1 := count_if_value _ _ results (issue_value results Ht) 0).
  assert (C2 := count_if_value _ _ results (flag_value "Is_Empty" results) 0).
  assert (C3 := count_if_value _ _ results (flag_value "isArchived" results) 0).
  assert (C4 := count_if_value _ _ results (flag_value "isFork" results) 0).
  rewrite Z.add_0_l in S1, S2, S3, S4, C1, C2, C3, C4.
  pose proof (average_fix (field_total "Record_Count" results)
                (Z.of_nat (List.length results))
                ltac:(lia) Hlen ltac:(lia)) as A.
  unfold calculate_summary. fold results.
  rewrite S1, S2, C1, C2, C3, C4, S3, S4, A.
  eexists. split; [reflexivity|]. cbn. repeat split.
Qed.

Lemma calculate_summary_typed_witness :
  exists s, calculate_summary sample_rows = inr s
            /\ Summary.total_prs s = field_total "PR_Count" sample_rows.
Proof.
  destruct (calculate_summary_typed sample_rows) as (s & A & _ & _ & B & _).
  - repeat constructor.
  - vm_compute. split; discriminate.
  - exists s. split; assumption.
Defined.

(** X25, the average of a summary: whenever [calculate_summary] returns
    for a table whose record counts add up to a non-negative total below
    2^52, over fewer than 2^52 records, the average it reports is the
    integer nearest to the total divided by the number of records, the
    even one when two are as near. *)
Theorem calculate_summary_average (results : list dict) (s : Summary.t) :
  calculate_summary results = inr s ->
  results <> [] ->
  0 <= field_total "Record_Count" results < 2 ^ 52 ->
  Z.of_nat (List.length results) < 2 ^ 52 ->
  Summary.avg_record_count s
  = rne (field_total "Record_Count" results) (Z.of_nat (List.length results)).
Proof.
  intros H Hne Ht Hn. destruct results as [|r0 rest]; [congruence|].
  apply calculate_summary_parts in H. cbv zeta in H.
  destruct H as (_ & _ & _ & _ & _ & _ & _ & _ & t & St & At).
  apply sum_field_value in St. rewrite Z.add_0_l in St. subst t.
  rewrite average_nearest in At.
  - now inversion At.
  - exact Ht.
  - simpl List.length in *. lia.
Qed.

Lemma calculate_summary_average_witness :
  Summary.avg_record_count
    {| Summary.total_repos := 2; Summary.total_size_mb := 0;
       Summary.repos_with_issues := 0; Summary.avg_record_count := 2;
       Summary.empty_repos := 0; Summary.archived_repos := 0;
       Summary.forked_repos := 0; Summary.total_prs := 0;
       Summary.total_issues := 0 |}
  = rne (field_total "Record_Count"
           [ [(Some "Record_Count", VInt 2)]; [(Some "Record_Count", VInt 3)] ])
        2.
Proof.
  apply (calculate_summary_average
           [ [(Some "Record_Count", VInt 2)]; [(Some "Record_Count", VInt 3)] ]).
  - vm_compute. reflexivity.
  - discriminate.
  - vm_compute. split; [discriminate | reflexivity].
  - vm_compute. reflexivity.
Defined.

(** X26, the summary of a table with text in a summed field: when some
    record holds, under one of the four summed fields, a text that is not
    empty or a list that is not empty, [calculate_summary] raises. *)
Theorem calculate_summary_raises (results : list dict) (r : dict)
  (k : string) :
  In r results -> In k summed_fields ->
  summable (dict_get (Some k) r) = false ->
  exists e, calculate_summary results = inl e.
Proof.
  intros Hr Hk Hs.
  pose proof (sum_field_raises k results r Hr Hs 0) as [msg E].
  destruct results as [|r0 rest]; [contradiction|].
  unfold calculate_summary. set (results := r0 :: rest) in *.
  simpl in Hk. destruct Hk as [<-|[<-|[<-|[<-|[]]]]];
    repeat match goal with
           | |- exists _, match ?x with inl _ => _ | inr _ => _ end = _ =>
               first [ rewrite E; eexists; reflexivity
                     | destruct x; [eexists; reflexivity|] ]
           end.
Qed.

Lemma calculate_summary_raises_witness :
  exists e,
    calculate_summary
      (parse_csv_results
         (inr (Csv.file_of_text
                 ("Repo_Name,Record_Count" ++ Csv.lineterminator
                  ++ "a,n/a" ++ Csv.lineterminator))))
    = inl e.
Proof.
  apply (calculate_summary_raises _
           [(Some "Repo_Name", VStr "a"); (Some "Record_Count", VStr "n/a")]
           "Record_Count").
  - vm_compute. left. reflexivity.
  - vm_compute. tauto.
  - reflexivity.
Defined.

(** ** Names given in a form field *)

Lemma string_forall_snoc (test : ascii -> bool) (s : string) (c : ascii) :
  string_forall test (Csv.snoc s c) = string_forall test s && test c.
Proof.
  unfold Csv.snoc. induction s as [|x s IH]; simpl.
  - now rewrite andb_true_r.
  - rewrite IH. now rewrite andb_assoc.
Qed.

Lemma string_forall_lstrip (test : ascii -> bool) (s : string) :
  string_forall test s = true -> string_forall test (PyText.lstrip s) = true.
Proof.
  induction s as [|c s IH]; simpl; [auto|].
  intros H. destruct (PyText.is_space c); [|exact H].
  apply andb_prop in H. now apply IH.
Qed.

Lemma string_forall_rstrip (test : ascii -> bool) (s : string) :
  string_forall test s = true -> string_forall test (PyText.rstrip s) = true.
Proof.
  induction s as [|c s IH]; simpl; [auto|].
  intros H. apply andb_prop in H. destruct H as [Hc Hs].
  specialize (IH Hs). destruct (PyText.rstrip s) eqn:E.
  - destruct (PyText.is_space c); [reflexivity|]. simpl. now rewrite Hc.
  - simpl in *. now rewrite Hc.
Qed.

Lemma string_forall_strip (test : ascii -> bool) (s : string) :
  string_forall test s = true -> string_forall test (PyText.strip s) = true.
Proof.
  intros H. unfold PyText.strip.
  now apply string_forall_rstrip, string_forall_lstrip.
Qed.

Lemma rstrip_idem (s : string) : PyText.rstrip (PyText.rstrip s) = PyText.rstrip s.
Proof.
  induction s as [|c s IH]; simpl; [reflexivity|].
  destruct (PyText.rstrip s) as [|x r] eqn:E.
  - destruct (PyText.is_space c) eqn:Hc; [reflexivity|].
    simpl. now rewrite Hc.
  - simpl. simpl in IH. destruct (match PyText.rstrip r with
                                  | "" => if PyText.is_space x then "" else String x ""
                                  | String a s0 => String x (String a s0)
                                  end) eqn:E2; [discriminate IH|].
    now rewrite IH.
Qed.

Lemma rstrip_head (c : ascii) (s : string) :
  PyText.is_space c = false ->
  exists r, PyText.rstrip (String c s) = String c r.
Proof.
  intros Hc. simpl. destruct (PyText.rstrip s); rewrite ?Hc; eauto.
Qed.

Lemma lstrip_head (s : string) :
  PyText.lstrip s = ""
  \/ exists c r, PyText.lstrip s = String c r /\ PyText.is_space c = false.
Proof.
  induction s as [|c s IH]; simpl; [auto|].
  destruct (PyText.is_space c) eqn:Hc; [exact IH|].
  right. eauto.
Qed.

Lemma strip_idem (s : string) : PyText.strip (PyText.strip s) = PyText.strip s.
Proof.
  unfold PyText.strip. destruct (lstrip_head s) as [E|(c & r & E & Hc)];
    rewrite E.
  - reflexivity.
  - destruct (rstrip_head c r Hc) as [r' E']. rewrite E'.
    cbn [PyText.lstrip]. rewrite Hc. rewrite <- E'. apply rstrip_idem.
Qed.

Lemma replace_commas_free (s : string) :
  string_forall (fun c => negb (Ascii.eqb c ",")) (replace_commas s) = true.
Proof.
  induction s as [|c s IH]; simpl; [reflexivity|]. rewrite IH.
  destruct (Ascii.eqb_spec c ","); [reflexivity|].
  destruct (Ascii.eqb_spec c ","); [contradiction | reflexivity].
Qed.

Lemma split_newlines_pieces (test : ascii -> bool) (s : string) :
  string_forall test s = true ->
  forall cur, string_forall test cur = true ->
    Forall (fun x => string_forall test x = true
                     /\ string_forall (fun c => negb (Ascii.eqb c Csv.LF)) x
                        = true)
           (split_newlines s cur)
    \/ string_forall (fun c => negb (Ascii.eqb c Csv.LF)) cur = false.
Proof.
  induction s as [|c s IH]; intros Hs cur Hcur; simpl.
  - destruct (string_forall (fun c => negb (Ascii.eqb c Csv.LF)) cur) eqn:E;
      [left | right; reflexivity].
    constructor; [split; assumption | constructor].
  - simpl in Hs. apply andb_prop in Hs. destruct Hs as [Hc Hs].
    destruct (string_forall (fun c => negb (Ascii.eqb c Csv.LF)) cur) eqn:E;
      [left | right; reflexivity].
    destruct (Ascii.eqb c Csv.LF) eqn:Ec.
    + constructor; [split; assumption|].
      destruct (IH Hs "" eq_refl) as [H|H]; [exact H | discriminate].
    + destruct (IH Hs (Csv.snoc cur c)) as [H|H].
      * rewrite string_forall_snoc, Hcur, Hc. reflexivity.
      * exact H.
      * rewrite string_forall_snoc, E, Ec in H. discriminate.
Qed.

Lemma parse_names_kept (s name : string) :
  In name (parse_names s) -> clean_name name = true.
Proof.
  unfold parse_names. intros H. apply filter_In in H. destruct H as [Hin Hne].
  apply in_map_iff in Hin. destruct Hin as (piece & <- & Hp).
  destruct (split_newlines_pieces _ (replace_commas s) (replace_commas_free s)
              "" eq_refl) as [F|F]; [|discriminate].
  rewrite Forall_forall in F. destruct (F piece Hp) as [A B].
  unfold clean_name. rewrite Hne, strip_idem, String.eqb_refl.
  rewrite (string_forall_strip _ _ A), (string_forall_strip _ _ B).
  reflexivity.
Qed.

(** X27, the names read from a form field: every name that the
    comprehension of [api_analyze] keeps is not empty, has no white space at
    either end and contains neither a comma nor a line feed. *)
Theorem parse_names_clean (s : string) :
  Forall (fun name => clean_name name = true) (parse_names s).
Proof.
  apply Forall_forall. apply parse_names_kept.
Qed.

Lemma replace_commas_app (a b : string) :
  replace_commas (a ++ b) = replace_commas a ++ replace_commas b.
Proof. induction a as [|c a IH]; simpl; [reflexivity | now rewrite IH]. Qed.

Lemma replace_commas_none (s : string) :
  string_forall (fun c => negb (Ascii.eqb c ",")) s = true ->
  replace_commas s = s.
Proof.
  induction s as [|c s IH]; simpl; [reflexivity|].
  intros H. apply andb_prop in H. destruct H as [Hc Hs].
  rewrite (IH Hs). destruct (Ascii.eqb c ","); [discriminate | reflexivity].
Qed.

Lemma clean_name_cases (s : string) :
  clean_name s = true ->
  PyText.nonempty s = true /\ PyText.strip s = s
  /\ string_forall (fun c => negb (Ascii.eqb c ",")) s = true
  /\ string_forall (fun c => negb (Ascii.eqb c Csv.LF)) s = true.
Proof.
  unfold clean_name. intros H.
  apply andb_prop in H. destruct H as [H H4].
  apply andb_prop in H. destruct H as [H H3].
  apply andb_prop in H. destruct H as [H1 H2].
  apply String.eqb_eq in H2. auto.
Qed.

(** Commas and line feeds separate the names alike. *)
Lemma replace_commas_join (sep : ascii) (l : list string) :
  sep = ","%char \/ sep = Csv.LF ->
  Forall (fun x => clean_name x = true) l ->
  replace_commas (PyText.join (String sep "") l)
  = PyText.join (String Csv.LF "") l.
Proof.
  intros Hsep H. induction H as [|x l Hx Hl IH]; [reflexivity|].
  destruct (clean_name_cases x Hx) as (_ & _ & Hc & _).
  destruct l as [|y l]; [simpl; now apply replace_commas_none|].
  change (PyText.join (String sep "") (x :: y :: l))
    with (x ++ String sep "" ++ PyText.join (String sep "") (y :: l)).
  change (PyText.join (String Csv.LF "") (x :: y :: l))
    with (x ++ String Csv.LF "" ++ PyText.join (String Csv.LF "") (y :: l)).
  rewrite !replace_commas_app, IH, (replace_commas_none x Hc).
  destruct Hsep as [-> | ->]; reflexivity.
Qed.

Lemma split_newlines_run (x : string) :
  string_forall (fun c => negb (Ascii.eqb c Csv.LF)) x = true ->
  forall rest cur,
    split_newlines (x ++ rest) cur = split_newlines rest (cur ++ x).
Proof.
  induction x as [|c x IH]; intros H rest cur; simpl.
  - now rewrite append_nil_r.
  - simpl in H. apply andb_prop in H. destruct H as [Hc Hx].
    destruct (Ascii.eqb c Csv.LF); [discriminate|].
    rewrite (IH Hx). f_equal. unfold Csv.snoc.
    rewrite append_assoc. reflexivity.
Qed.

Lemma split_newlines_join (l : list string) :
  Forall (fun x => clean_name x = true) l -> l <> [] ->
  split_newlines (PyText.join (String Csv.LF "") l) "" = l.
Proof.
  intros H. induction H as [|x l Hx Hl IH]; [congruence|]. intros _.
  destruct (clean_name_cases x Hx) as (_ & _ & _ & Hn).
  destruct l as [|y l].
  - simpl. rewrite <- (append_nil_r x) at 1.
    rewrite split_newlines_run by exact Hn. reflexivity.
  - change (PyText.join (String Csv.LF "") (x :: y :: l))
      with (x ++ String Csv.LF (PyText.join (String Csv.LF "") (y :: l))).
    rewrite split_newlines_run by exact Hn.
    cbn [split_newlines]. rewrite Ascii.eqb_refl.
    rewrite IH by discriminate. reflexivity.
Qed.

(** X28, names written and read back: a list of names that are not empty,
    have no white space at either end and contain neither a comma nor a
    line feed is read back as it is from its names joined by commas, and
    from its names joined by line feeds. *)
Theorem parse_names_join (sep : ascii) (l : list string) :
  sep = ","%char \/ sep = Csv.LF ->
  Forall (fun x => clean_name x = true) l ->
  parse_names (PyText.join (String sep "") l) = l.
Proof.
  intros Hsep H. unfold parse_names. rewrite replace_commas_join by assumption.
  destruct l as [|x l]; [reflexivity|].
  rewrite split_newlines_join by (assumption || discriminate).
  induction H as [|y l' Hy Hl IH]; [reflexivity|].
  destruct (clean_name_cases y Hy) as (Hne & Hs & _).
  cbn [map filter]. rewrite Hs, Hne. f_equal. exact IH.
Qed.

Lemma parse_names_join_witness :
  parse_names (PyText.join (String "," "") ["acme"; "beta-org"])
  = ["acme"; "beta-org"].
Proof.
  apply (parse_names_join "," ["acme"; "beta-org"]).
  - left. reflexivity.
  - repeat constructor.
Defined.

(** ** The routes *)



(** X30, the status of [api_cancel]: an unknown identifier is answered
    with 404 and a job that is not running with 400, both leaving the
    registry as it was; a running job whose child, if any, is terminated
    without error is answered with 200; when terminating the child raises,
    the answer is 400 or 404 although the job is flagged as cancelled. *)
Theorem api_cancel_status (id : string) (o : terminate_outcome)
  (reg : registry) :
  (get_job reg id = None ->
   status_code (fst (api_cancel id o reg)) = 404
   /\ snd (api_cancel id o reg) = reg)
  /\ (forall job, get_job reg id = Some job -> status job <> RUNNING ->
        status_code (fst (api_cancel id o reg)) = 400
        /\ snd (api_cancel id o reg) = reg)
  /\ (forall job, get_job reg id = Some job -> status job = RUNNING ->
        _process job = None \/ (forall e, o <> TerminateRaised e) ->
        status_code (fst (api_cancel id o reg)) = 200
        /\ content (fst (api_cancel id o reg))
           = [("success", VBool true);
              ("message", VStr "Job cancellation requested")])
  /\ (forall job p e, get_job reg id = Some job -> status job = RUNNING ->
        _process job = Some p -> o = TerminateRaised e ->
        (status_code (fst (api_cancel id o reg)) = 400
         \/ status_code (fst (api_cancel id o reg)) = 404)
        /\ exists job', get_job (snd (api_cancel id o reg)) id = Some job'
                        /\ cancelled job' = true).
Proof.
  unfold api_cancel, cancel_job. split; [|split; [|split]].
  - intros Hg. rewrite Hg. split; reflexivity.
  - intros job Hg Hs. rewrite Hg.
    apply not_running_cases in Hs.
    destruct Hs as [Hs|[Hs|Hs]]; rewrite Hs; split; reflexivity.
  - intros job Hg Hs Ho. rewrite Hg, Hs. cbn [status_eqb negb].
    destruct (_process job) as [p|]; [|split; reflexivity].
    destruct Ho as [Ho|Ho]; [discriminate|].
    destruct o; try (split; reflexivity).
    exfalso. now apply (Ho e).
  - intros job p e Hg Hs Hp Ho. rewrite Hg, Hs, Hp, Ho.
    cbn [status_eqb negb fst snd]. split.
    + cbn [status_code].
      destruct (is_in "not running"
                  (PyText.lower ("Error terminating process: " ++ str_exn e)));
        auto.
    + exists (request_cancel job). split; [apply get_job_store_same|].
      reflexivity.
Qed.

Lemma api_cancel_status_witness :
  status_code (fst (api_cancel "k9" Exited two_jobs)) = 404
  /\ status_code (fst (api_cancel "k2" Exited two_jobs)) = 400
  /\ status_code (fst (api_cancel "k1" Exited two_jobs)) = 200.
Proof.
  destruct (api_cancel_status "k9" Exited two_jobs) as (A & _).
  destruct (api_cancel_status "k2" Exited two_jobs) as (_ & B & _).
  destruct (api_cancel_status "k1" Exited two_jobs) as (_ & _ & C & _).
  split; [apply A; reflexivity|].
  split; [apply (B (new_job "k2" default_config)); [reflexivity | discriminate]|].
  eapply C; [reflexivity | reflexivity | left; reflexivity].
Defined.

